(** * Nagato: an HTTP proxy that relays, rewrites and fragments requests

    A shallow embedding of [nagato.py] (version 0.6.0) and the properties of
    its parser-relay, its policy map and its obfuscation helpers.

    Conventions of the embedding.
    - [bytes] is a list of 8-bit characters.  A Python [str] obtained with
      [bytes.decode()] is kept as its UTF-8 byte sequence, so [.encode()] is
      the identity on it; [decode] only checks that the bytes are UTF-8.
    - An [asyncio.StreamReader] is the sequence of bytes that will still
      arrive on it before end of file.  [readline] is a function of that
      sequence; [read n] returns between one and [n] of its first bytes,
      the number being taken from the [arrivals] of the world (how much the
      transport had delivered when the call was served).
    - [random] is a tape of natural numbers, one per draw.
    - Everything written, flushed, closed, slept or connected is appended to
      the [trace] of the world, in program order.
    - Library functions whose exact grammar is outside the repository
      ([int], [urlparse] and the methods of its result) are the fields of
      the class [PyLib]. *)

From Stdlib Require Import ZArith List Ascii String Lia Bool DecimalString.
From Stdlib Require DecimalPos DecimalZ.
From stdpp Require Import base option list gmap strings.
Import ListNotations.

Local Open Scope Z_scope.

(** ** Bytes and text *)

Abbreviation bytes := (list ascii).

Definition B (s : string) : bytes := list_ascii_of_string s.

Definition CR : ascii := "013"%char.
Definition LF : ascii := "010"%char.
Definition SP : ascii := " "%char.
Definition CRLF : bytes := [CR; LF].

Definition ascii_eqb_in (c : ascii) (set : bytes) : bool :=
  existsb (Ascii.eqb c) set.

(** [s.lstrip(chars)] *)
Fixpoint lstrip (chars : bytes) (s : bytes) : bytes :=
  match s with
  | c :: s' => if ascii_eqb_in c chars then lstrip chars s' else s
  | [] => []
  end.

(** [s.rstrip(chars)] *)
Definition rstrip (chars : bytes) (s : bytes) : bytes :=
  rev (lstrip chars (rev s)).

(** [s.strip(chars)] *)
Definition strip (chars : bytes) (s : bytes) : bytes :=
  rstrip chars (lstrip chars s).

(** [s.split(sep)] for a one-character separator: every occurrence splits. *)
Fixpoint split_all (sep : ascii) (s : bytes) : list bytes :=
  match s with
  | [] => [[]]
  | c :: s' =>
      if Ascii.eqb c sep then [] :: split_all sep s'
      else match split_all sep s' with
           | cur :: rest => (c :: cur) :: rest
           | [] => [[c]]
           end
  end.

(** [s.split(sep, maxsplit)] for a one-character separator. *)
Fixpoint split_max (sep : ascii) (maxsplit : nat) (s : bytes) : list bytes :=
  match maxsplit with
  | O => [s]
  | S m =>
      (fix go (s : bytes) : list bytes :=
         match s with
         | [] => [[]]
         | c :: s' =>
             if Ascii.eqb c sep then [] :: split_max sep m s'
             else match go s' with
                  | cur :: rest => (c :: cur) :: rest
                  | [] => [[c]]
                  end
         end) s
  end.

(** ASCII lower-casing.  [str.lower()] is only ever compared with the
    lower-case ASCII names [content-length], [transfer-encoding], [host] and
    [proxy-connection]; no character outside ASCII lower-cases to a letter of
    these names, so the comparison is decided on the bytes. *)
Definition lower_char (c : ascii) : ascii :=
  let n := nat_of_ascii c in
  if (Nat.leb 65 n && Nat.leb n 90)%bool then ascii_of_nat (n + 32) else c.

Definition lower (s : bytes) : bytes := map lower_char s.

Definition bytes_eqb (a b : bytes) : bool := bool_decide (a = b).

(** [startswith] *)
Fixpoint startswith (s prefix : bytes) : bool :=
  match prefix, s with
  | [], _ => true
  | p :: prefix', c :: s' => Ascii.eqb c p && startswith s' prefix'
  | _ :: _, [] => false
  end.

(** [str(n)] for an integer. *)
Definition str_of_Z (n : Z) : bytes :=
  B (NilZero.string_of_int (Z.to_int n)).

(** Strict UTF-8, as [bytes.decode()] checks it: no overlong form, no
    surrogate, nothing above U+10FFFF. *)
Definition in_range (lo hi : nat) (c : ascii) : bool :=
  (Nat.leb lo (nat_of_ascii c) && Nat.leb (nat_of_ascii c) hi)%bool.

Definition cont (c : ascii) : bool := in_range 128 191 c.

Fixpoint utf8_valid (s : bytes) : bool :=
  match s with
  | [] => true
  | c0 :: s1 =>
      if in_range 0 127 c0 then utf8_valid s1
      else match s1 with
      | c1 :: s2 =>
          if in_range 194 223 c0 then cont c1 && utf8_valid s2
          else match s2 with
          | c2 :: s3 =>
              if in_range 224 224 c0 then in_range 160 191 c1 && cont c2 && utf8_valid s3
              else if in_range 225 236 c0 then cont c1 && cont c2 && utf8_valid s3
              else if in_range 237 237 c0 then in_range 128 159 c1 && cont c2 && utf8_valid s3
              else if in_range 238 239 c0 then cont c1 && cont c2 && utf8_valid s3
              else match s3 with
              | c3 :: s4 =>
                  if in_range 240 240 c0
                  then in_range 144 191 c1 && cont c2 && cont c3 && utf8_valid s4
                  else if in_range 241 243 c0
                  then cont c1 && cont c2 && cont c3 && utf8_valid s4
                  else if in_range 244 244 c0
                  then in_range 128 143 c1 && cont c2 && cont c3 && utf8_valid s4
                  else false
              | [] => false
              end
          | [] => false
          end
      | [] => false
      end
  end.

(** ** Exceptions, events and the world *)

Inductive exn :=
  | EOFError | ValueError | TypeError | AttributeError | StructError | OSError.

Inductive peer := Client | Server.

Global Instance exn_eq_dec : EqDecision exn.
Proof. solve_decision. Defined.

Global Instance peer_eq_dec : EqDecision peer.
Proof. solve_decision. Defined.

Inductive event :=
  | Write (p : peer) (data : bytes)
  | Drain (p : peer)
  | Close (p : peer)
  | Sleep (ms : Z)
  | Connect (host : option bytes) (port : option Z)
  | Pumps.

Record World := mkWorld {
  client_in : bytes;        (* what the client still sends before it closes *)
  server_in : bytes;        (* what the upstream still sends before it closes *)
  arrivals : list nat;      (* per [read], the bytes delivered so far, less one *)
  rng : list nat;           (* per draw of [random], the number drawn *)
  upstream_up : bool;       (* does [asyncio.open_connection] succeed *)
  trace : list event;
  host_abs_url : gmap bytes bool;
}.

Definition input (p : peer) (w : World) : bytes :=
  match p with Client => client_in w | Server => server_in w end.

Definition set_input (p : peer) (s : bytes) (w : World) : World :=
  match p with
  | Client => mkWorld s (server_in w) (arrivals w) (rng w) (upstream_up w)
                      (trace w) (host_abs_url w)
  | Server => mkWorld (client_in w) s (arrivals w) (rng w) (upstream_up w)
                      (trace w) (host_abs_url w)
  end.

Definition set_arrivals (a : list nat) (w : World) : World :=
  mkWorld (client_in w) (server_in w) a (rng w) (upstream_up w)
          (trace w) (host_abs_url w).

Definition set_rng (r : list nat) (w : World) : World :=
  mkWorld (client_in w) (server_in w) (arrivals w) r (upstream_up w)
          (trace w) (host_abs_url w).

Definition log (e : event) (w : World) : World :=
  mkWorld (client_in w) (server_in w) (arrivals w) (rng w) (upstream_up w)
          (trace w ++ [e]) (host_abs_url w).

Definition set_policy (m : gmap bytes bool) (w : World) : World :=
  mkWorld (client_in w) (server_in w) (arrivals w) (rng w) (upstream_up w)
          (trace w) m.

(** ** The monad of the program: state, exceptions, and fuel for loops *)

Inductive outcome (A : Type) :=
  | Ret (a : A)
  | Raise (e : exn)
  | OutOfFuel.
Arguments Ret {A} a.
Arguments Raise {A} e.
Arguments OutOfFuel {A}.

Definition M (A : Type) : Type := World -> outcome A * World.

Definition ret {A} (a : A) : M A := fun w => (Ret a, w).
Definition raise {A} (e : exn) : M A := fun w => (Raise e, w).
Definition out_of_fuel {A} : M A := fun w => (OutOfFuel, w).

Definition bind {A B} (m : M A) (k : A -> M B) : M B :=
  fun w =>
    match m w with
    | (Ret a, w') => k a w'
    | (Raise e, w') => (Raise e, w')
    | (OutOfFuel, w') => (OutOfFuel, w')
    end.

Notation "'let*' x ':=' m 'in' k" := (bind m (fun x => k))
  (at level 10, x name, m at level 100, k at level 200).
Notation "'let*' ( x , y ) ':=' m 'in' k" :=
  (bind m (fun p => let '(x, y) := p in k))
  (at level 10, x name, y name, m at level 100, k at level 200).
Notation "'let*' ( x , y , z ) ':=' m 'in' k" :=
  (bind m (fun p => let '(x, y, z) := p in k))
  (at level 10, x name, y name, z name, m at level 100, k at level 200).
Notation "m ';;' k" := (bind m (fun _ => k))
  (at level 100, k at level 200, right associativity).

(** [try: m  except e: h] *)
Definition try_except {A} (m : M A) (e : exn) (h : M A) : M A :=
  fun w =>
    match m w with
    | (Raise e', w') => if bool_decide (e' = e) then h w' else (Raise e', w')
    | r => r
    end.

Definition emit (e : event) : M unit := fun w => (Ret tt, log e w).

Definition write (p : peer) (data : bytes) : M unit := emit (Write p data).
Definition drain (p : peer) : M unit := emit (Drain p).
Definition close (p : peer) : M unit := emit (Close p).
Definition sleep (ms : Z) : M unit := emit (Sleep ms).

(** ** asyncio.StreamReader *)

(** The default [limit] of a stream reader, [2 ** 16]. *)
Definition limit : Z := 65536.

(** Index of the first [LF] of [s]. *)
Fixpoint find_lf (s : bytes) : option nat :=
  match s with
  | [] => None
  | c :: s' => if Ascii.eqb c LF then Some O
               else match find_lf s' with Some i => Some (S i) | None => None end
  end.

(** [await reader.readline()]: the bytes up to and including the first
    ["\n"]; at end of file whatever is left, possibly nothing.  A line whose
    ["\n"] is not among the first [limit + 1] bytes raises [ValueError] and
    the reader drops it. *)
Definition readline (p : peer) : M bytes :=
  fun w =>
    let buf := input p w in
    match find_lf buf with
    | Some i =>
        if limit <? Z.of_nat i
        then (Raise ValueError, set_input p (drop (S i) buf) w)
        else (Ret (take (S i) buf), set_input p (drop (S i) buf) w)
    | None =>
        if limit <? Z.of_nat (length buf)
        then (Raise ValueError, set_input p [] w)
        else (Ret buf, set_input p [] w)
    end.

(** [await reader.read(n)] for [n >= 0]: at end of file nothing; otherwise
    what the transport has delivered so far, at least one byte and at most
    [n]. *)
Definition read (p : peer) (n : Z) : M bytes :=
  fun w =>
    let buf := input p w in
    let avail := match arrivals w with a :: _ => S a | [] => length buf end in
    let k := Z.to_nat (Z.min n (Z.of_nat (Nat.min avail (length buf)))) in
    (Ret (take k buf), set_input p (drop k buf) (set_arrivals (tail (arrivals w)) w)).

(** ** random *)

(** [random.randrange(k)] *)
Definition randrange (k : Z) : M Z :=
  fun w =>
    if k <=? 0 then (Raise ValueError, w)
    else (Ret (Z.of_nat (hd O (rng w)) mod k), set_rng (tail (rng w)) w).

(** ** Module-level helpers *)

Definition nagato_version : bytes := B "0.6.0".

Definition PROXY_RESP_504 (version : bytes) : bytes :=
  version ++ B " 504 Gateway Timeout" ++ CRLF
  ++ B "Proxy-Agent: Nagato/" ++ nagato_version ++ CRLF
  ++ B "Connection: close" ++ CRLF ++ CRLF.

Definition PROXY_RESP_200 (version : bytes) : bytes :=
  version ++ B " 200 Connection Established" ++ CRLF
  ++ B "Proxy-Agent: Nagato/" ++ nagato_version ++ CRLF ++ CRLF.

Definition PROXY_RESP_307 (version location : bytes) : bytes :=
  version ++ B " 307 Temporary Redirect" ++ CRLF
  ++ B "Location: " ++ location ++ CRLF
  ++ B "Proxy-Agent: Nagato/" ++ nagato_version ++ CRLF
  ++ B "Connection: close" ++ CRLF ++ CRLF.

(** [try: m  finally: f] *)
Definition finally {A} (m : M A) (f : M unit) : M A :=
  fun w =>
    match m w with
    | (r, w') =>
        match f w' with
        | (Ret _, w'') => (r, w'')
        | (Raise e, w'') => (Raise e, w'')
        | (OutOfFuel, w'') => (OutOfFuel, w'')
        end
    end.

(** The loop of [tunnel_stream]: each turn but the last takes at least one
    byte from the reader. *)
Fixpoint tunnel_stream_loop (fuel : nat) (r wr : peer) : M unit :=
  match fuel with
  | O => out_of_fuel
  | S fuel' =>
      let* buf := read r 65536 in
      match buf with
      | [] => ret tt
      | _ => write wr buf ;; tunnel_stream_loop fuel' r wr
      end
  end.

(** [tunnel_stream(reader, writer, closing)] *)
Definition tunnel_stream (r wr : peer) (closing : M unit) : M unit :=
  finally (fun w => tunnel_stream_loop (S (length (input r w))) r wr w)
          (close wr ;; closing).

Definition letters : bytes :=
  B "abcdefghijklmnopqrstuvwxyzABCDEFGHIJKLMNOPQRSTUVWXYZ".

(** [random.choice(seq)] *)
Definition choice (seq : bytes) : M ascii :=
  match seq with
  | [] => raise ValueError    (* IndexError in Python; [letters] is not empty *)
  | c :: _ =>
      let* i := randrange (Z.of_nat (length seq)) in
      ret (nth (Z.to_nat i) seq c)
  end.

(** [random_str(size)] *)
Fixpoint random_str (size : nat) : M bytes :=
  match size with
  | O => ret []
  | S size' =>
      let* c := choice letters in
      let* rest := random_str size' in
      ret (c :: rest)
  end.

(** The generator [random_split(s, step)], run to exhaustion: the list of
    what it yields.  Each turn removes at least one byte of [s]. *)
Fixpoint random_split_loop (fuel : nat) (s : bytes) (step : Z) : M (list bytes) :=
  match s with
  | [] => ret []
  | _ :: _ =>
      match fuel with
      | O => out_of_fuel
      | S fuel' =>
          let* r := randrange (step - 1) in
          let rr := r + 1 in
          let cur := take (Z.to_nat rr) s in
          let s := drop (Z.to_nat rr) s in
          let* rest := random_split_loop fuel' s step in
          ret (cur :: rest)
      end
  end.

Definition random_split (s : bytes) (step : Z) : M (list bytes) :=
  random_split_loop (length s) s step.

(** ** Library functions taken as given *)

(** [urllib.parse.ParseResult], a named tuple of six strings. *)
Record ParseResult := mkParseResult {
  scheme : bytes;
  netloc : bytes;
  path : bytes;
  params : bytes;
  query : bytes;
  fragment : bytes;
}.

(** [url._replace(scheme=s)] and [url._replace(scheme=s, netloc=n)] *)
Definition replace_scheme (s : bytes) (u : ParseResult) : ParseResult :=
  mkParseResult s (netloc u) (path u) (params u) (query u) (fragment u).

Definition replace_scheme_netloc (s n : bytes) (u : ParseResult) : ParseResult :=
  mkParseResult s n (path u) (params u) (query u) (fragment u).

(** The functions of the Python library the program calls on text.  [None]
    stands for the [ValueError] the function raises. *)
Class PyLib := {
  (** [int(s)] on a decoded string *)
  py_int : bytes -> option Z;
  (** [int(b, 16)] on bytes *)
  py_int16 : bytes -> option Z;
  (** [urlparse(s)] *)
  urlparse : bytes -> option ParseResult;
  (** [url.hostname], which may be [None] *)
  hostname : ParseResult -> option bytes;
  (** [url.port], which may be [None] *)
  port : ParseResult -> option (option Z);
  (** [url.geturl()] *)
  geturl : ParseResult -> bytes;
}.

Definition lift {A} (e : exn) (o : option A) : M A :=
  match o with Some a => ret a | None => raise e end.

(** [b.decode()]; [UnicodeDecodeError] is a [ValueError]. *)
Definition decode (b : bytes) : M bytes :=
  if utf8_valid b then ret b else raise ValueError.

(** ** HttpStream *)

Record HttpStream := mkHttp {
  reader : peer;
  writer : option peer;
  field_done : bool;
  body_len : Z;
  chunked : bool;
  chunk_len : option Z;
  body_done : bool;
}.

(** [HttpStream(reader, writer)] *)
Definition HttpStream_init (r : peer) (wr : option peer) : HttpStream :=
  mkHttp r wr false 0 false None false.

Definition set_field_done (b : bool) (h : HttpStream) : HttpStream :=
  mkHttp (reader h) (writer h) b (body_len h) (chunked h) (chunk_len h) (body_done h).
Definition set_body_len (n : Z) (h : HttpStream) : HttpStream :=
  mkHttp (reader h) (writer h) (field_done h) n (chunked h) (chunk_len h) (body_done h).
Definition set_chunked (b : bool) (h : HttpStream) : HttpStream :=
  mkHttp (reader h) (writer h) (field_done h) (body_len h) b (chunk_len h) (body_done h).
Definition set_chunk_len (c : option Z) (h : HttpStream) : HttpStream :=
  mkHttp (reader h) (writer h) (field_done h) (body_len h) (chunked h) c (body_done h).
Definition set_body_done (b : bool) (h : HttpStream) : HttpStream :=
  mkHttp (reader h) (writer h) (field_done h) (body_len h) (chunked h) (chunk_len h) b.

(** [self.writer.write(data)]; the writer may be [None]. *)
Definition hwrite (h : HttpStream) (data : bytes) : M unit :=
  match writer h with
  | Some p => write p data
  | None => raise AttributeError
  end.

Definition tee (tunnel : bool) (h : HttpStream) (data : bytes) : M unit :=
  if tunnel then hwrite h data else ret tt.

(** What [next_header_field] returns: a pair, the empty line, or [None]. *)
Inductive header_item :=
  | Field (name value : bytes)
  | EmptyLine (line : bytes)
  | HeaderDone.

(** What [next_chunk_ready] returns: an [int], a line, or [None]. *)
Inductive chunk_item :=
  | ChunkLen (n : Z)
  | ChunkLine (line : bytes)
  | BodyDone.

(** [HttpStream.nextline] *)
Definition nextline (h : HttpStream) : M bytes :=
  let* line := readline (reader h) in
  match line with
  | [] => raise EOFError
  | _ => ret line
  end.

Section Program.
Context {py : PyLib}.

(** [HttpStream.request_line] *)
Definition request_line (tunnel : bool) (h : HttpStream)
  : M (bytes * bytes * bytes) :=
  let* req_line := nextline h in
  tee tunnel h req_line ;;
  let* s := decode req_line in
  match split_all SP s with
  | [method; url; version] => ret (method, url, rstrip CRLF version)
  | _ => raise ValueError
  end.

(** [HttpStream.status_line] *)
Definition status_line (tunnel : bool) (h : HttpStream)
  : M (bytes * Z * bytes) :=
  let* status_line := nextline h in
  tee tunnel h status_line ;;
  let* s := decode status_line in
  match split_max SP 2 s with
  | [version; status; reason] =>
      let reason := rstrip CRLF reason in
      let* status := lift ValueError (py_int status) in
      ret (version, status, reason)
  | _ => raise ValueError
  end.

(** [HttpStream.next_header_field] *)
Definition next_header_field (tunnel : bool) (h : HttpStream)
  : M (header_item * HttpStream) :=
  if field_done h then ret (HeaderDone, h)
  else
    let* field_line := nextline h in
    tee tunnel h field_line ;;
    if bytes_eqb field_line CRLF
    then ret (EmptyLine field_line, set_field_done true h)
    else
      let* s := decode field_line in
      match split_max ":" 1 s with
      | [name; value] =>
          let name := strip [SP] name in
          let value := rstrip CRLF (lstrip [SP] value) in
          let name_lower := lower name in
          if bytes_eqb name_lower (lower (B "Content-Length")) then
            let* n := lift ValueError (py_int value) in
            ret (Field name value, set_body_len n h)
          else if bytes_eqb name_lower (lower (B "Transfer-Encoding")) then
            let codings := map (strip [SP]) (split_all "," value) in
            if existsb (bytes_eqb (B "chunked")) codings
            then ret (Field name value, set_chunked true h)
            else ret (Field name value, h)
          else ret (Field name value, h)
      | _ => raise ValueError
      end.

(** [HttpStream.next_chunk_ready] *)
Definition next_chunk_ready (tunnel : bool) (h : HttpStream)
  : M (chunk_item * HttpStream) :=
  if body_done h then ret (BodyDone, h)
  else if negb (chunked h) then
    let h := set_body_done true h in
    if body_len h >? 0 then ret (ChunkLen (body_len h), h)
    else ret (BodyDone, h)
  else
    let* line := nextline h in
    tee tunnel h line ;;
    match chunk_len h with
    | None =>
        let* n := lift ValueError (py_int16 (rstrip CRLF line)) in
        ret (ChunkLen n, set_chunk_len (Some n) h)
    | Some cl =>
        let h := if cl =? 0 then set_body_done true h else h in
        ret (ChunkLine line, set_chunk_len None h)
    end.

(** The loop of [HttpStream.tunnel_chunk]: every turn that does not raise
    takes at least one byte from the reader, so the bytes still to come
    bound the number of turns. *)
Fixpoint tunnel_chunk_loop (fuel : nat) (h : HttpStream) (n : Z) : M unit :=
  if n >? 0 then
    match fuel with
    | O => out_of_fuel
    | S fuel' =>
        let rlen := if n >? 65536 then 65536 else n in
        let* buf := read (reader h) rlen in
        let n := n - Z.of_nat (length buf) in
        hwrite h buf ;;
        if (bool_decide (buf = []) && (n >? 0))%bool then raise EOFError
        else tunnel_chunk_loop fuel' h n
    end
  else ret tt.

(** [HttpStream.tunnel_chunk]; comparing [None] with [0] is a [TypeError]. *)
Definition tunnel_chunk (h : HttpStream) : M unit :=
  let* n := if negb (chunked h) then ret (body_len h)
            else lift TypeError (chunk_len h) in
  fun w => tunnel_chunk_loop (S (length (input (reader h) w))) h n w.

(** ** NagatoStream *)

(** The URL of a request line as [handle_request] is called with it: the
    result of [urlparse], as [handle_streams] passes it for the first
    request of a connection, or the string that [request_line] returned,
    as the loop of [handle_requests] passes it for the following ones
    (line 367). *)
Inductive url_arg :=
  | Parsed (u : ParseResult)
  | Unparsed (s : bytes).

Record NagatoStream := mkNagato {
  sess_host : option bytes;          (* [self.host] *)
  sess_port : option Z;              (* [self.port] *)
  last_url : option url_arg;         (* [self.last_url]: [None], or what line
                                        255 stored, of either kind *)
}.

Definition NagatoStream_init : NagatoStream := mkNagato None None None.

(** [self.last_url = url] (line 255) *)
Definition assign_last_url (u : url_arg) (self : NagatoStream) : NagatoStream :=
  mkNagato (sess_host self) (sess_port self) (Some u).

Definition set_last_url (u : ParseResult) (self : NagatoStream) : NagatoStream :=
  assign_last_url (Parsed u) self.

(** What has the method [geturl]: a [ParseResult]; [None] and a [str] do
    not ([AttributeError]). *)
Definition parsed_url (u : option url_arg) : option ParseResult :=
  match u with
  | Some (Parsed p) => Some p
  | Some (Unparsed _) | None => None
  end.

(** ['{}'.format(x)] for a value that may be [None] *)
Definition fmt_str (o : option bytes) : bytes :=
  match o with Some s => s | None => B "None" end.

Definition fmt_int (o : option Z) : bytes :=
  match o with Some n => str_of_Z n | None => B "None" end.

(** ['{}:{}'.format(self.host, self.port)], the key of the policy map *)
Definition origin_key (self : NagatoStream) : bytes :=
  fmt_str (sess_host self) ++ B ":" ++ fmt_int (sess_port self).

Definition get_policy (key : bytes) : M (option bool) :=
  fun w => (Ret (host_abs_url w !! key), w).

Definition put_policy (key : bytes) (v : bool) : M unit :=
  fun w => (Ret tt, set_policy (<[key := v]> (host_abs_url w)) w).

(** [asyncio.open_connection(host, port)]: [OSError] when it fails. *)
Definition open_connection (host : option bytes) (port : option Z) : M unit :=
  emit (Connect host port) ;;
  fun w => if upstream_up w then (Ret tt, w) else (Raise OSError, w).

(** [NagatoStream.read] *)
Definition nagato_read (n : Z) : M bytes :=
  let* buf := read Client n in
  match buf with
  | [] => raise EOFError
  | _ => ret buf
  end.

(** [struct.unpack('>H', b)]: exactly two bytes, big-endian. *)
Definition unpack_H (b : bytes) : M Z :=
  match b with
  | [hi; lo] => ret (256 * Z.of_nat (nat_of_ascii hi) + Z.of_nat (nat_of_ascii lo))
  | _ => raise StructError
  end.

Definition TLS_HELLO : bytes := ["022"; "003"; "001"]%char.

(** [NagatoStream.handle_tunnel], up to the point where the two
    [tunnel_stream] tasks are started (the event [Pumps]); what the two
    concurrent pumps do afterwards is [tunnel_stream], one per direction. *)
Definition handle_tunnel (host : option bytes) (port : option Z)
    (version : bytes) : M unit :=
  let* connected :=
    try_except (open_connection host port ;; ret true) OSError
      (write Client (PROXY_RESP_504 version) ;; close Client ;; ret false) in
  if negb connected then ret tt
  else
    write Client (PROXY_RESP_200 version) ;;
    (* handle TLS *)
    let* buf := nagato_read 5 in
    write Server buf ;;
    (if startswith buf TLS_HELLO then
       let* hello_len := unpack_H (drop 3 buf) in
       if hello_len >? 85 then
         let* buf := nagato_read 85 in
         write Server buf ;;
         drain Server
       else ret tt
     else ret tt) ;;
    (* start tunneling *)
    emit Pumps.

(** The header loop of [handle_request] (lines 283-298): the fields to
    forward, and the value of the last [Host] field.  Each turn reads a
    line. *)
Fixpoint request_fields (fuel : nat) (http : HttpStream)
    (field_lines : list bytes) (host : option bytes)
  : M (HttpStream * list bytes * option bytes) :=
  match fuel with
  | O => out_of_fuel
  | S fuel' =>
      let* (field, http) := next_header_field false http in
      match field with
      | EmptyLine _ | HeaderDone => ret (http, field_lines, host)
      | Field name value =>
          let name_lower := lower name in
          if bytes_eqb name_lower (lower (B "Host")) then
            request_fields fuel' http field_lines (Some value)
          else if bytes_eqb name_lower (lower (B "Proxy-Connection")) then
            request_fields fuel' http
              (field_lines ++ [B "Connection: " ++ value ++ CRLF]) host
          else
            request_fields fuel' http
              (field_lines ++ [name ++ B ": " ++ value ++ CRLF]) host
      end
  end.

(** [a or b] on strings that may be [None]: [a] unless it is [None] or
    empty. *)
Definition py_or (a b : option bytes) : option bytes :=
  match a with
  | Some (_ :: _) => a
  | _ => b
  end.

(** The loop over the segments of the host line (lines 309-312); the
    argument of [asyncio.sleep] is recorded in milliseconds. *)
Fixpoint write_segments (segs : list bytes) : M unit :=
  match segs with
  | [] => ret tt
  | p :: segs' =>
      write Server p ;;
      drain Server ;;
      let* ms := randrange 10 in
      sleep ms ;;
      write_segments segs'
  end.

(** The body loop of [handle_request] and [handle_response]. *)
Fixpoint relay_body (fuel : nat) (http : HttpStream) : M HttpStream :=
  match fuel with
  | O => out_of_fuel
  | S fuel' =>
      let* (chunk_line, http) := next_chunk_ready true http in
      match chunk_line with
      | BodyDone => ret http
      | ChunkLen _ => tunnel_chunk http ;; relay_body fuel' http
      | ChunkLine _ => relay_body fuel' http
      end
  end.

(** The eight dummy fields (lines 273-275). *)
Fixpoint dummy_fields (count : nat) : M unit :=
  match count with
  | O => ret tt
  | S count' =>
      let* name := random_str 16 in
      let* value := random_str 128 in
      write Server (B "X-" ++ name ++ B ": " ++ value ++ CRLF) ;;
      dummy_fields count'
  end.

(** [NagatoStream.handle_request], first half (lines 254-298): the request
    line, the dummy fields, and the header fields of the client.  Returns
    the session with [last_url] set, [is_absolute], and what the header
    loop collected. *)
Definition request_head (self : NagatoStream)
    (req_line : bytes * ParseResult * bytes)
  : M (NagatoStream * bool * (HttpStream * list bytes * option bytes)) :=
  let '(method, url, version) := req_line in
  let self := set_last_url url self in
  let* entry := get_policy (origin_key self) in
  let is_absolute := default true entry in
  let url := if is_absolute then replace_scheme (B "https") url
             else replace_scheme_netloc [] [] url in
  write Server (method ++ [SP] ++ geturl url ++ [SP] ++ version ++ CRLF) ;;
  (if negb is_absolute then dummy_fields 8 ;; drain Server else ret tt) ;;
  (* handle the header fields except host *)
  let http := HttpStream_init Client (Some Server) in
  let* collected :=
    (fun w => request_fields (S (S (length (client_in w)))) http [] None w) in
  ret (self, is_absolute, collected).

(** The host line (lines 302-312). *)
Definition write_host_line (self : NagatoStream) (is_absolute : bool)
    (host : option bytes) : M unit :=
  if (negb is_absolute || bool_decide (host <> None))%bool then
    (* mix cases, no space between field name and value *)
    let* h := lift TypeError (py_or host (sess_host self)) in
    let host_line := B "hoSt:" ++ h ++ CRLF in
    (* field segmentation *)
    let* segs := random_split (drop 2 host_line) 6 in
    write_segments (take 2 host_line :: segs)
  else ret tt.

(** [NagatoStream.handle_request], second half (lines 300-322): the
    collected fields, the host line, the end of the header, the body. *)
Definition request_tail (self : NagatoStream) (is_absolute : bool)
    (http : HttpStream) (field_lines : list bytes) (host : option bytes)
  : M NagatoStream :=
  write Server (concat field_lines) ;;
  write_host_line self is_absolute host ;;
  (* finish handling the header *)
  write Server CRLF ;;
  (* handle the body *)
  (fun w => relay_body (S (S (length (client_in w)))) http w) ;;
  ret self.

(** [NagatoStream.handle_request]; returns the session with [last_url]
    set. *)
Definition handle_request (self : NagatoStream)
    (req_line : bytes * ParseResult * bytes) : M NagatoStream :=
  let* (self, is_absolute, collected) := request_head self req_line in
  let '(http, field_lines, host) := collected in
  request_tail self is_absolute http field_lines host.

(** The header loop of [handle_response] (lines 349-352). *)
Fixpoint relay_fields (fuel : nat) (http : HttpStream) : M HttpStream :=
  match fuel with
  | O => out_of_fuel
  | S fuel' =>
      let* (field, http) := next_header_field true http in
      match field with
      | HeaderDone => ret http
      | _ => relay_fields fuel' http
      end
  end.

Definition is_success (status : Z) : bool :=
  ((200 <=? status) && (status <? 300) || (status =? 304))%bool.

Definition is_failure (status : Z) : bool :=
  ((400 <=? status) && (status <? 600) && negb (status =? 503))%bool.

(** The end of [handle_response] (lines 345-359): the status line again,
    then the fields and the body through the tee. *)
Definition forward_response (http : HttpStream) (version : bytes)
    (status : Z) (reason : bytes) : M unit :=
  write Client (version ++ [SP] ++ str_of_Z status ++ [SP] ++ reason ++ CRLF) ;;
  (* just tunnel the rest *)
  let* http := (fun w => relay_fields (S (S (length (server_in w)))) http w) in
  (fun w => relay_body (S (S (length (server_in w)))) http w) ;;
  ret tt.

(** [NagatoStream.handle_response] *)
Definition handle_response (self : NagatoStream) : M unit :=
  let http := HttpStream_init Server (Some Client) in
  (* handle the status line *)
  let* (version, status, reason) := status_line false http in
  (if is_success status then
     (* succeeded: continue to replace by HTTPS scheme *)
     put_policy (origin_key self) true
   else if is_failure status then
     (* failed: restart and then don't replace scheme *)
     (* ignore the response from the server *)
     put_policy (origin_key self) false ;;
     let* url := lift AttributeError (parsed_url (last_url self)) in
     write Client (PROXY_RESP_307 version (geturl url)) ;;
     close Client ;;
     raise EOFError
   else
     (* inconclusive for the other status codes *)
     ret tt) ;;
  forward_response http version status reason.

(** The loop of [handle_responses]: each response takes its status line
    from the upstream. *)
Fixpoint responses_loop (fuel : nat) (self : NagatoStream) : M unit :=
  match fuel with
  | O => out_of_fuel
  | S fuel' =>
      let* entry := get_policy (origin_key self) in
      match entry with
      | None => handle_response self ;; responses_loop fuel' self
      | Some _ => ret tt
      end
  end.

(** [NagatoStream.handle_responses] *)
Definition handle_responses (self : NagatoStream) : M unit :=
  let* decided :=
    try_except
      ((fun w => responses_loop (S (length (server_in w))) self w) ;; ret true)
      EOFError
      (close Client ;; close Server ;; ret false) in
  if negb decided then ret tt
  else
    (* decided, so switch to tunnel everything *)
    tunnel_stream Server Client (close Server).

(** The loop of [handle_streams] that drops the fields of a CONNECT
    request (lines 400-403). *)
Fixpoint drop_fields (fuel : nat) (http : HttpStream) : M unit :=
  match fuel with
  | O => out_of_fuel
  | S fuel' =>
      let* line := nextline http in
      if bytes_eqb line CRLF then ret tt else drop_fields fuel' http
  end.

(** [NagatoStream.handle_streams], up to the point where the request and
    the response task are started: the session and the first request line
    they start from, or [None] when the connection was a tunnel or could
    not be opened. *)
Definition handle_streams (self : NagatoStream)
  : M (option (NagatoStream * (bytes * ParseResult * bytes))) :=
  (* connect to the server *)
  let http := HttpStream_init Client None in
  let* (method, url, version) := request_line false http in
  if bytes_eqb method (B "CONNECT") then
    (* handle the tunneling request *)
    let* url := lift ValueError (urlparse (B "//" ++ url)) in
    let host := hostname url in
    let* port := lift ValueError (port url) in
    (* drop the rest, assuming no body *)
    (fun w => drop_fields (S (length (client_in w))) http w) ;;
    handle_tunnel host port version ;;
    ret None
  else
    let* url := lift ValueError (urlparse url) in
    let host := hostname url in
    let* port := lift ValueError (port url) in
    let port := match port with None => 80 | Some p => p end in
    (* start relaying *)
    let* connected :=
      try_except (open_connection host (Some port) ;; ret true) OSError
        (write Client (PROXY_RESP_504 version) ;; close Client ;; ret false) in
    if negb connected then ret None
    else ret (Some (mkNagato host (Some port) (last_url self),
                    (method, url, version))).

End Program.

(** ** A reference instance of the library, for ASCII inputs

    Plain numerals and plain [scheme://host:port/path] URLs, enough to run
    the program on the scenarios below.  The theorems hold for every
    instance. *)

Definition digit_of (c : ascii) : option Z :=
  let n := Z.of_nat (nat_of_ascii c) in
  if (48 <=? n) && (n <=? 57) then Some (n - 48)
  else if (97 <=? n) && (n <=? 102) then Some (n - 87)
  else if (65 <=? n) && (n <=? 70) then Some (n - 55)
  else None.

Fixpoint digits_value (base acc : Z) (s : bytes) : option Z :=
  match s with
  | [] => Some acc
  | c :: s' =>
      match digit_of c with
      | Some d => if d <? base then digits_value base (acc * base + d) s' else None
      | None => None
      end
  end.

Definition parse_int (base : Z) (s : bytes) : option Z :=
  match s with
  | [] => None
  | "-"%char :: (_ :: _) as ds => Z.opp <$> digits_value base 0 ds
  | _ => digits_value base 0 s
  end.

Fixpoint span (P : ascii -> bool) (s : bytes) : bytes * bytes :=
  match s with
  | [] => ([], [])
  | c :: s' => if P c then let (a, r) := span P s' in (c :: a, r) else ([], s)
  end.

Definition is_alpha (c : ascii) : bool :=
  in_range 65 90 c || in_range 97 122 c.

Definition simple_urlparse (s : bytes) : option ParseResult :=
  let (a, r) := span is_alpha s in
  let (sch, rest) :=
    match a, r with
    | _ :: _, ":"%char :: r' => (lower a, r')
    | _, _ => ([], s)
    end in
  let (loc, pth) :=
    if startswith rest (B "//")
    then span (fun c => negb (ascii_eqb_in c (B "/?#"))) (drop 2 rest)
    else ([], rest) in
  Some (mkParseResult sch loc pth [] [] []).

Definition simple_hostname (u : ParseResult) : option bytes :=
  match fst (span (fun c => negb (Ascii.eqb c ":")) (netloc u)) with
  | [] => None
  | h => Some (lower h)
  end.

Definition simple_port (u : ParseResult) : option (option Z) :=
  match snd (span (fun c => negb (Ascii.eqb c ":")) (netloc u)) with
  | [] | [_] => Some None
  | _ :: ds =>
      match digits_value 10 0 ds with
      | Some n => if n <=? 65535 then Some (Some n) else None
      | None => None
      end
  end.

Definition simple_geturl (u : ParseResult) : bytes :=
  (match scheme u with [] => [] | sch => sch ++ B ":" end)
  ++ (match netloc u with [] => [] | loc => B "//" ++ loc end)
  ++ path u.

Definition simple_py : PyLib :=
  {| py_int := parse_int 10;
     py_int16 := parse_int 16;
     urlparse := simple_urlparse;
     hostname := simple_hostname;
     port := simple_port;
     geturl := simple_geturl |}.

(** A world with the given inputs, nothing written yet, an empty policy
    map and a reachable upstream. *)
Definition world0 (cin sin : bytes) : World :=
  mkWorld cin sin [] [] true [] ∅.

(** [text] with every ["\n"] written as CRLF. *)
Definition crlf (text : string) : bytes :=
  flat_map (fun c => if Ascii.eqb c LF then CRLF else [c]) (B text).



(** The session of the scenarios: origin [example.com:80], last request
    [http://example.com/]. *)
Definition example_url : ParseResult :=
  mkParseResult (B "http") (B "example.com") (B "/") [] [] [].

Definition example_session : NagatoStream :=
  mkNagato (Some (B "example.com")) (Some 80) (Some (Parsed example_url)).

Definition response_403 : bytes :=
  crlf "HTTP/1.1 403 Forbidden
Content-Length: 0

".

Definition response_200 : bytes :=
  crlf "HTTP/1.1 200 OK
Content-Length: 2

OK".


(** [relayed p q w w']: from [w] to [w'] the program wrote to [q] exactly
    the bytes it took from the reader [p], and left the policy map alone. *)
Definition relayed (p q : peer) (w w' : World) : Prop :=
  exists writes,
    trace w' = trace w ++ map (Write q) writes
    /\ input p w = concat writes ++ input p w'
    /\ host_abs_url w' = host_abs_url w.

(** What a relaying step may do: relay and return, raise with the policy
    map as it was, but never run out of fuel. *)
Definition relays {A} (p q : peer) (w : World) (r : outcome A * World)
    (post : A -> Prop) : Prop :=
  match r with
  | (Ret a, w') => relayed p q w w' /\ post a
  | (Raise _, w') => host_abs_url w' = host_abs_url w
  | (OutOfFuel, _) => False
  end.

(** The events of the loop over the segments of the host line: each
    segment is written, flushed, and followed by a sleep. *)
Fixpoint segment_events (segs : list bytes) (sleeps : list Z) : list event :=
  match segs, sleeps with
  | seg :: segs', ms :: sleeps' =>
      Write Server seg :: Drain Server :: Sleep ms :: segment_events segs' sleeps'
  | _, _ => []
  end.

(** The bytes written to [p], write by write. *)
Fixpoint writes_to (p : peer) (t : list event) : list bytes :=
  match t with
  | [] => []
  | Write p' data :: t' =>
      if bool_decide (p' = p) then data :: writes_to p t' else writes_to p t'
  | _ :: t' => writes_to p t'
  end.

(** [w'] differs from [w] at most in the random tape and the trace. *)
Definition same_streams (w w' : World) : Prop :=
  client_in w' = client_in w /\ server_in w' = server_in w
  /\ arrivals w' = arrivals w /\ upstream_up w' = upstream_up w
  /\ host_abs_url w' = host_abs_url w.

(** The first request of the scenarios, [GET http://example.com/ HTTP/1.1],
    and the parser of the request task once the header has been read. *)
Definition example_request : bytes * ParseResult * bytes :=
  (B "GET", example_url, B "HTTP/1.1").

Definition request_http_done : HttpStream :=
  mkHttp Client (Some Server) true 0 false None false.

(** A TLS record of 200 bytes: the header [16 03 01 00 C4], then 195
    bytes of handshake. *)
Definition client_hello : bytes :=
  TLS_HELLO ++ ["000"; "196"]%char ++ repeat "x"%char 195.

Definition is_connect (e : event) : bool :=
  match e with Connect _ _ => true | _ => false end.

(** From [w] to [w'] events were added to the trace, none of them a
    connection. *)
Definition quiet (w w' : World) : Prop :=
  exists evs,
    trace w' = trace w ++ evs
    /\ forallb (fun e => negb (is_connect e)) evs = true.

Definition quiet_m {A} (m : M A) : Prop :=
  forall w r w', m w = (r, w') -> quiet w w'.

(** [m] leaves the policy map as it found it, however it ends. *)
Definition keeps {A} (m : M A) : Prop :=
  forall w r w', m w = (r, w') -> host_abs_url w' = host_abs_url w.

(** ** handle_requests *)

(** [handle_request] on either kind of URL.  A string has no [_replace]:
    after [self.last_url] is set (line 255) and the policy looked up, line
    262 or 266 raises [AttributeError] before anything is written. *)
Definition handle_request_any {py : PyLib} (self : NagatoStream)
    (req_line : bytes * url_arg * bytes) : M NagatoStream :=
  let '(method, url, version) := req_line in
  match url with
  | Parsed u => handle_request self (method, u, version)
  | Unparsed s =>
      let self := assign_last_url (Unparsed s) self in
      let* entry := get_policy (origin_key self) in
      raise AttributeError
  end.

(** The loop of [handle_requests]: each turn reads at least a request
    line. *)
Fixpoint handle_requests_loop {py : PyLib} (fuel : nat) (self : NagatoStream)
    (req_line : bytes * url_arg * bytes) : M unit :=
  match fuel with
  | O => out_of_fuel
  | S fuel' =>
      (* HTTP persistent connection *)
      let* self := handle_request_any self req_line in
      let* (method, url, version) :=
        request_line false (HttpStream_init Client None) in
      handle_requests_loop fuel' self (method, Unparsed url, version)
  end.

(** [NagatoStream.handle_requests] *)
Definition handle_requests {py : PyLib} (self : NagatoStream)
    (req_line : bytes * ParseResult * bytes) : M unit :=
  let '(method, url, version) := req_line in
  try_except
    (fun w => handle_requests_loop (S (S (length (client_in w)))) self
                (method, Parsed url, version) w)
    EOFError
    (ret tt).

(** ** The process: sessions sharing the policy map

    asyncio runs one task at a time and switches tasks only at an [await].
    Between two awaits a response task does one of two things to the map:
    at the head of the loop of [handle_responses] it looks the entry of its
    origin up, and in [handle_response], once the status line has come, it
    may set that entry.  The request task looks the entry up and never
    writes it; what it writes is [self.last_url], first thing in
    [handle_request], whether the call then returns or raises: for the
    first request of a connection the parsed URL, for a request line that
    the loop of [handle_requests] read itself the string.  The session
    object is shared by the two tasks, so the response task sees it.  A
    step of the process is one of these; any interleaving of the sessions
    is a sequence of steps. *)

Inductive phase :=
  | AtLoopHead      (* about to test [host_abs_url.get(host) is None] *)
  | InResponse      (* the test passed; in [handle_response] *)
  | Tunnelling      (* the test failed; in [tunnel_stream] *)
  | Ended.          (* [handle_responses] returned or raised *)

Record task := mkTask {
  t_self : NagatoStream;
  t_io : World;             (* the streams of the session; the policy map of
                               this world is replaced by the shared one *)
  t_phase : phase;
}.

Record process := mkProcess {
  policy : gmap bytes bool;
  tasks : list task;
}.

Definition after_response {A} (r : outcome A) : phase :=
  match r with Ret _ => AtLoopHead | _ => Ended end.

Definition after_check (entry : option bool) : phase :=
  match entry with None => InResponse | Some _ => Tunnelling end.

Inductive step {py : PyLib} : process -> process -> Prop :=
  | step_accept (p : process) (self : NagatoStream) (io : World) :
      step p (mkProcess (policy p) (tasks p ++ [mkTask self io AtLoopHead]))
  | step_check (p : process) (i : nat) (t : task) :
      tasks p !! i = Some t ->
      t_phase t = AtLoopHead ->
      step p (mkProcess (policy p)
                (<[i := mkTask (t_self t) (t_io t)
                          (after_check (policy p !! origin_key (t_self t)))]>
                   (tasks p)))
  | step_respond (p : process) (i : nat) (t : task) (r : outcome unit)
        (io' : World) :
      tasks p !! i = Some t ->
      t_phase t = InResponse ->
      handle_response (t_self t) (set_policy (policy p) (t_io t)) = (r, io') ->
      step p (mkProcess (host_abs_url io')
                (<[i := mkTask (t_self t) io' (after_response r)]> (tasks p)))
  | step_request (p : process) (i : nat) (t : task)
        (req : bytes * ParseResult * bytes) (r : outcome NagatoStream)
        (io' : World) :
      tasks p !! i = Some t ->
      handle_request (t_self t) req (set_policy (policy p) (t_io t)) = (r, io') ->
      step p (mkProcess (host_abs_url io')
                (<[i := mkTask (set_last_url (snd (fst req)) (t_self t)) io'
                          (t_phase t)]> (tasks p)))
  | step_next_request (p : process) (i : nat) (t : task)
        (method url version : bytes) (io1 : World) (r : outcome NagatoStream)
        (io' : World) :
      tasks p !! i = Some t ->
      request_line false (HttpStream_init Client None) (t_io t)
        = (Ret (method, url, version), io1) ->
      handle_request_any (t_self t) (method, Unparsed url, version)
        (set_policy (policy p) io1) = (r, io') ->
      step p (mkProcess (host_abs_url io')
                (<[i := mkTask (assign_last_url (Unparsed url) (t_self t)) io'
                          (t_phase t)]> (tasks p))).

Inductive steps {py : PyLib} : process -> process -> Prop :=
  | steps_refl (p : process) : steps p p
  | steps_step (p1 p2 p3 : process) : step p1 p2 -> steps p2 p3 -> steps p1 p3.

(** Two sessions to [example.com:80], each about to enter the loop of
    [handle_responses]; the upstream answers 200 to the first and 403 to
    the second. *)
Definition two_sessions : process :=
  mkProcess ∅
    [mkTask example_session (world0 [] response_200) AtLoopHead;
     mkTask example_session (world0 [] response_403) AtLoopHead].

(** A session to [example.com:80] whose response task is about to test an
    entry that is already set. *)
Definition settled_session : process :=
  mkProcess {[ B "example.com:80" := true ]}
    [mkTask example_session (world0 [] response_403) AtLoopHead].

(** A client that sends two requests on one connection without waiting
    for the first response.  [handle_streams] has read the first request
    line, [GET http://example.com/ HTTP/1.1], and connected; this is what
    the client sends after that line, and the session as [handle_streams]
    leaves it.  The upstream answers the first request with a 403. *)
Definition pipelined_client : bytes :=
  crlf "Host: example.com

GET http://example.com/b HTTP/1.1
Host: example.com

".

Definition connected_session : NagatoStream :=
  mkNagato (Some (B "example.com")) (Some 80) None.

Definition pipelined_session : process :=
  mkProcess ∅
    [mkTask connected_session (world0 pipelined_client response_403)
       AtLoopHead].



(** A dummy field of [handle_request]: [X-] and 16 letters, a colon and a
    space, 128 letters, CRLF. *)
Definition is_dummy_field (line : bytes) : Prop :=
  exists name value,
    line = B "X-" ++ name ++ B ": " ++ value ++ CRLF
    /\ length name = 16%nat /\ length value = 128%nat
    /\ Forall (fun c => In c letters) name
    /\ Forall (fun c => In c letters) value.


(** A line as [readline] delivers it whole: some bytes without LF, within
    the limit of the reader, and the LF. *)
Definition is_line (line : bytes) : Prop :=
  exists body,
    line = body ++ [LF] /\ (LF ∉ body) /\ Z.of_nat (length body) <= limit.

(** One chunk on the wire: the line with its size, the data, and the line
    that follows the data. *)
Record chunk := mkChunk {
  size_line : bytes;
  chunk_data : bytes;
  end_line : bytes;
}.

Definition wire (c : chunk) : bytes :=
  size_line c ++ chunk_data c ++ end_line c.

(** The size line of a well-formed chunk reads, as [int(line, 16)], the
    length of its data. *)
Definition well_formed_chunk {py : PyLib} (c : chunk) : Prop :=
  is_line (size_line c)
  /\ py_int16 (rstrip CRLF (size_line c)) = Some (Z.of_nat (length (chunk_data c)))
  /\ is_line (end_line c).

(** The chunks of the body of [response_chunked]. *)
Definition hello_chunks : list chunk :=
  [mkChunk (B "5" ++ CRLF) (B "Hello") CRLF;
   mkChunk (B "6" ++ CRLF) (B " World") CRLF].

Definition last_chunk : chunk := mkChunk (B "0" ++ CRLF) [] CRLF.

(** The parser of the response task after the header of a chunked
    response, and after the header of a response with [Content-Length: 5]. *)
Definition chunked_http : HttpStream :=
  mkHttp Server (Some Client) true 0 true None false.

Definition counted_http : HttpStream :=
  mkHttp Server (Some Client) true 5 false None false.

(** First bytes of a tunnel after which [handle_tunnel] reads no second
    time: anything that does not start with [16 03 01], or a record header
    whose length is at most 85. *)
Definition no_split (buf : bytes) : Prop :=
  startswith buf TLS_HELLO = false
  \/ exists hi lo,
       buf = TLS_HELLO ++ [hi; lo]
       /\ 256 * Z.of_nat (nat_of_ascii hi) + Z.of_nat (nat_of_ascii lo) <= 85.

(** [sep.join(parts)] for a one-character separator. *)
Fixpoint join (sep : ascii) (parts : list bytes) : bytes :=
  match parts with
  | [] => []
  | [a] => a
  | a :: rest => a ++ sep :: join sep rest
  end.

(** What [handle_response] does after it has written the status line:
    the two loops of lines 349-359. *)
Definition relay_rest {py : PyLib} : M unit :=
  let* http :=
    (fun w => relay_fields (S (S (length (server_in w))))
                (HttpStream_init Server (Some Client)) w) in
  (fun w => relay_body (S (S (length (server_in w)))) http w) ;;
  ret tt.

(** * Properties *)

(** ** The monad *)

Lemma bind_ret_inv {A C} (m : M A) (k : A -> M C) (w w' : World) (c : C) :
  bind m k w = (Ret c, w') ->
  exists a w1, m w = (Ret a, w1) /\ k a w1 = (Ret c, w').
Proof.
  unfold bind. destruct (m w) as [[a| |] w1]; try discriminate. eauto.
Qed.

(** ** The line reader *)

Lemma set_input_same (p : peer) (w : World) : set_input p (input p w) w = w.
Proof. destruct w, p; reflexivity. Qed.

Lemma input_set_input (p : peer) (s : bytes) (w : World) :
  input p (set_input p s w) = s.
Proof. destruct p; reflexivity. Qed.

Lemma find_lf_absent (s : bytes) : LF ∉ s -> find_lf s = None.
Proof.
  induction s as [|c s IH]; intros Hs; [reflexivity|].
  simpl. destruct (Ascii.eqb_spec c LF) as [->|Hc].
  - exfalso. apply Hs. left.
  - rewrite IH; [reflexivity|]. intros Hin. apply Hs. now right.
Qed.

Lemma find_lf_first (line rest : bytes) :
  LF ∉ line -> find_lf (line ++ LF :: rest) = Some (length line).
Proof.
  induction line as [|c line IH]; intros Hs; simpl.
  - reflexivity.
  - destruct (Ascii.eqb_spec c LF) as [->|Hc].
    + exfalso. apply Hs. left.
    + rewrite IH; [reflexivity|]. intros Hin. apply Hs. now right.
Qed.

Lemma find_lf_bound (s : bytes) (i : nat) :
  find_lf s = Some i -> (i < length s)%nat.
Proof.
  revert i. induction s as [|c s IH]; intros i; simpl; [discriminate|].
  destruct (Ascii.eqb c LF).
  - intros [= <-]. lia.
  - destruct (find_lf s) as [j|]; [|discriminate].
    intros [= <-]. specialize (IH j eq_refl). lia.
Qed.

(** [nextline] returns a line that is not empty and is a prefix of the input,
    or raises; it never runs out of fuel. *)
Lemma nextline_cases (h : HttpStream) (w : World) :
  match nextline h w with
  | (Ret line, w') =>
      line <> [] /\ input (reader h) w = line ++ input (reader h) w'
      /\ w' = set_input (reader h) (input (reader h) w') w
  | (Raise e, w') => w' = set_input (reader h) (input (reader h) w') w
  | (OutOfFuel, _) => False
  end.
Proof.
  unfold nextline, bind, readline.
  destruct (find_lf (input (reader h) w)) as [i|] eqn:Hf.
  - destruct (limit <? Z.of_nat i).
    + now rewrite input_set_input.
    + pose proof (find_lf_bound _ _ Hf) as Hi.
      destruct (take (S i) (input (reader h) w)) as [|c l] eqn:Ht.
      * apply (f_equal length) in Ht. rewrite length_take in Ht.
        change (length (@nil ascii)) with 0%nat in Ht. lia.
      * unfold ret. rewrite input_set_input.
        repeat split; [discriminate | now rewrite <- Ht, take_drop].
  - destruct (limit <? Z.of_nat (length (input (reader h) w))).
    + now rewrite input_set_input.
    + destruct (input (reader h) w) as [|c l] eqn:Hb.
      * unfold raise. now rewrite input_set_input.
      * unfold ret. rewrite input_set_input, app_nil_r. now repeat split.
Qed.

(** C4, as the code has it: at end of file with nothing left [nextline]
    raises [EOFError]; a line within the reader's limit is returned up to
    and including its first LF, whether or not a CR precedes it; and what
    is left at end of file without any LF is returned as a line, not
    reported as an error. *)
Theorem nextline_returns_line_or_remainder (h : HttpStream) (w : World) :
  (input (reader h) w = [] -> nextline h w = (Raise EOFError, w))
  /\ (forall line rest,
        input (reader h) w = line ++ LF :: rest -> LF ∉ line ->
        Z.of_nat (length line) <= limit ->
        nextline h w = (Ret (line ++ [LF]), set_input (reader h) rest w))
  /\ (input (reader h) w <> [] -> LF ∉ input (reader h) w ->
      Z.of_nat (length (input (reader h) w)) <= limit ->
      nextline h w = (Ret (input (reader h) w), set_input (reader h) [] w)).
Proof.
  unfold nextline, bind, readline. repeat split.
  - intros He. rewrite He. simpl. unfold raise. f_equal.
    rewrite <- He. apply set_input_same.
  - intros line rest He Hl Hlim. rewrite He, (find_lf_first _ _ Hl).
    destruct (Z.ltb_spec limit (Z.of_nat (length line))) as [?|_]; [lia|].
    replace (S (length line)) with (length (line ++ [LF]))
      by (rewrite length_app; simpl; lia).
    replace (line ++ LF :: rest) with ((line ++ [LF]) ++ rest)
      by (now rewrite <- app_assoc).
    rewrite take_app_length, drop_app_length.
    destruct (line ++ [LF]) eqn:E; [now destruct line|reflexivity].
  - intros Hne Hl Hlim. rewrite (find_lf_absent _ Hl).
    destruct (Z.ltb_spec limit (Z.of_nat (length (input (reader h) w))))
      as [?|_]; [lia|].
    destruct (input (reader h) w); [contradiction|reflexivity].
Qed.

(** The three cases at work: an empty stream, a CRLF line, and a fragment
    without terminator. *)
Lemma nextline_returns_line_or_remainder_witness :
  nextline (HttpStream_init Server None) (world0 [] [])
    = (Raise EOFError, world0 [] [])
  /\ nextline (HttpStream_init Server None) (world0 [] (B "ab" ++ CRLF ++ B "cd"))
    = (Ret (B "ab" ++ CRLF), world0 [] (B "cd"))
  /\ nextline (HttpStream_init Server None) (world0 [] (B "cd"))
    = (Ret (B "cd"), world0 [] []).
Proof.
  pose (h := HttpStream_init Server None).
  split; [|split].
  - apply (proj1 (nextline_returns_line_or_remainder h (world0 [] []))).
    reflexivity.
  - apply (proj1 (proj2 (nextline_returns_line_or_remainder h
             (world0 [] (B "ab" ++ CRLF ++ B "cd")))) (B "ab" ++ [CR]) (B "cd")).
    + reflexivity.
    + vm_compute. intros H. repeat (inversion H as [|? ? ? H']; clear H; rename H' into H). 
    + vm_compute. discriminate.
  - apply (proj2 (proj2 (nextline_returns_line_or_remainder h (world0 [] (B "cd"))))).
    + discriminate.
    + vm_compute. intros H. repeat (inversion H as [|? ? ? H']; clear H; rename H' into H).
    + vm_compute. discriminate.
Defined.

(** C4 as stated fails: the stream ["abc"] ends before any terminator, and
    [nextline] returns ["abc"] as a line instead of raising [EOFError]. *)
Lemma nextline_returns_unterminated_fragment :
  let r := nextline (HttpStream_init Server None) (world0 [] (B "abc")) in
  fst r = Ret (B "abc")
  /\ fst r <> Raise EOFError
  /\ ~ (exists pre, B "abc" = pre ++ CRLF).
Proof.
  split; [reflexivity|]. split; [discriminate|].
  intros [pre H]. 
  destruct pre as [|a [|b [|c [|d pre]]]]; discriminate.
Qed.

(** ** random_split *)

Lemma randrange_in_range (k : Z) (w : World) :
  0 < k ->
  exists r, randrange k w = (Ret r, set_rng (tail (rng w)) w) /\ 0 <= r < k.
Proof.
  intros Hk. unfold randrange.
  destruct (Z.leb_spec k 0) as [?|_]; [lia|].
  eexists. split; [reflexivity|]. apply Z.mod_pos_bound. lia.
Qed.

Lemma set_rng_set_rng (r r' : list nat) (w : World) :
  set_rng r (set_rng r' w) = set_rng r w.
Proof. reflexivity. Qed.

Lemma random_split_loop_covers (fuel : nat) :
  forall (s : bytes) (step : Z) (w : World),
    2 <= step -> (length s <= fuel)%nat ->
    exists segs w',
      random_split_loop fuel s step w = (Ret segs, w')
      /\ concat segs = s
      /\ Forall (fun seg => 1 <= Z.of_nat (length seg) <= step - 1) segs
      /\ w' = set_rng (rng w') w.
Proof.
  induction fuel as [|fuel IH]; intros s step w Hstep Hlen.
  - destruct s; [|simpl in Hlen; lia].
    exists [], w. repeat split; [constructor | now destruct w].
  - destruct s as [|c s].
    + exists [], w. repeat split; [constructor | now destruct w].
    + cbn [random_split_loop]. unfold bind at 1.
      destruct (randrange_in_range (step - 1) w) as (r & -> & Hr); [lia|].
      set (k := Z.to_nat (r + 1)).
      assert (Hk : (1 <= k)%nat) by (unfold k; lia).
      destruct (IH (drop k (c :: s)) step (set_rng (tail (rng w)) w) Hstep)
        as (segs & w' & Hrun & Hcat & Hall & Hw').
      { rewrite length_drop. simpl in *. lia. }
      unfold bind. fold k. rewrite Hrun. unfold ret.
      exists (take k (c :: s) :: segs), w'. repeat split.
      * simpl concat. rewrite Hcat. apply take_drop.
      * constructor; [|exact Hall]. rewrite length_take.
        change (length (c :: s)) with (S (length s)). unfold k. lia.
      * rewrite Hw' at 1. apply set_rng_set_rng.
Qed.

(** C6.  For a non-empty [s] and [step >= 2], whatever the random draws,
    [random_split] yields non-empty consecutive slices of [s], each of
    length between 1 and [step - 1], whose concatenation is [s]; nothing
    but the random tape changes. *)
Theorem random_split_covers_input (s : bytes) (step : Z) (w : World) :
  s <> [] -> 2 <= step ->
  exists segs w',
    random_split s step w = (Ret segs, w')
    /\ segs <> []
    /\ concat segs = s
    /\ Forall (fun seg => 1 <= Z.of_nat (length seg) <= step - 1) segs
    /\ w' = set_rng (rng w') w.
Proof.
  intros Hs Hstep.
  destruct (random_split_loop_covers (length s) s step w Hstep (le_n _))
    as (segs & w' & Hrun & Hcat & Hall & Hw').
  exists segs, w'. repeat split; try assumption.
  intros ->. now apply Hs.
Qed.

Lemma random_split_covers_input_witness :
  exists segs w',
    random_split (B "St:example.com") 6
      (mkWorld [] [] [] [4; 0; 7; 2]%nat true [] ∅) = (Ret segs, w')
    /\ segs <> []
    /\ concat segs = B "St:example.com"
    /\ Forall (fun seg => 1 <= Z.of_nat (length seg) <= 6 - 1) segs
    /\ w' = set_rng (rng w') (mkWorld [] [] [] [4; 0; 7; 2]%nat true [] ∅).
Proof.
  apply random_split_covers_input; [discriminate | lia].
Defined.

(** The draws [4; 0; 7; 2] cut ["St:example.com"] into pieces of 5, 1, 3, 3
    and, the tape being spent, pieces of 1. *)
Example random_split_example :
  fst (random_split (B "St:example.com") 6
         (mkWorld [] [] [] [4; 0; 7; 2]%nat true [] ∅))
  = Ret [B "St:ex"; B "a"; B "mpl"; B "e.c"; B "o"; B "m"].
Proof. reflexivity. Qed.

(** ** tunnel_chunk *)

Lemma input_log (p : peer) (e : event) (w : World) : input p (log e w) = input p w.
Proof. now destruct p. Qed.

Lemma input_set_arrivals (p : peer) (a : list nat) (w : World) :
  input p (set_arrivals a w) = input p w.
Proof. now destruct p. Qed.

Lemma trace_set_input (p : peer) (s : bytes) (w : World) :
  trace (set_input p s w) = trace w.
Proof. now destruct p. Qed.

Lemma policy_set_input (p : peer) (s : bytes) (w : World) :
  host_abs_url (set_input p s w) = host_abs_url w.
Proof. now destruct p. Qed.

(** What [read] returns: a prefix of the input, of at most [n] bytes, and of
    at least one byte unless the input is at end of file. *)
Lemma read_cases (p : peer) (n : Z) (w : World) :
  0 < n ->
  exists k,
    read p n w = (Ret (take k (input p w)),
                  set_input p (drop k (input p w))
                    (set_arrivals (tail (arrivals w)) w))
    /\ (k <= length (input p w))%nat
    /\ Z.of_nat k <= n
    /\ (input p w <> [] -> (1 <= k)%nat).
Proof.
  intros Hn. unfold read. eexists. split; [reflexivity|].
  assert (Hlen : input p w <> [] -> (1 <= length (input p w))%nat).
  { destruct (input p w); [contradiction | simpl; lia]. }
  destruct (arrivals w); repeat split; try lia.
  all: intros H; specialize (Hlen H); lia.
Qed.

Section TunnelChunk.
Variables (h : HttpStream) (q : peer).
Hypothesis Hwriter : writer h = Some q.

Lemma tunnel_chunk_loop_copies (fuel : nat) :
  forall (n : Z) (w : World),
    (length (input (reader h) w) < fuel)%nat ->
    exists r writes w',
      tunnel_chunk_loop fuel h n w = (r, w')
      /\ trace w' = trace w ++ map (Write q) writes
      /\ Forall (fun d => Z.of_nat (length d) <= 65536) writes
      /\ host_abs_url w' = host_abs_url w
      /\ (if (Z.to_nat n <=? length (input (reader h) w))%nat
          then r = Ret tt
               /\ concat writes = take (Z.to_nat n) (input (reader h) w)
               /\ input (reader h) w' = drop (Z.to_nat n) (input (reader h) w)
          else r = Raise EOFError
               /\ concat writes = input (reader h) w
               /\ input (reader h) w' = []).
Proof.
  induction fuel as [|fuel IH]; intros n w Hfuel; [lia|].
  cbn [tunnel_chunk_loop].
  destruct (Z.gtb_spec n 0) as [Hn|Hn].
  2:{ exists (Ret tt), [], w. replace (Z.to_nat n) with 0%nat by lia.
      simpl. rewrite app_nil_r. repeat split; auto. }
  set (rlen := if n >? 65536 then 65536 else n).
  assert (Hrlen : 0 < rlen /\ rlen <= n /\ rlen <= 65536).
  { unfold rlen. destruct (Z.gtb_spec n 65536); lia. }
  destruct (read_cases (reader h) rlen w) as (k & Hread & Hk1 & Hk2 & Hk3); [lia|].
  unfold bind at 1. rewrite Hread.
  remember (input (reader h) w) as buf eqn:Hbuf.
  set (w1 := set_input (reader h) (drop k buf) (set_arrivals (tail (arrivals w)) w)).
  unfold hwrite. rewrite Hwriter. unfold bind, write, emit.
  destruct (decide (buf = [])) as [He|Hne].
  - (* end of file: an empty write, then EOFError *)
    subst buf. rewrite He in *. simpl in Hk1. assert (k = 0)%nat as -> by lia.
    cbn [take length]. change (Z.of_nat 0) with 0.
    rewrite bool_decide_eq_true_2 by reflexivity.
    destruct (Z.gtb_spec (n - 0) 0) as [_|?]; [|lia].
    cbn [andb]. unfold raise.
    exists (Raise EOFError), [[]], (log (Write q []) w1).
    destruct (Nat.leb_spec (Z.to_nat n) 0) as [Hle|_]; [lia|].
    repeat split.
    + unfold w1. cbn [log trace]. now rewrite trace_set_input.
    + repeat constructor. simpl. lia.
    + unfold w1. cbn [log host_abs_url]. now rewrite policy_set_input.
    + unfold w1. now rewrite input_log, input_set_input.
  - specialize (Hk3 Hne).
    assert (Htk : length (take k buf) = k) by (rewrite length_take; lia).
    rewrite bool_decide_eq_false_2.
    2:{ intros Hnil. rewrite Hnil in Htk. simpl in Htk. lia. }
    cbn [andb]. rewrite Htk.
    destruct (IH (n - Z.of_nat k) (log (Write q (take k buf)) w1))
      as (r & writes & w' & Hrun & Htr & Hall & Hpol & Hres).
    { unfold w1. rewrite input_log, input_set_input, length_drop. lia. }
    exists r, (take k buf :: writes), w'. rewrite Hrun.
    repeat split.
    + rewrite Htr. unfold w1. cbn [log trace map]. rewrite trace_set_input.
      cbn [set_arrivals trace]. now rewrite <- app_assoc.
    + constructor; [lia | exact Hall].
    + rewrite Hpol. unfold w1. cbn [log host_abs_url].
      now rewrite policy_set_input.
    + unfold w1 in Hres. rewrite input_log, input_set_input, length_drop in Hres.
      replace (Z.to_nat (n - Z.of_nat k)) with (Z.to_nat n - k)%nat in Hres by lia.
      destruct (Nat.leb_spec (Z.to_nat n) (length buf)) as [Hle|Hgt].
      * destruct (Nat.leb_spec (Z.to_nat n - k) (length buf - k)) as [_|?]; [|lia].
        destruct Hres as (-> & Hcat & Hin). repeat split.
        -- cbn [concat]. rewrite Hcat, take_take_drop. f_equal. lia.
        -- rewrite Hin, drop_drop. f_equal. lia.
      * destruct (Nat.leb_spec (Z.to_nat n - k) (length buf - k)) as [?|_]; [lia|].
        destruct Hres as (-> & Hcat & Hin). repeat split.
        -- cbn [concat]. rewrite Hcat. apply take_drop.
        -- exact Hin.
Qed.

(** C3, as the code has it.  [tunnel_chunk] copies [n] bytes, where [n] is
    [chunk_len] when [chunked] is set and [body_len] otherwise (not the
    smaller of the two): whatever the sizes in which the bytes arrive, the
    writes are slices of at most 65536 bytes; if the reader holds at least
    [n] bytes their concatenation is its first [n] bytes and exactly these
    are consumed; if it ends earlier, everything it held is copied and
    [EOFError] is raised. *)
Theorem tunnel_chunk_copies_declared_length (n : Z) (w : World) :
  (if chunked h then chunk_len h = Some n else body_len h = n) ->
  exists r writes w',
    tunnel_chunk h w = (r, w')
    /\ trace w' = trace w ++ map (Write q) writes
    /\ Forall (fun d => Z.of_nat (length d) <= 65536) writes
    /\ (if (Z.to_nat n <=? length (input (reader h) w))%nat
        then r = Ret tt
             /\ concat writes = take (Z.to_nat n) (input (reader h) w)
             /\ input (reader h) w' = drop (Z.to_nat n) (input (reader h) w)
        else r = Raise EOFError
             /\ concat writes = input (reader h) w
             /\ input (reader h) w' = []).
Proof.
  intros Hn. unfold tunnel_chunk, bind.
  assert (Hsel : (if negb (chunked h) then ret (body_len h)
                  else lift TypeError (chunk_len h)) w = (Ret n, w)).
  { destruct (chunked h); simpl; [now rewrite Hn | now rewrite Hn]. }
  rewrite Hsel.
  destruct (tunnel_chunk_loop_copies (S (length (input (reader h) w))) n w)
    as (r & writes & w' & Hrun & Htr & Hall & _ & Hres); [lia|].
  exists r, writes, w'. auto.
Qed.

End TunnelChunk.

(** A body of 12 bytes declared by Content-Length and delivered in pieces of
    5 bytes. *)
Lemma tunnel_chunk_copies_declared_length_witness :
  let h := mkHttp Server (Some Client) true 12 false None false in
  let w := mkWorld [] (B "Hello, world" ++ B "HTTP/1.1") [4; 4; 4]%nat [] true [] ∅ in
  exists r writes w',
    tunnel_chunk h w = (r, w')
    /\ trace w' = trace w ++ map (Write Client) writes
    /\ Forall (fun d => Z.of_nat (length d) <= 65536) writes
    /\ (if (Z.to_nat 12 <=? length (input (reader h) w))%nat
        then r = Ret tt
             /\ concat writes = take (Z.to_nat 12) (input (reader h) w)
             /\ input (reader h) w' = drop (Z.to_nat 12) (input (reader h) w)
        else r = Raise EOFError
             /\ concat writes = input (reader h) w
             /\ input (reader h) w' = []).
Proof.
  intros h w.
  apply (tunnel_chunk_copies_declared_length h Client eq_refl 12 w).
  reflexivity.
Defined.

Example tunnel_chunk_in_pieces :
  let h := mkHttp Server (Some Client) true 12 false None false in
  let w := mkWorld [] (B "Hello, world" ++ B "HTTP/1.1") [4; 4; 4]%nat [] true [] ∅ in
  tunnel_chunk h w
  = (Ret tt,
     mkWorld [] (B "HTTP/1.1") [] [] true
       [Write Client (B "Hello"); Write Client (B ", wor"); Write Client (B "ld")] ∅).
Proof. reflexivity. Qed.

(** C3 as stated fails.  In a chunked response without Content-Length the
    parser reaches [chunked] with [chunk_len = 5] and [body_len = 0]; the
    smaller of the two is 0, and [tunnel_chunk] copies the 5 bytes of the
    chunk. *)
Lemma tunnel_chunk_is_not_the_minimum :
  let h0 := HttpStream_init Server (Some Client) in
  let w0 := world0 [] (crlf "Transfer-Encoding: chunked

5
Hello
0

") in
  exists h w,
    (let* (_, h1) := @next_header_field simple_py true h0 in
     let* (_, h2) := @next_header_field simple_py true h1 in
     let* (_, h3) := @next_chunk_ready simple_py true h2 in
     ret h3) w0 = (Ret h, w)
    /\ chunked h = true /\ chunk_len h = Some 5 /\ body_len h = 0
    /\ Z.min 5 (body_len h) = 0
    /\ exists w',
        tunnel_chunk h w = (Ret tt, w')
        /\ trace w' = trace w ++ [Write Client (B "Hello")]
        /\ server_in w = B "Hello" ++ server_in w'.
Proof.
  intros h0 w0. eexists. eexists. split; [vm_compute; reflexivity|].
  repeat split. eexists. split; [vm_compute; reflexivity|].
  split; reflexivity.
Qed.

(** ** Splitting and stripping *)

Lemma split_all_join (sep : ascii) (s : bytes) :
  exists a rest,
    split_all sep s = a :: rest
    /\ s = join sep (a :: rest)
    /\ Forall (fun part => ~ In sep part) (a :: rest).
Proof.
  induction s as [|c s (a & rest & Hs & Hj & Hall)]; cbn [split_all].
  - exists [], []. repeat split. constructor; [intros []|constructor].
  - destruct (Ascii.eqb_spec c sep) as [->|Hc].
    + exists [], (a :: rest). rewrite Hs. split; [reflexivity|].
      split; [change (sep :: s = sep :: join sep (a :: rest)); now f_equal|].
      constructor; [intros []|exact Hall].
    + rewrite Hs. exists (c :: a), rest. split; [reflexivity|].
      apply Forall_cons_1 in Hall. destruct Hall as [Ha Hrest].
      split.
      * rewrite Hj. now destruct rest.
      * constructor; [|exact Hrest]. intros [H|H]; [now apply Hc|now apply Ha].
Qed.

Lemma split_max_first (sep : ascii) (m : nat) (a rest : bytes) :
  ~ In sep a ->
  split_max sep (S m) (a ++ sep :: rest) = a :: split_max sep m rest.
Proof.
  induction a as [|c a IH]; intros Hno.
  - cbn. now rewrite Ascii.eqb_refl.
  - cbn [app]. change (split_max sep (S m) (c :: a ++ sep :: rest))
      with (if Ascii.eqb c sep then [] :: split_max sep m (a ++ sep :: rest)
            else match split_max sep (S m) (a ++ sep :: rest) with
                 | cur :: r => (c :: cur) :: r
                 | [] => [[c]]
                 end).
    destruct (Ascii.eqb_spec c sep) as [->|_]; [exfalso; apply Hno; now left|].
    rewrite IH; [reflexivity|]. intros H. apply Hno. now right.
Qed.

Lemma lstrip_prefix (chars s : bytes) :
  exists t, s = t ++ lstrip chars s
            /\ Forall (fun c => ascii_eqb_in c chars = true) t.
Proof.
  induction s as [|c s (t & Hs & Ht)]; cbn [lstrip].
  - exists []. split; [reflexivity|constructor].
  - destruct (ascii_eqb_in c chars) eqn:Hc.
    + exists (c :: t). split; [cbn; now rewrite <- Hs|now constructor].
    + exists []. split; [reflexivity|constructor].
Qed.

Lemma rstrip_suffix (chars s : bytes) :
  exists t, s = rstrip chars s ++ t
            /\ Forall (fun c => ascii_eqb_in c chars = true) t.
Proof.
  unfold rstrip. destruct (lstrip_prefix chars (rev s)) as (t & Hs & Ht).
  exists (rev t). split.
  - rewrite <- rev_app_distr, <- Hs. now rewrite rev_involutive.
  - apply Forall_forall. intros c Hc. rewrite Forall_forall in Ht.
    apply Ht. apply list_elem_of_In. apply list_elem_of_In in Hc.
    now apply in_rev.
Qed.

Lemma rstrip_crlf_app (s : bytes) : rstrip CRLF (s ++ CRLF) = rstrip CRLF s.
Proof. unfold rstrip. now rewrite rev_app_distr. Qed.

Lemma rstrip_no_sep (sep : ascii) (chars s : bytes) :
  ~ In sep s -> ~ In sep (rstrip chars s).
Proof.
  intros Hno Hin. apply Hno.
  destruct (rstrip_suffix chars s) as (t & Hs & _). rewrite Hs.
  apply in_or_app. now left.
Qed.









Lemma nextline_takes_line (h : HttpStream) (w : World) (line rest : bytes) :
  input (reader h) w = line ++ rest -> is_line line ->
  nextline h w = (Ret line, set_input (reader h) rest w).
Proof.
  intros Hin (body & -> & Hno & Hlim).
  unfold nextline, bind, readline. rewrite Hin, <- app_assoc. cbn [app].
  rewrite (find_lf_first _ _ Hno).
  destruct (Z.ltb_spec limit (Z.of_nat (length body))) as [?|_]; [lia|].
  replace (S (length body)) with (length (body ++ [LF]))
    by (rewrite length_app; simpl; lia).
  replace (body ++ LF :: rest) with ((body ++ [LF]) ++ rest)
    by (now rewrite <- app_assoc).
  rewrite take_app_length, drop_app_length.
  destruct (body ++ [LF]) eqn:E; [now destruct body|reflexivity].
Qed.

(** ** The flags of the parser *)

Section Flags.
Context {py : PyLib}.







End Flags.



(** ** The response task: classification of the status *)

Section Response.
Context {py : PyLib}.

(** Without tee, [status_line] only takes a line from the reader. *)
Lemma status_line_reads_only (h : HttpStream) (w : World) :
  match status_line false h w with
  | (Ret _, w') =>
      exists line, line <> [] /\ input (reader h) w = line ++ input (reader h) w'
                   /\ w' = set_input (reader h) (input (reader h) w') w
  | (Raise _, w') => w' = set_input (reader h) (input (reader h) w') w
  | (OutOfFuel, _) => False
  end.
Proof.
  unfold status_line, bind. pose proof (nextline_cases h w) as Hn.
  destruct (nextline h w) as [[line| |] w1]; [|exact Hn|exact Hn].
  destruct Hn as (Hne & Hin & Hw). cbn [tee]. unfold ret at 1.
  unfold decode, lift, ret, raise.
  repeat case_match; simplify_eq; eauto.
Qed.

(** [request_head] records the URL it was given, before any rewriting. *)
Lemma request_head_records_url (self : NagatoStream) (method version : bytes)
    (url : ParseResult) (w w' : World) self' is_absolute collected :
  request_head self (method, url, version) w
    = (Ret (self', is_absolute, collected), w') ->
  self' = set_last_url url self.
Proof.
  unfold request_head. intros H.
  repeat (apply bind_ret_inv in H; destruct H as (? & ? & _ & H)).
  unfold ret in H. now inversion H.
Qed.

(** While [last_url] holds the parsed URL of the first request,
    [handle_response] classifies the status as the specification has it.
    Let [status_line] return
    [status].  If it is 2xx or 304 the entry of the origin becomes [True]
    (upgrade) and the response is forwarded.  If it is 4xx or 5xx other
    than 503 the entry becomes [False] (passthrough), nothing more is read
    from the upstream, the client gets the 307 whose Location is
    [last_url] and is closed, [EOFError] is raised, and [handle_responses]
    ends after closing both writers.  For any other status the map is left
    alone and the response is forwarded.  [last_url] is the URL of the
    request as [handle_request] received it. *)
Lemma handle_response_classifies (self : NagatoStream) (w w1 : World)
    (version reason : bytes) (status : Z) :
  let http := HttpStream_init Server (Some Client) in
  let key := origin_key self in
  status_line false http w = (Ret (version, status, reason), w1) ->
  (trace w1 = trace w /\ host_abs_url w1 = host_abs_url w)
  /\ (200 <= status < 300 \/ status = 304 ->
      handle_response self w
      = forward_response http version status reason
          (set_policy (<[key := true]> (host_abs_url w)) w1))
  /\ (400 <= status < 600 /\ status <> 503 ->
      forall url, last_url self = Some (Parsed url) ->
      let w2 :=
        log (Close Client)
          (log (Write Client (PROXY_RESP_307 version (geturl url)))
             (set_policy (<[key := false]> (host_abs_url w)) w1)) in
      handle_response self w = (Raise EOFError, w2)
      /\ server_in w2 = server_in w1
      /\ (host_abs_url w !! key = None ->
          handle_responses self w
          = (Ret tt, log (Close Server) (log (Close Client) w2))))
  /\ (~ (200 <= status < 300 \/ status = 304) ->
      ~ (400 <= status < 600 /\ status <> 503) ->
      handle_response self w = forward_response http version status reason w1)
  /\ (forall self0 method url ver wa wb is_absolute collected,
      request_head self0 (method, url, ver) wa
        = (Ret (self, is_absolute, collected), wb) ->
      last_url self = Some (Parsed url)).
Proof.
  intros http key Hst.
  assert (Hframe : trace w1 = trace w /\ host_abs_url w1 = host_abs_url w).
  { pose proof (status_line_reads_only http w) as H. rewrite Hst in H.
    destruct H as (line & _ & _ & ->).
    now rewrite trace_set_input, policy_set_input. }
  destruct Hframe as [Htr Hpol].
  split; [auto|]. split; [|split; [|split]].
  - intros Hs. unfold handle_response, bind. fold http. rewrite Hst.
    assert (is_success status = true) as -> by (unfold is_success; lia).
    unfold put_policy. fold key. now rewrite Hpol.
  - intros Hf url Hurl w2.
    assert (Hrun : handle_response self w = (Raise EOFError, w2)).
    { unfold handle_response, bind. fold http. rewrite Hst.
      assert (is_success status = false) as -> by (unfold is_success; lia).
      assert (is_failure status = true) as -> by (unfold is_failure; lia).
      unfold put_policy, bind. rewrite Hurl. cbn [parsed_url lift].
      unfold ret, raise.
      fold key. unfold write, close, emit, w2. now rewrite Hpol. }
    split; [exact Hrun|]. split; [reflexivity|].
    intros Hnone. unfold handle_responses, bind, try_except.
    cbn [responses_loop]. unfold bind, get_policy. fold key.
    rewrite Hnone, Hrun. reflexivity.
  - intros Hs Hf. unfold handle_response, bind. fold http. rewrite Hst.
    assert (is_success status = false) as -> by (unfold is_success; lia).
    assert (is_failure status = false) as -> by (unfold is_failure; lia).
    reflexivity.
  - intros self0 method url ver wa wb is_absolute collected H.
    now rewrite (request_head_records_url _ _ _ _ _ _ _ _ _ H).
Qed.

(** With [last_url] holding anything else, [None] or the string of a
    later request line, a failure status still sets the entry to [False],
    but then [self.last_url.geturl()] raises [AttributeError]: no 307 is
    written, the client is not closed, no [EOFError] is raised, and
    [handle_responses], which catches [EOFError] only, lets the exception
    through without closing anything. *)
Lemma failure_status_without_parsed_url (self : NagatoStream) (w w1 : World)
    (version reason : bytes) (status : Z) :
  let http := HttpStream_init Server (Some Client) in
  let key := origin_key self in
  status_line false http w = (Ret (version, status, reason), w1) ->
  400 <= status < 600 /\ status <> 503 ->
  parsed_url (last_url self) = None ->
  let w2 := set_policy (<[key := false]> (host_abs_url w)) w1 in
  handle_response self w = (Raise AttributeError, w2)
  /\ trace w2 = trace w
  /\ (host_abs_url w !! key = None ->
      handle_responses self w = (Raise AttributeError, w2)).
Proof.
  intros http key Hst Hf Hurl w2.
  assert (Hframe : trace w1 = trace w /\ host_abs_url w1 = host_abs_url w).
  { pose proof (status_line_reads_only http w) as H. rewrite Hst in H.
    destruct H as (line & _ & _ & ->).
    now rewrite trace_set_input, policy_set_input. }
  destruct Hframe as [Htr Hpol].
  assert (Hrun : handle_response self w = (Raise AttributeError, w2)).
  { unfold handle_response, bind. fold http. rewrite Hst.
    assert (is_success status = false) as -> by (unfold is_success; lia).
    assert (is_failure status = true) as -> by (unfold is_failure; lia).
    unfold put_policy, bind. rewrite Hurl. cbn [lift]. unfold raise.
    fold key. unfold w2. now rewrite Hpol. }
  split; [exact Hrun|]. split; [exact Htr|].
  intros Hnone. unfold handle_responses, bind, try_except.
  cbn [responses_loop]. unfold bind, get_policy. fold key.
  rewrite Hnone, Hrun. reflexivity.
Qed.

End Response.

(** Scenario S2: a 403 from [example.com:80] is replaced by the redirect to
    [http://example.com/], the entry becomes [False], and the rest of the
    upstream response stays unread. *)
Lemma handle_response_classifies_witness :
  @handle_response simple_py example_session (world0 [] response_403)
  = (Raise EOFError,
     mkWorld [] (crlf "Content-Length: 0

") [] [] true
       [Write Client (crlf "HTTP/1.1 307 Temporary Redirect
Location: http://example.com/
Proxy-Agent: Nagato/0.6.0
Connection: close

");
        Close Client]
       {[ B "example.com:80" := false ]}).
Proof.
  pose proof (@handle_response_classifies simple_py example_session
                (world0 [] response_403)
                (world0 [] (crlf "Content-Length: 0

"))
                (B "HTTP/1.1") (B "Forbidden") 403 eq_refl) as H.
  destruct H as (_ & _ & H & _).
  assert (Hrange : 400 <= 403 < 600 /\ 403 <> 503) by lia.
  destruct (H Hrange example_url eq_refl) as [Hrun _].
  exact Hrun.
Defined.

(** C1 fails on a connection with a second request.  The client of
    [pipelined_session] sends two requests before the upstream answers.
    The request task relays the first; for the second, the loop of
    [handle_requests] hands [handle_request] the URL as the string it read
    (line 367, against the [ParseResult] that the docstrings of both
    methods declare), which stores it in [self.last_url] (line 255) and
    fails on [_replace].  When the 403 of the first request arrives, the
    response task sets the entry of the origin to [False] and fails on
    [self.last_url.geturl()]: [AttributeError] leaves [handle_responses],
    which has written no 307 and closed nothing.  Nothing was ever written
    to the client, and the client is not closed. *)
Theorem failure_status_after_second_request_line :
  exists (p1 p2 : process) (self' : NagatoStream) (w3 io' : World),
    @handle_requests simple_py connected_session example_request
       (world0 pipelined_client response_403) = (Raise AttributeError, w3)
    /\ @steps simple_py pipelined_session p1
    /\ tasks p1 = [mkTask self' w3 AtLoopHead]
    /\ policy p1 !! B "example.com:80" = None
    /\ last_url self' = Some (Unparsed (B "http://example.com/b"))
    /\ server_in w3 = response_403
    /\ @handle_responses simple_py self' w3 = (Raise AttributeError, io')
    /\ @steps simple_py p1 p2
    /\ tasks p2 = [mkTask self' io' Ended]
    /\ policy p2 !! B "example.com:80" = Some false
    /\ trace io' = trace w3
    /\ writes_to Client (trace io') = []
    /\ ~ In (Close Client) (trace io').
Proof.
  pose proof (@step_request simple_py pipelined_session 0 _ example_request
                _ _ eq_refl (surjective_pairing _)) as H1.
  match type of H1 with step _ ?p =>
    assert (Hline :
               request_line false (HttpStream_init Client None)
                 (t_io (default (mkTask connected_session (world0 [] []) Ended)
                          (tasks p !! 0%nat)))
               = (Ret (B "GET", B "http://example.com/b", B "HTTP/1.1"),
                  snd (request_line false (HttpStream_init Client None)
                         (t_io (default
                                  (mkTask connected_session (world0 [] []) Ended)
                                  (tasks p !! 0%nat))))))
      by (vm_compute; reflexivity);
    pose proof (@step_next_request simple_py p 0 _ _ _ _ _ _ _ eq_refl Hline
                  (surjective_pairing _)) as H2
  end.
  match type of H2 with step _ ?p =>
    pose proof (@step_check simple_py p 0 _ eq_refl eq_refl) as H3 end.
  match type of H3 with step _ ?p =>
    pose proof (@step_respond simple_py p 0 _ _ _ eq_refl eq_refl
                  (surjective_pairing _)) as H4 end.
  eexists _, _, _, _, _.
  split; [vm_compute; reflexivity|].
  split; [eapply steps_step; [exact H1|];
          eapply steps_step; [exact H2|]; apply steps_refl|].
  split; [vm_compute; reflexivity|].
  split; [vm_compute; reflexivity|].
  split; [reflexivity|].
  split; [reflexivity|].
  split; [vm_compute; reflexivity|].
  split; [eapply steps_step; [exact H3|];
          eapply steps_step; [exact H4|]; apply steps_refl|].
  split; [vm_compute; reflexivity|].
  split; [vm_compute; reflexivity|].
  split; [reflexivity|].
  split; [reflexivity|].
  cbn. intros H. repeat (destruct H as [H|H]; [discriminate|]). exact H.
Qed.

(** ** The tee: what is read is what is written *)

Lemma relayed_refl (p q : peer) (w : World) : relayed p q w w.
Proof. exists []. simpl. now rewrite app_nil_r. Qed.

Lemma relayed_trans (p q : peer) (w1 w2 w3 : World) :
  relayed p q w1 w2 -> relayed p q w2 w3 -> relayed p q w1 w3.
Proof.
  intros (a & Ht1 & Hi1 & Hp1) (b & Ht2 & Hi2 & Hp2). exists (a ++ b).
  rewrite Ht2, Ht1, Hi1, Hi2, Hp2, Hp1, map_app, concat_app, !app_assoc.
  auto.
Qed.

Lemma relayed_length (p q : peer) (w w' : World) :
  relayed p q w w' -> (length (input p w') <= length (input p w))%nat.
Proof. intros (a & _ & -> & _). rewrite length_app. lia. Qed.

(** One line taken from [p] and written to [q]. *)
Lemma relayed_line (p q : peer) (w : World) (line rest : bytes) :
  input p w = line ++ rest ->
  relayed p q w (log (Write q line) (set_input p rest w)).
Proof.
  intros H. exists [line]. cbn [log trace host_abs_url map concat].
  now rewrite trace_set_input, policy_set_input, input_log, input_set_input,
    app_nil_r.
Qed.

Section Relay.
Context {py : PyLib}.
Variables (p q : peer).

Lemma nextline_tee (h : HttpStream) (w : World) :
  reader h = p -> writer h = Some q ->
  match (let* line := nextline h in tee true h line ;; ret line) w with
  | (Ret line, w') =>
      line <> [] /\ relayed p q w w'
      /\ (length (input p w') < length (input p w))%nat
  | (Raise _, w') => host_abs_url w' = host_abs_url w
  | (OutOfFuel, _) => False
  end.
Proof.
  intros Hr Hw. unfold bind. pose proof (nextline_cases h w) as Hn.
  rewrite Hr in Hn.
  destruct (nextline h w) as [[line| |] w1]; [| |exact Hn].
  - destruct Hn as (Hne & Hin & Hw1).
    unfold tee, hwrite. rewrite Hw. unfold write, emit, ret.
    split; [exact Hne|]. rewrite Hw1. split.
    + now apply relayed_line.
    + rewrite input_log, input_set_input, Hin, length_app.
      destruct line; [contradiction | simpl; lia].
  - rewrite Hn. apply policy_set_input.
Qed.

Lemma next_header_field_relays (h : HttpStream) (w : World) :
  reader h = p -> writer h = Some q ->
  relays p q w (next_header_field true h w)
    (fun r => reader (snd r) = p /\ writer (snd r) = Some q
              /\ (fst r = HeaderDone -> field_done h = true)
              /\ (fst r <> HeaderDone ->
                  forall w', snd (next_header_field true h w) = w' ->
                  (length (input p w') < length (input p w))%nat)).
Proof.
  intros Hr Hw. unfold next_header_field.
  destruct (field_done h) eqn:Hfd.
  { cbn. repeat split; auto using relayed_refl. congruence. }
  pose proof (nextline_tee h w Hr Hw) as Hn. unfold bind in *.
  destruct (nextline h w) as [[line| |] w1]; [| exact Hn | exact Hn].
  destruct (tee true h line w1) as [[[]| |] w2]; [| exact Hn | exact Hn].
  cbn in Hn. destruct Hn as (Hne & Hrel & Hlt).
  unfold decode, lift, ret, raise, relays.
  assert (Hpol : host_abs_url w2 = host_abs_url w)
    by (destruct Hrel as (? & _ & _ & H); exact H).
  repeat case_match; simplify_eq; cbn; try exact Hpol.
  all: (split; [exact Hrel|]); repeat split; auto; try discriminate.
  all: intros _ ? <-; exact Hlt.
Qed.

Lemma tunnel_chunk_relays (h : HttpStream) (w : World) :
  reader h = p -> writer h = Some q ->
  relays p q w (tunnel_chunk h w) (fun _ => True).
Proof.
  intros Hr Hw. unfold tunnel_chunk, bind.
  destruct (negb (chunked h)) eqn:Hc; [|destruct (chunk_len h) as [n|]];
    cbn [lift ret raise]; try reflexivity.
  - destruct (tunnel_chunk_loop_copies h q Hw (S (length (input (reader h) w)))
                (body_len h) w) as (r & wr & w' & -> & Htr & _ & Hpol & Hres); [lia|].
    rewrite Hr in Hres. destruct (_ <=? _)%nat; destruct Hres as (-> & Hcat & Hin);
      cbn; [|exact Hpol].
    split; [|exact I]. exists wr. rewrite Htr, Hcat, Hin, take_drop. auto.
  - destruct (tunnel_chunk_loop_copies h q Hw (S (length (input (reader h) w)))
                n w) as (r & wr & w' & -> & Htr & _ & Hpol & Hres); [lia|].
    rewrite Hr in Hres. destruct (_ <=? _)%nat; destruct Hres as (-> & Hcat & Hin);
      cbn; [|exact Hpol].
    split; [|exact I]. exists wr. rewrite Htr, Hcat, Hin, take_drop. auto.
Qed.

Lemma next_chunk_ready_relays (h : HttpStream) (w : World) :
  reader h = p -> writer h = Some q ->
  relays p q w (next_chunk_ready true h w)
    (fun r => reader (snd r) = p /\ writer (snd r) = Some q
              /\ (fst r <> BodyDone ->
                  (chunked h = false /\ body_done (snd r) = true)
                  \/ (chunked h = true /\ chunked (snd r) = true
                      /\ forall w', snd (next_chunk_ready true h w) = w' ->
                         (length (input p w') < length (input p w))%nat))).
Proof.
  intros Hr Hw. unfold next_chunk_ready.
  destruct (body_done h) eqn:Hbd.
  { cbn. repeat split; auto using relayed_refl. congruence. }
  destruct (chunked h) eqn:Hch; cbn [negb].
  2:{ cbn [set_body_done body_len].
      destruct (body_len h >? 0); cbn; repeat split; auto using relayed_refl;
        congruence. }
  pose proof (nextline_tee h w Hr Hw) as Hn. unfold bind in *.
  destruct (nextline h w) as [[line| |] w1]; [| exact Hn | exact Hn].
  destruct (tee true h line w1) as [[[]| |] w2]; [| exact Hn | exact Hn].
  cbn in Hn. destruct Hn as (Hne & Hrel & Hlt).
  assert (Hpol : host_abs_url w2 = host_abs_url w)
    by (destruct Hrel as (? & _ & _ & H); exact H).
  unfold lift, ret, raise, relays.
  repeat case_match; simplify_eq; cbn; try exact Hpol.
  all: (split; [exact Hrel|]); repeat split; auto.
  all: intros _; right; repeat split; auto; intros ? <-; exact Hlt.
Qed.

(** Fuel that suffices for the header loop and for the body loop. *)
Lemma relay_fields_relays (fuel : nat) :
  forall (h : HttpStream) (w : World),
    reader h = p -> writer h = Some q ->
    (if field_done h then 1 <= fuel else length (input p w) + 2 <= fuel)%nat ->
    relays p q w (relay_fields fuel h w)
      (fun h' => reader h' = p /\ writer h' = Some q).
Proof.
  induction fuel as [|fuel IH]; intros h w Hr Hw Hfuel.
  { destruct (field_done h); lia. }
  cbn [relay_fields]. unfold bind.
  pose proof (next_header_field_relays h w Hr Hw) as Hn.
  destruct (next_header_field true h w) as [[[item h']| |] w1] eqn:Hrun;
    [| exact Hn | exact Hn].
  cbn in Hn. destruct Hn as (Hrel & Hr' & Hw' & Hdone & Hlt).
  assert (Hstep : item <> HeaderDone ->
                  relays p q w (relay_fields fuel h' w1)
                    (fun h' => reader h' = p /\ writer h' = Some q)).
  { intros Hi. specialize (Hlt Hi w1 eq_refl).
    assert (field_done h = false) as Hfd.
    { destruct (field_done h) eqn:E; [|reflexivity].
      unfold next_header_field in Hrun. rewrite E in Hrun.
      inversion Hrun. congruence. }
    rewrite Hfd in Hfuel.
    specialize (IH h' w1 Hr' Hw').
    assert (Hf : (if field_done h' then 1 <= fuel
                  else length (input p w1) + 2 <= fuel)%nat)
      by (destruct (field_done h'); lia).
    specialize (IH Hf). unfold relays in *.
    destruct (relay_fields fuel h' w1) as [[h2| |] w2]; [| |exact IH].
    - destruct IH as [Hrel2 Hpost]. split; [|exact Hpost].
      eapply relayed_trans; eassumption.
    - rewrite IH. now destruct Hrel as (? & _ & _ & ?). }
  destruct item; [apply Hstep; discriminate | apply Hstep; discriminate |].
  cbn. auto.
Qed.

Lemma relay_body_relays (fuel : nat) :
  forall (h : HttpStream) (w : World),
    reader h = p -> writer h = Some q ->
    (if body_done h then 1 <= fuel
     else if chunked h then length (input p w) + 2 <= fuel
     else 2 <= fuel)%nat ->
    relays p q w (relay_body fuel h w) (fun _ => True).
Proof.
  induction fuel as [|fuel IH]; intros h w Hr Hw Hfuel.
  { destruct (body_done h), (chunked h); lia. }
  cbn [relay_body]. unfold bind.
  pose proof (next_chunk_ready_relays h w Hr Hw) as Hn.
  destruct (next_chunk_ready true h w) as [[[item h']| |] w1] eqn:Hrun;
    [| exact Hn | exact Hn].
  cbn in Hn. destruct Hn as (Hrel & Hr' & Hw' & Hcase).
  assert (Hbd : body_done h = false \/ item = BodyDone).
  { destruct (body_done h) eqn:E; [right|now left].
    unfold next_chunk_ready in Hrun. rewrite E in Hrun. now inversion Hrun. }
  assert (Hnext : item <> BodyDone ->
            forall w2, relayed p q w1 w2 ->
            relays p q w (relay_body fuel h' w2) (fun _ => True)).
  { intros Hi w2 Hrel2. destruct Hbd as [Hbd|]; [|contradiction].
    rewrite Hbd in Hfuel. pose proof (relayed_length _ _ _ _ Hrel2) as Hlen.
    assert (Hf : (if body_done h' then 1 <= fuel
                  else if chunked h' then length (input p w2) + 2 <= fuel
                  else 2 <= fuel)%nat).
    { destruct (Hcase Hi) as [[Hc Hd]|(Hc & Hc' & Hlt)].
      - rewrite Hd. rewrite Hc in Hfuel. lia.
      - specialize (Hlt w1 eq_refl). rewrite Hc', Hc in *.
        destruct (body_done h'); lia. }
    specialize (IH h' w2 Hr' Hw' Hf). unfold relays in *.
    destruct (relay_body fuel h' w2) as [[h2| |] w3]; [| |exact IH].
    - split; [|exact I]. destruct IH as [Hrel3 _].
      eapply relayed_trans; [exact Hrel|].
      eapply relayed_trans; eassumption.
    - rewrite IH. destruct Hrel2 as (? & _ & _ & ->).
      now destruct Hrel as (? & _ & _ & ?). }
  destruct item as [n|line|].
  - pose proof (tunnel_chunk_relays h' w1 Hr' Hw') as Ht.
    destruct (tunnel_chunk h' w1) as [[[]| |] w2]; [| |exact Ht].
    + destruct Ht as [Hrel2 _]. apply Hnext; [discriminate | exact Hrel2].
    + cbn in *. rewrite Ht. now destruct Hrel as (? & _ & _ & ?).
  - apply Hnext; [discriminate | apply relayed_refl].
  - cbn. auto.
Qed.

End Relay.

Section Forward.
Context {py : PyLib}.

Lemma forward_response_relays (http : HttpStream) (version reason : bytes)
    (status : Z) (w : World) :
  reader http = Server -> writer http = Some Client ->
  relays Server Client
    (log (Write Client (version ++ [SP] ++ str_of_Z status ++ [SP] ++ reason ++ CRLF)) w)
    (forward_response http version status reason w) (fun _ => True).
Proof.
  intros Hr Hw. unfold forward_response, bind at 1, write, emit.
  set (w0 := log _ w). unfold bind.
  pose proof (relay_fields_relays Server Client (S (S (length (server_in w0))))
                http w0 Hr Hw) as Hf.
  destruct (relay_fields _ http w0) as [[h1| |] w1]; cbn in Hf.
  - destruct Hf as [Hrel1 [Hr1 Hw1]]. { destruct (field_done http); lia. }
    pose proof (relay_body_relays Server Client (S (S (length (server_in w1))))
                  h1 w1 Hr1 Hw1) as Hb.
    destruct (relay_body _ h1 w1) as [[h2| |] w2]; cbn in Hb.
    + destruct Hb as [Hrel2 _]. { destruct (body_done h1), (chunked h1); lia. }
      cbn. split; [|exact I]. eapply relayed_trans; eassumption.
    + cbn. rewrite Hb. * now destruct Hrel1 as (? & _ & _ & ?).
      * destruct (body_done h1), (chunked h1); lia.
    + apply Hb. destruct (body_done h1), (chunked h1); lia.
  - apply Hf. destruct (field_done http); lia.
  - apply Hf. destruct (field_done http); lia.
Qed.

(** [handle_response] always comes back: with a result or an exception,
    never for want of fuel; and all it does to the policy map is to set
    the entry of its own origin. *)
Lemma handle_response_effect (self : NagatoStream) (w : World) :
  match handle_response self w with
  | (OutOfFuel, _) => False
  | (_, w') =>
      host_abs_url w' = host_abs_url w
      \/ exists v, host_abs_url w' = <[origin_key self := v]> (host_abs_url w)
  end.
Proof.
  unfold handle_response, bind at 1.
  pose proof (status_line_reads_only (HttpStream_init Server (Some Client)) w) as Hs.
  destruct (status_line false _ w) as [[[[version status] reason]| |] w1];
    [| |exact Hs].
  2:{ left. rewrite Hs. apply policy_set_input. }
  destruct Hs as (line & _ & _ & Hw1).
  assert (Hpol : host_abs_url w1 = host_abs_url w)
    by (rewrite Hw1; apply policy_set_input).
  assert (Hfw : forall w2,
            match forward_response (HttpStream_init Server (Some Client))
                    version status reason w2 with
            | (OutOfFuel, _) => False
            | (_, w') => host_abs_url w' = host_abs_url w2
            end).
  { intros w2.
    pose proof (forward_response_relays (HttpStream_init Server (Some Client))
                  version reason status w2 eq_refl eq_refl) as H.
    destruct (forward_response _ _ _ _ w2) as [[[]| |] w3]; cbn in H; auto.
    now destruct H as [(? & _ & _ & ?) _]. }
  unfold bind. destruct (is_success status).
  - unfold put_policy. specialize (Hfw (set_policy
      (<[origin_key self := true]> (host_abs_url w1)) w1)).
    destruct (forward_response _ _ _ _ _) as [[[]| |] w3]; [| |exact Hfw].
    all: right; exists true; rewrite Hfw; cbn; now rewrite Hpol.
  - destruct (is_failure status).
    + unfold put_policy, bind, lift, write, close, emit, ret, raise.
      destruct (parsed_url (last_url self)); cbn; right; exists false;
        now rewrite Hpol.
    + cbn [ret]. specialize (Hfw w1).
      destruct (forward_response _ _ _ _ _) as [[[]| |] w3]; [| |exact Hfw].
      all: left; now rewrite Hfw.
Qed.


End Forward.


(** ** The request task: the host line *)

Lemma write_segments_events (segs : list bytes) :
  forall w : World,
    exists sleeps w',
      write_segments segs w = (Ret tt, w')
      /\ length sleeps = length segs
      /\ Forall (fun ms => 0 <= ms <= 9) sleeps
      /\ trace w' = trace w ++ segment_events segs sleeps
      /\ same_streams w w'.
Proof.
  induction segs as [|seg segs IH]; intros w.
  - exists [], w. cbn. rewrite app_nil_r. repeat split; auto.
  - cbn [write_segments]. unfold bind at 1, write, emit.
    unfold bind at 1, drain, emit. unfold bind at 1.
    destruct (randrange_in_range 10 (log (Drain Server) (log (Write Server seg) w)))
      as (ms & -> & Hms); [lia|].
    unfold bind at 1, sleep, emit.
    match goal with |- context [write_segments segs ?w1] =>
      destruct (IH w1) as (sleeps & w' & -> & Hlen & Hall & Htr & Hsame) end.
    exists (ms :: sleeps), w'. split; [reflexivity|].
    split; [simpl; lia|]. split; [constructor; [lia|exact Hall]|].
    split.
    + rewrite Htr. cbn. rewrite <- !app_assoc. reflexivity.
    + exact Hsame.
Qed.

Section Request.
Context {py : PyLib}.

(** C9, as the code has it.  After the header fields of the client, when
    the origin is in passthrough mode or a Host field was captured,
    [handle_request] writes the collected fields and then the host line
    [hoSt:] + value + CRLF, where the value is the captured one unless that
    is empty or absent, in which case it is the host of the origin.  The
    line goes out as ["ho"] followed by pieces of 1 to 5 bytes; every piece,
    the first included, is written, flushed and followed by a sleep of 0 to
    9 milliseconds; then comes the CRLF that ends the header, and the body. *)
Theorem host_line_is_fragmented (self self' : NagatoStream)
    (method version : bytes) (url : ParseResult) (w w1 : World)
    (is_absolute : bool) (http : HttpStream) (field_lines : list bytes)
    (host : option bytes) (h : bytes) :
  request_head self (method, url, version) w
    = (Ret (self', is_absolute, (http, field_lines, host)), w1) ->
  host_abs_url w !! origin_key self = Some false \/ host <> None ->
  py_or host (sess_host self) = Some h ->
  exists segs sleeps w2,
    concat (B "ho" :: segs) = B "hoSt:" ++ h ++ CRLF
    /\ Forall (fun seg => 1 <= Z.of_nat (length seg) <= 5) segs
    /\ length sleeps = length (B "ho" :: segs)
    /\ Forall (fun ms => 0 <= ms <= 9) sleeps
    /\ trace w2 = trace w1
         ++ Write Server (concat field_lines)
         :: segment_events (B "ho" :: segs) sleeps
         ++ [Write Server CRLF]
    /\ same_streams w1 w2
    /\ handle_request self (method, url, version) w
       = ((fun w => relay_body (S (S (length (client_in w)))) http w) ;;
          ret self') w2.
Proof.
  intros Hhead Hmode Hhost.
  assert (Hself : self' = set_last_url url self)
    by (eapply request_head_records_url; eassumption).
  assert (Habs : is_absolute = default true (host_abs_url w !! origin_key self)).
  { unfold request_head in Hhead.
    apply bind_ret_inv in Hhead. destruct Hhead as (entry & w0 & Hget & Hhead).
    unfold get_policy in Hget. inversion Hget; subst entry w0.
    repeat (apply bind_ret_inv in Hhead; destruct Hhead as (? & ? & _ & Hhead)).
    unfold ret in Hhead. now inversion Hhead. }
  assert (Hcond : (negb is_absolute || bool_decide (host <> None))%bool = true).
  { destruct Hmode as [Hm|Hm].
    - rewrite Habs, Hm. reflexivity.
    - rewrite (bool_decide_eq_true_2 _ Hm). apply orb_true_r. }
  unfold handle_request, bind at 1. rewrite Hhead.
  unfold request_tail, bind at 1, write at 1, emit.
  unfold bind at 1, write_host_line. rewrite Hcond.
  replace (sess_host self') with (sess_host self) by now rewrite Hself.
  rewrite Hhost. cbn [lift]. unfold bind at 1, ret at 1.
  change (take 2 (B "hoSt:" ++ h ++ CRLF)) with (B "ho").
  change (drop 2 (B "hoSt:" ++ h ++ CRLF)) with (B "St:" ++ h ++ CRLF).
  set (w1' := log (Write Server (concat field_lines)) w1).
  destruct (random_split_loop_covers (length (B "St:" ++ h ++ CRLF))
              (B "St:" ++ h ++ CRLF) 6 w1')
    as (segs & wa & Hsplit & Hcat & Hall & Hwa); [lia | lia |].
  fold (random_split (B "St:" ++ h ++ CRLF) 6) in Hsplit.
  unfold bind at 1. rewrite Hsplit.
  destruct (write_segments_events (B "ho" :: segs) wa)
    as (sleeps & wb & Hws & Hlen & Hsl & Htr & Hsame).
  rewrite Hws. unfold bind at 1, write at 1, emit.
  exists segs, sleeps, (log (Write Server CRLF) wb).
  split; [cbn [concat]; now rewrite Hcat|].
  split; [exact Hall|]. split; [exact Hlen|]. split; [exact Hsl|].
  split; [|split; [|reflexivity]].
  - cbn [log trace]. rewrite Htr, Hwa. cbn [set_rng trace]. unfold w1'.
    cbn [log trace]. rewrite <- !app_assoc. reflexivity.
  - destruct Hsame as (H1 & H2 & H3 & H4 & H5). rewrite Hwa in *.
    unfold same_streams. cbn in *. auto.
Qed.

End Request.

(** Scenario S1 on the request side: upgrade mode, [Host: example.com]
    captured. *)
Lemma host_line_is_fragmented_witness :
  let w := world0 (crlf "Host: example.com

") [] in
  let w1 := mkWorld [] [] [] [] true
              [Write Server (crlf "GET https://example.com/ HTTP/1.1
")] ∅ in
  exists segs sleeps w2,
    concat (B "ho" :: segs) = B "hoSt:" ++ B "example.com" ++ CRLF
    /\ Forall (fun seg => 1 <= Z.of_nat (length seg) <= 5) segs
    /\ length sleeps = length (B "ho" :: segs)
    /\ Forall (fun ms => 0 <= ms <= 9) sleeps
    /\ trace w2 = trace w1
         ++ Write Server (concat [])
         :: segment_events (B "ho" :: segs) sleeps
         ++ [Write Server CRLF]
    /\ same_streams w1 w2
    /\ @handle_request simple_py example_session example_request w
       = ((fun w => @relay_body simple_py (S (S (length (client_in w))))
                      request_http_done w) ;;
          ret example_session) w2.
Proof.
  intros w w1.
  apply (@host_line_is_fragmented simple_py example_session example_session
           (B "GET") (B "HTTP/1.1") example_url w w1 true request_http_done
           [] (Some (B "example.com")) (B "example.com")).
  - reflexivity.
  - right. discriminate.
  - reflexivity.
Defined.

(** Scenario S3: in passthrough mode the upstream gets the origin-form
    request line, eight dummy fields, and then the host line in pieces
    (here of 5, 1, 3, 3, 1, 1, 1, 1, 1 and 1 bytes after ["ho"]) before the
    end of the header. *)
Example passthrough_request :
  let w := mkWorld (crlf "Host: example.com

") [] [] (repeat 0%nat (8 * 144) ++ [4; 0; 7; 2]%nat) true []
             {[ B "example.com:80" := false ]} in
  let sent := writes_to Server
                (trace (snd (@handle_request simple_py example_session
                               example_request w))) in
  take 1 sent = [crlf "GET / HTTP/1.1
"]
  /\ drop 10 sent
     = [B "ho"; B "St:ex"; B "a"; B "mpl"; B "e.c"; B "o"; B "m"; [CR]; [LF]; CRLF].
Proof. vm_compute. split; reflexivity. Qed.

(** C9 as stated fails for a Host field that is present but empty.  The
    request [GET http://example.com/] with the field [Host:] is in upgrade
    mode with a captured value, the empty string; the line sent is
    [hoSt:example.com], with the host of the origin, not [hoSt:] followed by
    the captured value. *)
Lemma empty_host_value_is_replaced_by_origin :
  let w := world0 (crlf "Host:

") [] in
  (exists w1,
      @request_head simple_py example_session example_request w
      = (Ret (example_session, true, (request_http_done, [], Some [])), w1))
  /\ (exists w',
      @handle_request simple_py example_session example_request w
        = (Ret example_session, w')
      /\ concat (writes_to Server (trace w'))
         = crlf "GET https://example.com/ HTTP/1.1
hoSt:example.com

"
      /\ concat (writes_to Server (trace w'))
         <> crlf "GET https://example.com/ HTTP/1.1
" ++ B "hoSt:" ++ [] ++ CRLF ++ CRLF).
Proof.
  intros w. split.
  - eexists. vm_compute. reflexivity.
  - eexists. split; [vm_compute; reflexivity|].
    split; [vm_compute; reflexivity | vm_compute; discriminate].
Qed.

(** ** The CONNECT tunnel *)

(** Scenario S4, the record arriving whole: 5 bytes are forwarded, then 85
    more, then the upstream is flushed, and the pumps start. *)
Example handle_tunnel_whole_record :
  handle_tunnel (Some (B "example.com")) (Some 443) (B "HTTP/1.1")
    (world0 client_hello [])
  = (Ret tt,
     mkWorld (drop 90 client_hello) [] [] [] true
       [Connect (Some (B "example.com")) (Some 443);
        Write Client (PROXY_RESP_200 (B "HTTP/1.1"));
        Write Server (take 5 client_hello);
        Write Server (take 85 (drop 5 client_hello));
        Drain Server;
        Pumps] ∅).
Proof. vm_compute. reflexivity. Qed.

(** C5 fails where the first [read(5)] is served with fewer than 5 bytes.
    With the same record, of which 4 bytes have arrived when the read is
    served, [handle_tunnel] forwards these 4 bytes, finds that they start
    with [16 03 01], and [struct.unpack] raises on the single byte left
    for the length: the tunnel is never started. *)
Theorem handle_tunnel_short_first_read :
  handle_tunnel (Some (B "example.com")) (Some 443) (B "HTTP/1.1")
    (mkWorld client_hello [] [3%nat] [] true [] ∅)
  = (Raise StructError,
     mkWorld (drop 4 client_hello) [] [] [] true
       [Connect (Some (B "example.com")) (Some 443);
        Write Client (PROXY_RESP_200 (B "HTTP/1.1"));
        Write Server (take 4 client_hello)] ∅).
Proof. vm_compute. reflexivity. Qed.

(** Likewise the second read may be served with fewer than 85 bytes: here
    the upstream is flushed after 5 + 10 bytes. *)
Example handle_tunnel_short_second_read :
  handle_tunnel (Some (B "example.com")) (Some 443) (B "HTTP/1.1")
    (mkWorld client_hello [] [4; 9]%nat [] true [] ∅)
  = (Ret tt,
     mkWorld (drop 15 client_hello) [] [] [] true
       [Connect (Some (B "example.com")) (Some 443);
        Write Client (PROXY_RESP_200 (B "HTTP/1.1"));
        Write Server (take 5 client_hello);
        Write Server (take 10 (drop 5 client_hello));
        Drain Server;
        Pumps] ∅).
Proof. vm_compute. reflexivity. Qed.

(** Steps that open no connection. *)

Lemma quiet_refl (w : World) : quiet w w.
Proof. exists []. now rewrite app_nil_r. Qed.

Lemma quiet_trans (w1 w2 w3 : World) : quiet w1 w2 -> quiet w2 w3 -> quiet w1 w3.
Proof.
  intros (a & Ha & Hqa) (b & Hb & Hqb). exists (a ++ b).
  rewrite Hb, Ha, app_assoc, forallb_app, Hqa, Hqb. auto.
Qed.

Lemma quiet_ret {A} (a : A) : quiet_m (ret a).
Proof. intros w r w' H. inversion H. apply quiet_refl. Qed.

Lemma quiet_raise {A} (e : exn) : quiet_m (@raise A e).
Proof. intros w r w' H. inversion H. apply quiet_refl. Qed.

Lemma quiet_bind {A C} (m : M A) (k : A -> M C) :
  quiet_m m -> (forall a, quiet_m (k a)) -> quiet_m (bind m k).
Proof.
  intros Hm Hk w r w' H. unfold bind in H.
  destruct (m w) as [[a| |] w1] eqn:E.
  - eapply quiet_trans; [eapply Hm, E | eapply Hk, H].
  - inversion H; subst. eapply Hm, E.
  - inversion H; subst. eapply Hm, E.
Qed.

Lemma quiet_emit (e : event) : is_connect e = false -> quiet_m (emit e).
Proof.
  intros He w r w' H. inversion H. exists [e]. cbn. now rewrite He.
Qed.

Lemma quiet_read (p : peer) (n : Z) : quiet_m (read p n).
Proof.
  intros w r w' H. inversion H. exists []. cbn.
  now rewrite trace_set_input, app_nil_r.
Qed.

Lemma quiet_nagato_read (n : Z) : quiet_m (nagato_read n).
Proof.
  apply quiet_bind; [apply quiet_read|].
  intros [|c buf]; [apply quiet_raise | apply quiet_ret].
Qed.

Lemma quiet_unpack_H (b : bytes) : quiet_m (unpack_H b).
Proof.
  unfold unpack_H.
  destruct b as [|hi [|lo [|c b]]]; auto using @quiet_raise, @quiet_ret.
Qed.

Create HintDb quiet.
#[local] Hint Resolve quiet_ret quiet_raise quiet_nagato_read quiet_unpack_H : quiet.
#[local] Hint Extern 1 (quiet_m (write _ _)) => apply quiet_emit; reflexivity : quiet.
#[local] Hint Extern 1 (quiet_m (drain _)) => apply quiet_emit; reflexivity : quiet.
#[local] Hint Extern 1 (quiet_m (close _)) => apply quiet_emit; reflexivity : quiet.
#[local] Hint Extern 1 (quiet_m (emit Pumps)) => apply quiet_emit; reflexivity : quiet.
#[local] Hint Extern 2 (quiet_m (bind _ _)) => apply quiet_bind; [|intros ?] : quiet.
#[local] Hint Extern 2 (quiet_m (if ?b then _ else _)) => destruct b : quiet.

(** [handle_tunnel] starts by connecting to the host and port it was
    given, and connects only once. *)
Lemma handle_tunnel_connects_once (host : option bytes) (port : option Z)
    (version : bytes) (w : World) :
  exists r w' evs,
    handle_tunnel host port version w = (r, w')
    /\ trace w' = trace w ++ Connect host port :: evs
    /\ forallb (fun e => negb (is_connect e)) evs = true.
Proof.
  unfold handle_tunnel.
  match goal with |- context [if negb _ then ret tt else ?rest] =>
    assert (Hq : quiet_m rest) by auto 12 with quiet end.
  unfold bind at 1, try_except, bind at 1, open_connection, bind at 1,
    emit at 1.
  cbn [log upstream_up]. destruct (upstream_up w).
  - cbn [ret negb].
    match goal with |- context [?m (log ?e w)] =>
      destruct (m (log e w)) as [r w'] eqn:Hrun end.
    destruct (Hq _ _ _ Hrun) as (evs & Htr & Hevs).
    exists r, w', evs. split; [reflexivity|]. split; [|exact Hevs].
    rewrite Htr. cbn [log trace]. now rewrite <- app_assoc.
  - cbn. eexists _, _, _. split; [reflexivity|].
    cbn [log trace]. rewrite <- !app_assoc. split; reflexivity.
Qed.

Section Streams.
Context {py : PyLib}.

Lemma request_line_reads_only (h : HttpStream) (w : World) :
  match request_line false h w with
  | (OutOfFuel, _) => False
  | (_, w') => w' = set_input (reader h) (input (reader h) w') w
  end.
Proof.
  unfold request_line, bind. pose proof (nextline_cases h w) as Hn.
  destruct (nextline h w) as [[line| |] w1]; [|exact Hn|exact Hn].
  destruct Hn as (_ & _ & Hw). cbn [tee]. unfold ret at 1.
  unfold decode, ret, raise. repeat case_match; simplify_eq; eauto.
Qed.

Lemma drop_fields_reads_only (fuel : nat) (h : HttpStream) :
  forall w r w',
    drop_fields fuel h w = (r, w') ->
    w' = set_input (reader h) (input (reader h) w') w.
Proof.
  induction fuel as [|fuel IH]; intros w r w' H; cbn in H.
  - inversion H. symmetry. apply set_input_same.
  - unfold bind in H. pose proof (nextline_cases h w) as Hn.
    destruct (nextline h w) as [[line| |] w1].
    + destruct Hn as (_ & _ & Hw1).
      destruct (bytes_eqb line CRLF).
      * inversion H; subst. exact Hw1.
      * apply IH in H. rewrite H, Hw1. now destruct (reader h), w.
    + inversion H; subst. exact Hn.
    + contradiction.
Qed.

(** C10.  A CONNECT request whose authority has no port ([url.port] is
    [None]) makes [handle_streams], once the fields of the request are
    dropped, call [open_connection] with the port [None]: no default is
    put in its place, and no other connection is attempted.  A request
    that is not CONNECT and whose URL has no port connects to port 80. *)
Theorem connect_has_no_default_port (self : NagatoStream) (w w1 : World)
    (method url version : bytes) (u : ParseResult) :
  request_line false (HttpStream_init Client None) w
    = (Ret (method, url, version), w1) ->
  port u = Some None ->
  (method = B "CONNECT" -> urlparse (B "//" ++ url) = Some u ->
   forall w2,
     drop_fields (S (length (client_in w1))) (HttpStream_init Client None) w1
       = (Ret tt, w2) ->
     exists r w3 evs,
       handle_streams self w = (r, w3)
       /\ trace w3 = trace w ++ Connect (hostname u) None :: evs
       /\ forallb (fun e => negb (is_connect e)) evs = true)
  /\ (method <> B "CONNECT" -> urlparse url = Some u ->
      exists r w3 evs,
        handle_streams self w = (r, w3)
        /\ trace w3 = trace w ++ Connect (hostname u) (Some 80) :: evs
        /\ forallb (fun e => negb (is_connect e)) evs = true).
Proof.
  intros Hreq Hport.
  assert (Htr1 : trace w1 = trace w).
  { pose proof (request_line_reads_only (HttpStream_init Client None) w) as H.
    rewrite Hreq in H. rewrite H. apply trace_set_input. }
  split.
  - intros -> Hurl w2 Hdrop.
    assert (Htr2 : trace w2 = trace w1).
    { rewrite (drop_fields_reads_only _ _ _ _ _ Hdrop). apply trace_set_input. }
    destruct (handle_tunnel_connects_once (hostname u) None version w2)
      as (r & w3 & evs & Hrun & Htr & Hevs).
    unfold handle_streams, bind at 1. rewrite Hreq.
    cbv beta iota. unfold bytes_eqb. rewrite bool_decide_eq_true_2 by reflexivity.
    unfold bind at 1. rewrite Hurl. cbn [lift]. unfold ret at 1.
    unfold bind at 1. rewrite Hport. cbn [lift]. unfold ret at 1.
    unfold bind at 1. rewrite Hdrop. unfold bind. rewrite Hrun.
    destruct r as [[]| |]; eexists _, w3, evs;
      (split; [reflexivity|]); rewrite Htr, Htr2, Htr1; auto.
  - intros Hm Hurl.
    unfold handle_streams, bind at 1. rewrite Hreq.
    cbv beta iota. unfold bytes_eqb. rewrite bool_decide_eq_false_2 by exact Hm.
    unfold bind at 1. rewrite Hurl. cbn [lift]. unfold ret at 1.
    unfold bind at 1. rewrite Hport. cbn [lift]. unfold ret at 1.
    unfold try_except, bind, open_connection, emit, write, close, ret.
    cbn. destruct (upstream_up w1); cbn; eexists _, _, _;
      (split; [reflexivity|]); cbn [log trace]; rewrite Htr1, <- ?app_assoc;
      (split; [reflexivity|]); reflexivity.
Qed.

End Streams.

(** [CONNECT example.com HTTP/1.1] connects with the port [None];
    [GET http://example.com/ HTTP/1.1] connects to port 80. *)
Lemma connect_has_no_default_port_witness :
  (exists r w3 evs,
      @handle_streams simple_py NagatoStream_init
        (world0 (crlf "CONNECT example.com HTTP/1.1

") []) = (r, w3)
      /\ trace w3 = [] ++ Connect (Some (B "example.com")) None :: evs
      /\ forallb (fun e => negb (is_connect e)) evs = true)
  /\ (exists r w3 evs,
      @handle_streams simple_py NagatoStream_init
        (world0 (crlf "GET http://example.com/ HTTP/1.1
Host: example.com

") []) = (r, w3)
      /\ trace w3 = [] ++ Connect (Some (B "example.com")) (Some 80) :: evs
      /\ forallb (fun e => negb (is_connect e)) evs = true).
Proof.
  split.
  - apply (proj1 (@connect_has_no_default_port simple_py NagatoStream_init
             (world0 (crlf "CONNECT example.com HTTP/1.1

") []) (world0 CRLF [])
             (B "CONNECT") (B "example.com") (B "HTTP/1.1")
             (mkParseResult [] (B "example.com") [] [] [] [])
             eq_refl eq_refl) eq_refl eq_refl (world0 [] [])).
    reflexivity.
  - apply (proj2 (@connect_has_no_default_port simple_py NagatoStream_init
             (world0 (crlf "GET http://example.com/ HTTP/1.1
Host: example.com

") []) (world0 (crlf "Host: example.com

") [])
             (B "GET") (B "http://example.com/") (B "HTTP/1.1")
             example_url eq_refl eq_refl)).
    + discriminate.
    + reflexivity.
Defined.

(** ** What leaves the policy map alone *)

Lemma keeps_ret {A} (a : A) : keeps (ret a).
Proof. intros w r w' H. now inversion H. Qed.

Lemma keeps_raise {A} (e : exn) : keeps (@raise A e).
Proof. intros w r w' H. now inversion H. Qed.

Lemma keeps_out_of_fuel {A} : keeps (@out_of_fuel A).
Proof. intros w r w' H. now inversion H. Qed.

Lemma keeps_bind {A C} (m : M A) (k : A -> M C) :
  keeps m -> (forall a, keeps (k a)) -> keeps (bind m k).
Proof.
  intros Hm Hk w r w' H. unfold bind in H.
  destruct (m w) as [[a| |] w1] eqn:E.
  - rewrite (Hk _ _ _ _ H). eapply Hm, E.
  - inversion H; subst. eapply Hm, E.
  - inversion H; subst. eapply Hm, E.
Qed.

Lemma keeps_fuel {A} (f : nat -> M A) (g : World -> nat) :
  (forall n, keeps (f n)) -> keeps (fun w => f (g w) w).
Proof. intros Hf w r w' H. eapply Hf, H. Qed.

Lemma keeps_emit (e : event) : keeps (emit e).
Proof. intros w r w' H. now inversion H. Qed.

Lemma keeps_read (p : peer) (n : Z) : keeps (read p n).
Proof. intros w r w' H. inversion H. now rewrite policy_set_input. Qed.

Lemma keeps_readline (p : peer) : keeps (readline p).
Proof.
  intros w r w' H. unfold readline in H.
  repeat case_match; inversion H; apply policy_set_input.
Qed.

Lemma keeps_randrange (k : Z) : keeps (randrange k).
Proof. intros w r w' H. unfold randrange in H. case_match; now inversion H. Qed.

Lemma keeps_get_policy (key : bytes) : keeps (get_policy key).
Proof. intros w r w' H. now inversion H. Qed.

Lemma keeps_lift {A} (e : exn) (o : option A) : keeps (lift e o).
Proof. destruct o; [apply keeps_ret | apply keeps_raise]. Qed.

Create HintDb keeps.
#[local] Hint Resolve keeps_ret keeps_raise keeps_out_of_fuel keeps_read
  keeps_readline keeps_randrange keeps_get_policy keeps_lift : keeps.
#[local] Hint Extern 1 (keeps (write _ _)) => apply keeps_emit : keeps.
#[local] Hint Extern 1 (keeps (drain _)) => apply keeps_emit : keeps.
#[local] Hint Extern 1 (keeps (close _)) => apply keeps_emit : keeps.
#[local] Hint Extern 1 (keeps (sleep _)) => apply keeps_emit : keeps.
#[local] Hint Extern 2 (keeps (bind _ _)) => apply keeps_bind; [|intros ?] : keeps.
#[local] Hint Extern 3 (keeps (if ?b then _ else _)) => destruct b : keeps.
#[local] Hint Extern 3 (keeps (match ?x with _ => _ end)) => destruct x : keeps.
#[local] Hint Extern 3 (keeps (let (_, _) := ?x in _)) => destruct x : keeps.

Ltac keeps_tac := auto 30 with keeps.

Lemma keeps_nextline (h : HttpStream) : keeps (nextline h).
Proof. unfold nextline. keeps_tac. Qed.

Lemma keeps_tee (tunnel : bool) (h : HttpStream) (data : bytes) :
  keeps (tee tunnel h data).
Proof. unfold tee, hwrite. keeps_tac. Qed.

Lemma keeps_decode (b : bytes) : keeps (decode b).
Proof. unfold decode. keeps_tac. Qed.

#[local] Hint Resolve keeps_nextline keeps_tee keeps_decode : keeps.

Lemma keeps_choice (seq : bytes) : keeps (choice seq).
Proof. unfold choice. keeps_tac. Qed.

#[local] Hint Resolve keeps_choice : keeps.

Lemma keeps_random_str (size : nat) : keeps (random_str size).
Proof. induction size; cbn [random_str]; keeps_tac. Qed.

Lemma keeps_random_split_loop (fuel : nat) :
  forall s step, keeps (random_split_loop fuel s step).
Proof.
  induction fuel as [|fuel IH]; intros [|c s] step; cbn [random_split_loop];
    keeps_tac.
Qed.

Lemma keeps_write_segments (segs : list bytes) : keeps (write_segments segs).
Proof. induction segs; cbn [write_segments]; keeps_tac. Qed.

#[local] Hint Resolve keeps_random_str keeps_random_split_loop
  keeps_write_segments : keeps.

Lemma keeps_dummy_fields (count : nat) : keeps (dummy_fields count).
Proof. induction count; cbn [dummy_fields]; keeps_tac. Qed.

#[local] Hint Resolve keeps_dummy_fields : keeps.

Lemma keeps_tunnel_chunk_loop (fuel : nat) (h : HttpStream) :
  forall n, keeps (tunnel_chunk_loop fuel h n).
Proof.
  induction fuel as [|fuel IH]; intros n; cbn [tunnel_chunk_loop];
    unfold hwrite; keeps_tac.
Qed.

#[local] Hint Resolve keeps_tunnel_chunk_loop : keeps.

Lemma keeps_tunnel_chunk (h : HttpStream) : keeps (tunnel_chunk h).
Proof.
  unfold tunnel_chunk. apply keeps_bind; [keeps_tac|].
  intros n. apply (keeps_fuel (fun fuel => tunnel_chunk_loop fuel h n)).
  keeps_tac.
Qed.

#[local] Hint Resolve keeps_tunnel_chunk : keeps.

Section Keeps.
Context {py : PyLib}.

Lemma keeps_next_header_field (tunnel : bool) (h : HttpStream) :
  keeps (next_header_field tunnel h).
Proof. unfold next_header_field. keeps_tac. Qed.

Lemma keeps_next_chunk_ready (tunnel : bool) (h : HttpStream) :
  keeps (next_chunk_ready tunnel h).
Proof. unfold next_chunk_ready. keeps_tac. Qed.

Hint Resolve keeps_next_header_field keeps_next_chunk_ready : keeps.

Lemma keeps_request_fields (fuel : nat) :
  forall h lines host, keeps (request_fields fuel h lines host).
Proof.
  induction fuel as [|fuel IH]; intros h lines host; cbn [request_fields];
    keeps_tac.
Qed.

Lemma keeps_relay_body (fuel : nat) : forall h, keeps (relay_body fuel h).
Proof.
  induction fuel as [|fuel IH]; intros h; cbn [relay_body]; keeps_tac.
Qed.

Hint Resolve keeps_request_fields keeps_relay_body : keeps.

(** The request task never writes the policy map. *)
Lemma keeps_handle_request (self : NagatoStream)
    (req : bytes * ParseResult * bytes) : keeps (handle_request self req).
Proof.
  destruct req as [[method url] version].
  unfold handle_request, request_head, request_tail, write_host_line,
    random_split.
  repeat (first
    [ apply keeps_bind; [|intros ?]
    | apply (keeps_fuel (fun fuel => request_fields fuel _ _ _))
    | apply (keeps_fuel (fun fuel => relay_body fuel _))
    | match goal with a : (_ * _)%type |- _ => destruct a end
    | progress keeps_tac ]).
Qed.

End Keeps.

(** ** The policy map across sessions *)

Lemma set_policy_same (w : World) : set_policy (host_abs_url w) w = w.
Proof. now destruct w. Qed.

Section Policy.
Context {py : PyLib}.

(** What one step may do to an entry: nothing, unless the step is the
    response of a task of that very origin. *)
Lemma step_entry (p p' : process) (key : bytes) :
  step p p' ->
  policy p' !! key = policy p !! key
  \/ exists i t v,
       tasks p !! i = Some t /\ t_phase t = InResponse
       /\ origin_key (t_self t) = key /\ policy p' !! key = Some v.
Proof.
  intros [p0 self io | p0 i t Ht Hph | p0 i t r io' Ht Hph Hrun
         | p0 i t req r io' Ht Hrun
         | p0 i t method url version io1 r io' Ht Hline Hrun]; cbn [policy].
  - now left.
  - now left.
  - pose proof (handle_response_effect (t_self t) (set_policy (policy p0) (t_io t)))
      as He.
    rewrite Hrun in He.
    assert (Hcase : host_abs_url io' = policy p0
                    \/ exists v, host_abs_url io'
                                 = <[origin_key (t_self t) := v]> (policy p0))
      by (destruct r; [exact He | exact He | contradiction]).
    destruct Hcase as [-> | [v ->]]; [now left|].
    destruct (decide (origin_key (t_self t) = key)) as [Hk|Hk].
    + right. exists i, t, v. subst key. now rewrite lookup_insert_eq.
    + left. now rewrite lookup_insert_ne.
  - left. now rewrite (keeps_handle_request _ _ _ _ _ Hrun).
  - left. cbn [handle_request_any] in Hrun.
    unfold bind, get_policy, raise in Hrun. now inversion Hrun.
Qed.

(** No step puts a task of an origin whose entry is set into
    [handle_response]. *)
Lemma step_no_new_response (p p' : process) (key : bytes) :
  step p p' ->
  is_Some (policy p !! key) ->
  (forall i t, tasks p !! i = Some t -> origin_key (t_self t) = key ->
               t_phase t <> InResponse) ->
  forall i t, tasks p' !! i = Some t -> origin_key (t_self t) = key ->
              t_phase t <> InResponse.
Proof.
  intros [p0 self io | p0 j t Ht Hph | p0 j t r io' Ht Hph Hrun
         | p0 j t req r io' Ht Hrun
         | p0 j t method url version io1 r io' Ht Hline Hrun]
         [v Hv] Hinv i t' Hi Hkey;
    cbn [tasks policy] in *.
  - apply lookup_app_Some in Hi. destruct Hi as [Hi|[_ Hi]]; [eauto|].
    apply list_lookup_singleton_Some in Hi. destruct Hi as [_ <-]. discriminate.
  - apply list_lookup_insert_Some in Hi.
    destruct Hi as [(-> & <- & _)|[_ Hi]]; [|eauto].
    cbn in *. rewrite Hkey, Hv. discriminate.
  - apply list_lookup_insert_Some in Hi.
    destruct Hi as [(-> & <- & _)|[_ Hi]]; [|eauto].
    cbn. destruct r; discriminate.
  - apply list_lookup_insert_Some in Hi.
    destruct Hi as [(-> & <- & _)|[_ Hi]]; [|eauto].
    cbn in *. eapply Hinv; eauto.
  - apply list_lookup_insert_Some in Hi.
    destruct Hi as [(-> & <- & _)|[_ Hi]]; [|eauto].
    cbn in *. eapply Hinv; eauto.
Qed.

(** C8, as the code has it.  An entry of the policy map is never removed.
    Its value is written only by a response task that found the entry
    absent when it last tested it; so an entry that is set keeps its value
    for ever, provided no response task of the same origin is inside
    [handle_response] at that moment. *)
Theorem policy_entry_is_stable (p p' : process) (key : bytes) (v : bool) :
  steps p p' ->
  policy p !! key = Some v ->
  is_Some (policy p' !! key)
  /\ ((forall i t, tasks p !! i = Some t -> origin_key (t_self t) = key ->
                   t_phase t <> InResponse) ->
      policy p' !! key = Some v).
Proof.
  intros Hsteps. revert v.
  induction Hsteps as [p|p1 p2 p3 Hstep Hsteps IH]; intros v Hv.
  - split; [now exists v | auto].
  - split.
    + destruct (step_entry _ _ key Hstep) as [He|(_ & _ & v' & _ & _ & _ & He)].
      * rewrite <- He in Hv. apply (IH _ Hv).
      * apply (IH _ He).
    + intros Hinv.
      destruct (step_entry _ _ key Hstep) as [He|(i & t & _ & Ht & Hph & Hk & _)].
      * rewrite <- He in Hv. apply (IH _ Hv).
        eapply step_no_new_response; eauto. rewrite <- He. eauto.
      * exfalso. eapply Hinv; eauto.
Qed.

(** The loop of [handle_responses], run alone, is one path of the
    process. *)
Lemma responses_loop_is_a_path (fuel : nat) (self : NagatoStream) :
  forall (w w' : World) (r : outcome unit),
    responses_loop fuel self w = (r, w') ->
    r <> OutOfFuel ->
    exists ph,
      steps (mkProcess (host_abs_url w) [mkTask self w AtLoopHead])
            (mkProcess (host_abs_url w') [mkTask self w' ph]).
Proof.
  induction fuel as [|fuel IH]; intros w w' r Hrun Hr; cbn in Hrun.
  - inversion Hrun. congruence.
  - unfold bind, get_policy in Hrun.
    pose proof (step_check (mkProcess (host_abs_url w) [mkTask self w AtLoopHead])
                  0 (mkTask self w AtLoopHead) eq_refl eq_refl) as Hcheck.
    cbn in Hcheck.
    destruct (host_abs_url w !! origin_key self) as [b|] eqn:Hentry.
    + inversion Hrun; subst. exists Tunnelling.
      eapply steps_step; [exact Hcheck | apply steps_refl].
    + pose proof (step_respond
                    (mkProcess (host_abs_url w) [mkTask self w InResponse])
                    0 (mkTask self w InResponse)) as Hresp.
      cbn in Hresp. rewrite set_policy_same in Hresp.
      destruct (handle_response self w) as [[[]| |] w1] eqn:Hrun1.
      * destruct (IH _ _ _ Hrun Hr) as [ph Hpath]. exists ph.
        eapply steps_step; [exact Hcheck|].
        eapply steps_step; [|exact Hpath].
        apply (Hresp (Ret tt) w1 eq_refl eq_refl eq_refl).
      * inversion Hrun; subst. exists Ended.
        eapply steps_step; [exact Hcheck|].
        eapply steps_step; [|apply steps_refl].
        apply (Hresp (Raise e) w' eq_refl eq_refl eq_refl).
      * inversion Hrun. congruence.
Qed.

End Policy.

(** With the entry of [example.com:80] set and no response in flight, a
    later session to that origin goes straight to tunnelling, though its
    upstream would answer 403, and the entry stays [True]. *)
Lemma policy_entry_is_stable_witness :
  let p' := mkProcess {[ B "example.com:80" := true ]}
              [mkTask example_session (world0 [] response_403) Tunnelling] in
  is_Some (policy p' !! B "example.com:80")
  /\ policy p' !! B "example.com:80" = Some true.
Proof.
  intros p'.
  assert (Hsteps : @steps simple_py settled_session p').
  { eapply steps_step; [|apply steps_refl].
    exact (@step_check simple_py settled_session 0 _ eq_refl eq_refl). }
  destruct (@policy_entry_is_stable simple_py settled_session p'
              (B "example.com:80") true Hsteps eq_refl) as [Hsome Hstable].
  split; [exact Hsome|]. apply Hstable.
  intros i t Hi _. destruct i as [|i]; [|destruct i; discriminate].
  inversion Hi. discriminate.
Defined.

(** C8 as stated fails when two sessions to one origin overlap.  Both
    response tasks find the entry absent; the first response, a 200, sets
    it to [True]; the second, a 403, then sets it to [False]. *)
Lemma policy_entry_overwritten_by_concurrent_session :
  exists p1 p2,
    @steps simple_py two_sessions p1
    /\ @step simple_py p1 p2
    /\ policy two_sessions !! B "example.com:80" = None
    /\ policy p1 !! B "example.com:80" = Some true
    /\ policy p2 !! B "example.com:80" = Some false.
Proof.
  pose proof (@step_check simple_py two_sessions 0 _ eq_refl eq_refl) as H1.
  match type of H1 with step _ ?p =>
    pose proof (@step_check simple_py p 1 _ eq_refl eq_refl) as H2 end.
  match type of H2 with step _ ?p =>
    pose proof (@step_respond simple_py p 0 _ _ _ eq_refl eq_refl
                  (surjective_pairing _)) as H3 end.
  match type of H3 with step _ ?p =>
    pose proof (@step_respond simple_py p 1 _ _ _ eq_refl eq_refl
                  (surjective_pairing _)) as H4 end.
  eexists _, _. split; [|split; [exact H4|]].
  - eapply steps_step; [exact H1|].
    eapply steps_step; [exact H2|].
    eapply steps_step; [exact H3|]. apply steps_refl.
  - split; [reflexivity|]. split; vm_compute; reflexivity.
Qed.

(** ** The request task always comes back *)

Lemma choice_letters_returns (w : World) :
  exists c, choice letters w = (Ret c, set_rng (tail (rng w)) w).
Proof.
  unfold choice. change letters with ("a"%char :: tail letters).
  cbv beta iota. unfold bind.
  destruct (randrange_in_range (Z.of_nat (length ("a"%char :: tail letters))) w)
    as (i & -> & _); [vm_compute; reflexivity|].
  eexists. reflexivity.
Qed.

Lemma random_str_returns (size : nat) :
  forall w, exists s w', random_str size w = (Ret s, w').
Proof.
  induction size as [|size IH]; intros w; cbn [random_str].
  - eexists _, _. reflexivity.
  - unfold bind at 1.
    destruct (choice_letters_returns w) as (c & ->).
    destruct (IH (set_rng (tail (rng w)) w)) as (s & w' & Hs).
    unfold bind. rewrite Hs. eexists _, _. reflexivity.
Qed.

Lemma dummy_fields_returns (count : nat) :
  forall w, exists w', dummy_fields count w = (Ret tt, w').
Proof.
  induction count as [|count IH]; intros w; cbn [dummy_fields].
  - eexists. reflexivity.
  - unfold bind at 1.
    destruct (random_str_returns 16 w) as (name & w1 & ->).
    unfold bind at 1.
    destruct (random_str_returns 128 w1) as (value & w2 & ->).
    unfold bind at 1, write, emit. apply IH.
Qed.

Section RequestReturns.
Context {py : PyLib}.

Lemma next_header_field_reads (h : HttpStream) (w : World) :
  match next_header_field false h w with
  | (Ret (item, h'), w') =>
      reader h' = reader h /\ writer h' = writer h
      /\ (forall name value,
            item = Field name value ->
            (length (input (reader h) w') < length (input (reader h) w))%nat)
  | (Raise _, _) => True
  | (OutOfFuel, _) => False
  end.
Proof.
  unfold next_header_field. destruct (field_done h).
  { cbn. repeat split; discriminate. }
  unfold bind. pose proof (nextline_cases h w) as Hn.
  destruct (nextline h w) as [[line| |] w1]; [|exact I|exact Hn].
  destruct Hn as (Hne & Hin & _). cbn [tee]. unfold ret at 1.
  assert (Hlt : (length (input (reader h) w1) < length (input (reader h) w))%nat).
  { rewrite Hin, length_app. destruct line; [contradiction | simpl; lia]. }
  unfold decode, lift, ret, raise.
  repeat case_match; simplify_eq; cbn; auto.
Qed.

Lemma request_fields_returns (fuel : nat) :
  forall (h : HttpStream) (lines : list bytes) (host : option bytes) (w : World),
    (length (input (reader h) w) < fuel)%nat ->
    match request_fields fuel h lines host w with
    | (Ret (h', _, _), _) => reader h' = reader h /\ writer h' = writer h
    | (Raise _, _) => True
    | (OutOfFuel, _) => False
    end.
Proof.
  induction fuel as [|fuel IH]; intros h lines host w Hfuel; [lia|].
  cbn [request_fields]. unfold bind.
  pose proof (next_header_field_reads h w) as Hn.
  destruct (next_header_field false h w) as [[[item h']| |] w1];
    [|exact I|exact Hn].
  destruct Hn as (Hr & Hw & Hlt).
  destruct item as [name value|line|]; [|now split|now split].
  specialize (Hlt name value eq_refl).
  assert (Hf : (length (input (reader h') w1) < fuel)%nat) by (rewrite Hr; lia).
  destruct (bytes_eqb (lower name) (lower (B "Host")));
    [|destruct (bytes_eqb (lower name) (lower (B "Proxy-Connection")))].
  all: match goal with
       | |- context [request_fields ?f ?hh ?l ?o ?ww] =>
           specialize (IH hh l o ww Hf);
           destruct (request_fields f hh l o ww) as [[[[h2 fl] ho]| |] w2];
           auto; rewrite <- Hr, <- Hw; exact IH
       end.
Qed.

(** [handle_request] ends with a result or an exception, never for want
    of fuel. *)
Lemma handle_request_returns (self : NagatoStream)
    (req : bytes * ParseResult * bytes) (w : World) :
  fst (handle_request self req w) <> OutOfFuel.
Proof.
  destruct req as [[method url] version].
  unfold handle_request, bind at 1, request_head, bind at 1, get_policy.
  unfold bind at 1, write at 1, emit.
  set (is_absolute := default true _).
  match goal with |- context [(?m ;; ?k) (log ?e w)] =>
    set (w0 := log e w);
    assert (Hd : exists w1, m w0 = (Ret tt, w1))
  end.
  { destruct (negb is_absolute); [|eexists; reflexivity].
    destruct (dummy_fields_returns 8 w0) as (w1 & Hw1).
    unfold bind. rewrite Hw1. eexists. reflexivity. }
  destruct Hd as (w1 & Hd). unfold bind at 1. rewrite Hd.
  unfold bind at 1.
  pose proof (request_fields_returns (S (S (length (client_in w1))))
                (HttpStream_init Client (Some Server)) [] None w1) as Hf.
  destruct (request_fields _ _ [] None w1) as [[[[http fl] host]| |] w2];
    [|cbn; discriminate|exfalso; apply Hf; cbn; lia].
  destruct Hf as [Hr Hw]; [cbn; lia|]. unfold ret at 1.
  unfold request_tail, bind at 1, write at 1, emit.
  match goal with |- context [write_host_line ?s ?a ?o] =>
    assert (Hh : forall w3, match write_host_line s a o w3 with
                            | (OutOfFuel, _) => False | _ => True end)
  end.
  { intros w3. unfold write_host_line.
    destruct (_ || _)%bool; [|exact I].
    unfold bind at 1. destruct (lift TypeError _ w3) as [[hv| |] w4] eqn:Hl;
      [|exact I|destruct (py_or host _); discriminate].
    destruct (random_split_loop_covers
                (length (drop 2 (B "hoSt:" ++ hv ++ CRLF)))
                (drop 2 (B "hoSt:" ++ hv ++ CRLF)) 6 w4)
      as (segs & w5 & Hsp & _); [lia|lia|].
    unfold bind, random_split. rewrite Hsp.
    destruct (write_segments_events (take 2 (B "hoSt:" ++ hv ++ CRLF) :: segs) w5)
      as (sl & w6 & -> & _). exact I. }
  unfold bind at 1.
  match goal with |- context [write_host_line ?s ?a ?o ?w3] =>
    specialize (Hh w3); destruct (write_host_line s a o w3) as [[[]| |] w4]
  end; [|cbn; discriminate|contradiction].
  unfold bind at 1, write at 1, emit. unfold bind.
  pose proof (relay_body_relays Client Server
                (S (S (length (client_in (log (Write Server CRLF) w4)))))
                http (log (Write Server CRLF) w4) Hr Hw) as Hb.
  destruct (relay_body _ http _) as [[h3| |] w5]; cbn; try discriminate.
  exfalso. apply Hb. destruct (body_done http), (chunked http); cbn; lia.
Qed.

End RequestReturns.

(** * Further properties of the code *)

(** ** tunnel_stream *)

Lemma tunnel_stream_loop_copies (r wr : peer) (fuel : nat) :
  forall w : World,
    (length (input r w) < fuel)%nat ->
    exists writes wl,
      tunnel_stream_loop fuel r wr w = (Ret tt, wl)
      /\ Forall (fun d => d <> [] /\ Z.of_nat (length d) <= 65536) writes
      /\ concat writes = input r w
      /\ trace wl = trace w ++ map (Write wr) writes
      /\ input r wl = []
      /\ host_abs_url wl = host_abs_url w.
Proof.
  induction fuel as [|fuel IH]; intros w Hfuel; [lia|].
  cbn [tunnel_stream_loop]. unfold bind at 1.
  destruct (read_cases r 65536 w) as (k & -> & Hk1 & Hk2 & Hk3); [lia|].
  remember (input r w) as buf eqn:Hbuf.
  set (w1 := set_input r (drop k buf) (set_arrivals (tail (arrivals w)) w)).
  destruct (decide (buf = [])) as [He|Hne].
  - rewrite He in *. rewrite take_nil. unfold ret.
    exists [], w1. split; [reflexivity|]. split; [constructor|].
    split; [reflexivity|]. unfold w1. cbn [map].
    rewrite app_nil_r, trace_set_input, input_set_input, policy_set_input.
    rewrite ?He, ?drop_nil. repeat split; reflexivity.
  - specialize (Hk3 Hne).
    assert (Htk : length (take k buf) = k) by (rewrite length_take; lia).
    destruct (take k buf) as [|c d] eqn:Htake; [simpl in Htk; lia|].
    unfold bind, write, emit.
    destruct (IH (log (Write wr (c :: d)) w1))
      as (writes & wl & Hrun & Hall & Hcat & Htr & Hin & Hpol).
    { unfold w1. rewrite input_log, input_set_input, length_drop. lia. }
    rewrite Hrun. exists ((c :: d) :: writes), wl.
    split; [reflexivity|]. split.
    { constructor; [|exact Hall]. split; [discriminate|]. rewrite Htk. lia. }
    unfold w1 in Hcat, Htr, Hpol.
    rewrite input_log, input_set_input in Hcat.
    cbn [log trace host_abs_url] in Htr, Hpol.
    rewrite trace_set_input in Htr. rewrite policy_set_input in Hpol.
    split; [|split; [|split]].
    + cbn [concat]. rewrite Hcat, <- Htake. apply take_drop.
    + rewrite Htr. cbn [map set_arrivals trace]. now rewrite <- app_assoc.
    + exact Hin.
    + exact Hpol.
Qed.

(** X1.  Whatever the sizes in which the bytes arrive, [tunnel_stream]
    writes to its writer everything its reader still receives, in
    non-empty buffers of at most 65536 bytes whose concatenation is the
    input, then closes the writer, and ends by calling [closing]; nothing
    is left unread and the policy map is not touched before [closing]. *)
Theorem tunnel_stream_copies_everything (r wr : peer) (closing : M unit)
    (w : World) :
  exists writes w1,
    Forall (fun d => d <> [] /\ Z.of_nat (length d) <= 65536) writes
    /\ concat writes = input r w
    /\ trace w1 = trace w ++ map (Write wr) writes ++ [Close wr]
    /\ input r w1 = []
    /\ host_abs_url w1 = host_abs_url w
    /\ tunnel_stream r wr closing w = (closing ;; ret tt) w1.
Proof.
  destruct (tunnel_stream_loop_copies r wr (S (length (input r w))) w)
    as (writes & wl & Hrun & Hall & Hcat & Htr & Hin & Hpol); [lia|].
  exists writes, (log (Close wr) wl).
  split; [exact Hall|]. split; [exact Hcat|].
  split; [cbn [log trace]; now rewrite Htr, <- app_assoc|].
  split; [now rewrite input_log|]. split; [exact Hpol|].
  unfold tunnel_stream, finally. rewrite Hrun.
  unfold bind at 1, close, emit. unfold bind, ret.
  destruct (closing (log (Close wr) wl)) as [[[]| |] w2]; reflexivity.
Qed.

(** ** random_str *)

Lemma choice_letters_in (w : World) :
  exists c, choice letters w = (Ret c, set_rng (tail (rng w)) w) /\ In c letters.
Proof.
  unfold choice. change letters with ("a"%char :: tail letters).
  cbv beta iota. unfold bind.
  destruct (randrange_in_range (Z.of_nat (length ("a"%char :: tail letters))) w)
    as (i & -> & Hi); [vm_compute; reflexivity|].
  eexists. split; [reflexivity|]. apply nth_In. lia.
Qed.

Lemma random_str_draws (size : nat) (w : World) :
  exists s w',
    random_str size w = (Ret s, w')
    /\ length s = size
    /\ Forall (fun c => In c letters) s
    /\ w' = set_rng (drop size (rng w)) w.
Proof.
  revert w. induction size as [|size IH]; intros w; cbn [random_str].
  - exists [], w. repeat split; [constructor | now destruct w].
  - unfold bind at 1.
    destruct (choice_letters_in w) as (c & -> & Hc).
    destruct (IH (set_rng (tail (rng w)) w)) as (s & w' & Hs & Hlen & Hall & Hw').
    unfold bind. rewrite Hs. exists (c :: s), w'. unfold ret.
    split; [reflexivity|]. split; [simpl; lia|].
    split; [constructor; assumption|].
    rewrite Hw'. unfold set_rng. cbn. f_equal.
    destruct (rng w); simpl; [apply drop_nil | reflexivity].
Qed.

(** X2.  [random_str(size)] returns exactly [size] characters, each one a
    letter of the 52-letter alphabet, and takes exactly [size] draws from
    the random source, whatever they are. *)
Theorem random_str_length_and_alphabet (size : nat) (w : World) :
  exists s w',
    random_str size w = (Ret s, w')
    /\ length s = size
    /\ Forall (fun c => In c letters) s
    /\ w' = set_rng (drop size (rng w)) w.
Proof. apply random_str_draws. Qed.

(** ** The request task and the policy map *)

(** X3.  [handle_request] only ever reads the policy map: however it ends,
    with a result or with an exception, the map is as it found it; and it
    always ends. *)
Theorem request_task_never_writes_policy {py : PyLib} (self : NagatoStream)
    (req : bytes * ParseResult * bytes) (w : World) :
  host_abs_url (snd (handle_request self req w)) = host_abs_url w
  /\ fst (handle_request self req w) <> OutOfFuel.
Proof.
  split; [|apply handle_request_returns].
  destruct (handle_request self req w) as [r w'] eqn:H.
  exact (keeps_handle_request self req _ _ _ H).
Qed.

(** ** The request task: the request line and the dummy fields *)

Lemma same_streams_refl (w : World) : same_streams w w.
Proof. repeat split. Qed.

Lemma same_streams_trans (w1 w2 w3 : World) :
  same_streams w1 w2 -> same_streams w2 w3 -> same_streams w1 w3.
Proof.
  unfold same_streams. intros (a1 & a2 & a3 & a4 & a5) (b1 & b2 & b3 & b4 & b5).
  rewrite b1, b2, b3, b4, b5. auto.
Qed.

Lemma dummy_fields_lines (count : nat) :
  forall w : World,
    exists dummies w',
      dummy_fields count w = (Ret tt, w')
      /\ length dummies = count
      /\ Forall is_dummy_field dummies
      /\ trace w' = trace w ++ map (Write Server) dummies
      /\ same_streams w w'.
Proof.
  induction count as [|count IH]; intros w; cbn [dummy_fields].
  - exists [], w. cbn. rewrite app_nil_r.
    repeat split; constructor.
  - unfold bind at 1.
    destruct (random_str_draws 16 w) as (name & w1 & -> & Hn & Hna & Hw1).
    unfold bind at 1.
    destruct (random_str_draws 128 w1) as (value & w2 & -> & Hv & Hva & Hw2).
    unfold bind at 1, write, emit.
    destruct (IH (log (Write Server (B "X-" ++ name ++ B ": " ++ value ++ CRLF)) w2))
      as (dummies & w' & Hrun & Hlen & Hall & Htr & Hsame).
    rewrite Hrun.
    exists ((B "X-" ++ name ++ B ": " ++ value ++ CRLF) :: dummies), w'.
    split; [reflexivity|]. split; [simpl; lia|]. split.
    { constructor; [|exact Hall]. exists name, value. auto. }
    split.
    + rewrite Htr, Hw2, Hw1. cbn. now rewrite <- app_assoc.
    + eapply same_streams_trans; [|exact Hsame].
      rewrite Hw2, Hw1. repeat split.
Qed.

Section RequestLine.
Context {py : PyLib}.

(** X4.  For an origin in passthrough mode (entry [False]), the request
    task first sends the request line with scheme and authority removed
    from the URL, then exactly eight dummy fields of the form
    [X-<16 letters>: <128 letters>], then flushes, and only then reads the
    header fields of the client; up to there it reads nothing from either
    side. *)
Theorem passthrough_request_line_and_dummies (self : NagatoStream)
    (method version : bytes) (url : ParseResult) (w : World) :
  host_abs_url w !! origin_key self = Some false ->
  exists dummies w1,
    length dummies = 8%nat
    /\ Forall is_dummy_field dummies
    /\ trace w1 = trace w
         ++ Write Server (method ++ [SP] ++ geturl (replace_scheme_netloc [] [] url)
                          ++ [SP] ++ version ++ CRLF)
         :: map (Write Server) dummies ++ [Drain Server]
    /\ same_streams w w1
    /\ request_head self (method, url, version) w
       = (let* collected :=
            (fun w => request_fields (S (S (length (client_in w))))
                        (HttpStream_init Client (Some Server)) [] None w) in
          ret (set_last_url url self, false, collected)) w1.
Proof.
  intros Hmode. unfold request_head, bind at 1, get_policy.
  change (origin_key (set_last_url url self)) with (origin_key self).
  rewrite Hmode. change (default true (Some false)) with false.
  cbn [negb]. cbv iota. unfold bind at 1, write at 1, emit.
  match goal with |- context [dummy_fields 8 ;; _] =>
    match goal with |- context [log ?e w] =>
      destruct (dummy_fields_lines 8 (log e w))
        as (dummies & w1 & Hrun & Hlen & Hall & Htr & Hsame)
    end
  end.
  exists dummies, (log (Drain Server) w1).
  split; [exact Hlen|]. split; [exact Hall|].
  split; [|split].
  - cbn [log trace]. rewrite Htr. cbn [log trace].
    rewrite <- !app_assoc. reflexivity.
  - destruct Hsame as (H1 & H2 & H3 & H4 & H5). repeat split; assumption.
  - unfold bind at 1. unfold bind at 1. rewrite Hrun.
    unfold drain, emit. reflexivity.
Qed.

End RequestLine.

Lemma passthrough_request_line_and_dummies_witness :
  exists dummies w1,
    length dummies = 8%nat
    /\ Forall is_dummy_field dummies
    /\ trace w1 = []
         ++ Write Server (B "GET" ++ [SP]
                          ++ @geturl simple_py (replace_scheme_netloc [] [] example_url)
                          ++ [SP] ++ B "HTTP/1.1" ++ CRLF)
         :: map (Write Server) dummies ++ [Drain Server]
    /\ same_streams (mkWorld CRLF [] [] [] true [] {[ B "example.com:80" := false ]}) w1
    /\ @request_head simple_py example_session (B "GET", example_url, B "HTTP/1.1")
         (mkWorld CRLF [] [] [] true [] {[ B "example.com:80" := false ]})
       = (let* collected :=
            (fun w => @request_fields simple_py (S (S (length (client_in w))))
                        (HttpStream_init Client (Some Server)) [] None w) in
          ret (set_last_url example_url example_session, false, collected)) w1.
Proof.
  apply (@passthrough_request_line_and_dummies simple_py example_session
           (B "GET") (B "HTTP/1.1") example_url
           (mkWorld CRLF [] [] [] true [] {[ B "example.com:80" := false ]})).
  reflexivity.
Defined.

(** ** The request task: the header fields of the client *)

Section RequestFields.
Context {py : PyLib}.






End RequestFields.


(** ** The body of a message *)

Lemma is_line_length (line : bytes) : is_line line -> (1 <= length line)%nat.
Proof. intros (body & -> & _). rewrite length_app. simpl. lia. Qed.

Lemma tunnel_chunk_copies (h : HttpStream) (q : peer) (n : Z) (w : World) :
  writer h = Some q ->
  (if chunked h then chunk_len h = Some n else body_len h = n) ->
  exists r writes w',
    tunnel_chunk h w = (r, w')
    /\ trace w' = trace w ++ map (Write q) writes
    /\ Forall (fun d => Z.of_nat (length d) <= 65536) writes
    /\ (if (Z.to_nat n <=? length (input (reader h) w))%nat
        then r = Ret tt
             /\ concat writes = take (Z.to_nat n) (input (reader h) w)
             /\ input (reader h) w' = drop (Z.to_nat n) (input (reader h) w)
        else r = Raise EOFError
             /\ concat writes = input (reader h) w
             /\ input (reader h) w' = []).
Proof.
  intros Hw Hn. unfold tunnel_chunk, bind.
  assert (Hsel : (if negb (chunked h) then ret (body_len h)
                  else lift TypeError (chunk_len h)) w = (Ret n, w)).
  { destruct (chunked h); simpl; [now rewrite Hn | now rewrite Hn]. }
  rewrite Hsel.
  destruct (tunnel_chunk_loop_copies h q Hw (S (length (input (reader h) w))) n w)
    as (r & writes & w' & Hrun & Htr & Hall & _ & Hres); [lia|].
  exists r, writes, w'. auto.
Qed.

Section Body.
Context {py : PyLib}.
Variables (p q : peer).

(** X6.  Without chunked encoding the body loop copies exactly the number
    of bytes that Content-Length declared: when the reader holds at least
    that many, these and no more are taken and written, in buffers of at
    most 65536 bytes, and the loop ends with [body_done] set; when it ends
    earlier, what there was is copied and [EOFError] is raised.  A length
    that is zero or negative, or the absence of the field, means no body:
    nothing is read or written. *)
Theorem content_length_body_is_copied_exactly (fuel : nat) (h : HttpStream)
    (w : World) :
  reader h = p -> writer h = Some q ->
  chunked h = false -> body_done h = false ->
  (2 <= fuel)%nat ->
  exists r writes w',
    relay_body fuel h w = (r, w')
    /\ trace w' = trace w ++ map (Write q) writes
    /\ Forall (fun d => Z.of_nat (length d) <= 65536) writes
    /\ (body_len h <= 0 -> w' = w)
    /\ (if (Z.to_nat (body_len h) <=? length (input p w))%nat
        then r = Ret (set_body_done true h)
             /\ concat writes = take (Z.to_nat (body_len h)) (input p w)
             /\ input p w' = drop (Z.to_nat (body_len h)) (input p w)
        else r = Raise EOFError
             /\ concat writes = input p w
             /\ input p w' = []).
Proof.
  intros Hr Hw Hc Hd Hfuel.
  destruct fuel as [|[|fuel]]; [lia|lia|].
  set (h1 := set_body_done true h).
  assert (Hstep : next_chunk_ready true h w
                  = (Ret (if body_len h >? 0 then ChunkLen (body_len h)
                          else BodyDone, h1), w)).
  { unfold next_chunk_ready. rewrite Hd, Hc. cbn [negb].
    change (body_len (set_body_done true h)) with (body_len h).
    fold h1. now destruct (body_len h >? 0). }
  assert (Hdone : forall f w1, relay_body (S f) h1 w1 = (Ret h1, w1)).
  { intros f w1. reflexivity. }
  cbn [relay_body]. unfold bind at 1. rewrite Hstep.
  destruct (Z.gtb_spec (body_len h) 0) as [Hpos|Hneg].
  - destruct (tunnel_chunk_copies h1 q (body_len h) w Hw)
      as (r & writes & w' & Hrun & Htr & Hall & Hres).
    { change (chunked h1) with (chunked h). now rewrite Hc. }
    change (reader h1) with (reader h) in Hres. rewrite Hr in Hres.
    unfold bind at 1. rewrite Hrun.
    destruct (_ <=? _)%nat; destruct Hres as (-> & Hcat & Hin).
    + change (relay_body (S fuel) h1 w') with (Ret h1, w').
      exists (Ret h1), writes, w'. split; [reflexivity|].
      split; [exact Htr|]. split; [exact Hall|]. split; [lia|]. auto.
    + exists (Raise EOFError), writes, w'. split; [reflexivity|].
      split; [exact Htr|]. split; [exact Hall|]. split; [lia|]. auto.
  - exists (Ret h1), [], w.
    split; [reflexivity|]. split; [cbn; now rewrite app_nil_r|].
    split; [constructor|]. split; [reflexivity|].
    replace (Z.to_nat (body_len h)) with 0%nat by lia. cbn. auto.
Qed.

Section Chunked.
Variable h : HttpStream.
Hypothesis Hr : reader h = p.
Hypothesis Hw : writer h = Some q.
Hypothesis Hc : chunked h = true.
Hypothesis Hd : body_done h = false.
Hypothesis Hl : chunk_len h = None.

(** Two turns of the body loop take one chunk off the wire. *)
Lemma relay_body_one_chunk (c : chunk) (rest : bytes) (w : World) :
  well_formed_chunk c ->
  input p w = wire c ++ rest ->
  exists writes w2,
    trace w2 = trace w ++ map (Write q) writes
    /\ concat writes = wire c
    /\ input p w2 = rest
    /\ host_abs_url w2 = host_abs_url w
    /\ forall fuel,
         relay_body (S (S fuel)) h w
         = relay_body fuel
             (if bool_decide (chunk_data c = []) then set_body_done true h else h)
             w2.
Proof.
  intros (Hsize & Hint & Hend) Hin. unfold wire in *.
  rewrite <- !app_assoc in Hin.
  set (n := Z.of_nat (length (chunk_data c))) in *.
  set (h1 := set_chunk_len (Some n) h).
  set (w1 := log (Write q (size_line c))
               (set_input p (chunk_data c ++ end_line c ++ rest) w)).
  assert (H1 : next_chunk_ready true h w = (Ret (ChunkLen n, h1), w1)).
  { unfold next_chunk_ready. rewrite Hd, Hc. cbn [negb]. unfold bind at 1.
    rewrite (nextline_takes_line h w (size_line c)
               (chunk_data c ++ end_line c ++ rest));
      [|now rewrite Hr|exact Hsize].
    unfold bind at 1, tee, hwrite. rewrite Hw, Hr. unfold write, emit.
    rewrite Hl. unfold bind. rewrite Hint. reflexivity. }
  destruct (tunnel_chunk_copies h1 q n w1 Hw)
    as (r & wd & w' & Hrun & Htr & _ & Hres).
  { change (chunked h1) with (chunked h). rewrite Hc. reflexivity. }
  change (reader h1) with (reader h) in Hres. rewrite Hr in Hres.
  assert (Hin1 : input p w1 = chunk_data c ++ end_line c ++ rest).
  { unfold w1. now rewrite input_log, input_set_input. }
  rewrite Hin1 in Hres. unfold n in Hres. rewrite Nat2Z.id in Hres.
  destruct (Nat.leb_spec (length (chunk_data c))
              (length (chunk_data c ++ end_line c ++ rest))) as [_|Hbad];
    [|rewrite length_app in Hbad; lia].
  rewrite take_app_length, drop_app_length in Hres.
  destruct Hres as (-> & Hcat & Hin').
  set (h2 := if bool_decide (chunk_data c = []) then set_body_done true h else h).
  set (w2 := log (Write q (end_line c)) (set_input p rest w')).
  assert (H2 : next_chunk_ready true h1 w' = (Ret (ChunkLine (end_line c), h2), w2)).
  { unfold next_chunk_ready. change (body_done h1) with (body_done h).
    change (chunked h1) with (chunked h). rewrite Hd, Hc. cbn [negb].
    unfold bind at 1.
    rewrite (nextline_takes_line h1 w' (end_line c) rest);
      [|change (reader h1) with (reader h); now rewrite Hr|exact Hend].
    unfold bind at 1, tee, hwrite. change (writer h1) with (writer h).
    change (reader h1) with (reader h). rewrite Hw, Hr. unfold write, emit.
    cbn [h1 set_chunk_len chunk_len]. unfold ret. fold w2. f_equal. f_equal.
    f_equal. unfold h2, n.
    destruct (chunk_data c) as [|x d] eqn:Hdata.
    - rewrite bool_decide_eq_true_2 by reflexivity. cbn.
      destruct h; cbn in *; subst; reflexivity.
    - rewrite bool_decide_eq_false_2 by discriminate. cbn.
      destruct h; cbn in *; subst; reflexivity. }
  exists (size_line c :: wd ++ [end_line c]), w2.
  split; [|split; [|split; [|split]]].
  - unfold w2. cbn [log trace]. rewrite trace_set_input, Htr. unfold w1.
    cbn [log trace map]. rewrite trace_set_input, map_app. cbn [map].
    rewrite <- !app_assoc. reflexivity.
  - cbn [concat]. rewrite concat_app, Hcat. cbn [concat].
    now rewrite app_nil_r.
  - unfold w2. now rewrite input_log, input_set_input.
  - unfold w2. cbn [log host_abs_url]. rewrite policy_set_input.
    pose proof (keeps_tunnel_chunk h1 _ _ _ Hrun) as Hk. rewrite Hk.
    unfold w1. cbn [log host_abs_url]. now rewrite policy_set_input.
  - intros fuel. cbn [relay_body]. unfold bind at 1. rewrite H1.
    unfold bind at 1. rewrite Hrun. cbn [relay_body]. unfold bind at 1.
    rewrite H2. reflexivity.
Qed.

Lemma relay_body_chunks (chunks : list chunk) :
  forall (last : chunk) (rest : bytes) (fuel : nat) (w : World),
    Forall well_formed_chunk chunks ->
    Forall (fun c => chunk_data c <> []) chunks ->
    well_formed_chunk last -> chunk_data last = [] ->
    input p w = concat (map wire chunks) ++ wire last ++ rest ->
    (2 * length chunks + 3 <= fuel)%nat ->
    exists writes w',
      relay_body fuel h w = (Ret (set_body_done true h), w')
      /\ trace w' = trace w ++ map (Write q) writes
      /\ concat writes = concat (map wire chunks) ++ wire last
      /\ input p w' = rest
      /\ host_abs_url w' = host_abs_url w.
Proof.
  induction chunks as [|c chunks IH];
    intros last rest fuel w Hwf Hne Hlast Hempty Hin Hfuel.
  - cbn in Hin.
    destruct (relay_body_one_chunk last rest w Hlast Hin)
      as (ws & w2 & Htr & Hcat & Hin2 & Hpol & Hstep).
    destruct fuel as [|[|[|fuel]]]; try (simpl in Hfuel; lia).
    rewrite Hstep, bool_decide_eq_true_2 by exact Hempty.
    exists ws, w2. cbn. auto.
  - apply Forall_cons_1 in Hwf. destruct Hwf as [Hwc Hwf'].
    apply Forall_cons_1 in Hne. destruct Hne as [Hnc Hne'].
    cbn [map concat] in Hin. rewrite <- app_assoc in Hin.
    destruct (relay_body_one_chunk c _ w Hwc Hin)
      as (ws & w2 & Htr & Hcat & Hin2 & Hpol & Hstep).
    destruct fuel as [|[|fuel]]; try (simpl in Hfuel; lia).
    rewrite Hstep, bool_decide_eq_false_2 by exact Hnc.
    destruct (IH last rest fuel w2 Hwf' Hne' Hlast Hempty Hin2)
      as (ws' & w' & Hrun & Htr' & Hcat' & Hin' & Hpol'); [simpl in *; lia|].
    exists (ws ++ ws'), w'. split; [exact Hrun|].
    split; [rewrite Htr', Htr, map_app; now rewrite <- app_assoc|].
    split; [rewrite concat_app, Hcat, Hcat'; cbn; now rewrite <- app_assoc|].
    split; [exact Hin'|]. now rewrite Hpol', Hpol.
Qed.

Lemma wire_length (c : chunk) : well_formed_chunk c -> (2 <= length (wire c))%nat.
Proof.
  intros (Hs & _ & He). unfold wire. rewrite !length_app.
  pose proof (is_line_length _ Hs). pose proof (is_line_length _ He). lia.
Qed.

Lemma wires_length (chunks : list chunk) :
  Forall well_formed_chunk chunks ->
  (2 * length chunks <= length (concat (map wire chunks)))%nat.
Proof.
  induction 1 as [|c chunks Hc' _ IH]; cbn; [lia|].
  rewrite length_app. pose proof (wire_length c Hc'). lia.
Qed.

(** X7.  With chunked encoding the body loop, started on a body made of
    well-formed chunks with data and a last chunk without, whatever comes
    after it on the connection and in whatever pieces the bytes arrive,
    ends normally with [body_done] set, has written to the writer exactly
    the bytes of the body, size lines and line ends included, and has
    left unread exactly what follows the body. *)
Theorem chunked_body_is_relayed_to_its_end (chunks : list chunk)
    (last : chunk) (rest : bytes) (w : World) :
  Forall well_formed_chunk chunks ->
  Forall (fun c => chunk_data c <> []) chunks ->
  well_formed_chunk last -> chunk_data last = [] ->
  input p w = concat (map wire chunks) ++ wire last ++ rest ->
  exists writes w',
    relay_body (S (S (length (input p w)))) h w
      = (Ret (set_body_done true h), w')
    /\ trace w' = trace w ++ map (Write q) writes
    /\ concat writes = concat (map wire chunks) ++ wire last
    /\ input p w' = rest
    /\ host_abs_url w' = host_abs_url w.
Proof.
  intros Hwf Hne Hlast Hempty Hin.
  apply (relay_body_chunks chunks last rest); try assumption.
  rewrite Hin, !length_app.
  pose proof (wires_length chunks Hwf). pose proof (wire_length last Hlast). lia.
Qed.

End Chunked.

End Body.

Lemma content_length_body_is_copied_exactly_witness :
  let w := mkWorld [] (B "HelloHTTP/1.1 200 OK") [1; 0]%nat [] true [] ∅ in
  exists r writes w',
    @relay_body simple_py 22 counted_http w = (r, w')
    /\ trace w' = trace w ++ map (Write Client) writes
    /\ Forall (fun d => Z.of_nat (length d) <= 65536) writes
    /\ (body_len counted_http <= 0 -> w' = w)
    /\ (if (Z.to_nat (body_len counted_http) <=? length (input Server w))%nat
        then r = Ret (set_body_done true counted_http)
             /\ concat writes = take (Z.to_nat (body_len counted_http)) (input Server w)
             /\ input Server w' = drop (Z.to_nat (body_len counted_http)) (input Server w)
        else r = Raise EOFError
             /\ concat writes = input Server w
             /\ input Server w' = []).
Proof.
  intros w.
  apply (@content_length_body_is_copied_exactly simple_py Server Client 22
           counted_http w eq_refl eq_refl eq_refl eq_refl).
  lia.
Defined.

Lemma line_has_no_lf (body : bytes) :
  bool_decide (LF ∈ body) = false -> Z.of_nat (length body) <= limit ->
  is_line (body ++ [LF]).
Proof.
  intros Hno Hlen. exists body. split; [reflexivity|]. split; [|exact Hlen].
  apply bool_decide_eq_false_1 in Hno. exact Hno.
Qed.

Lemma hello_chunks_well_formed :
  Forall (@well_formed_chunk simple_py) hello_chunks
  /\ @well_formed_chunk simple_py last_chunk.
Proof.
  assert (Hcrlf : is_line CRLF)
    by (apply (line_has_no_lf [CR]); [reflexivity | vm_compute; discriminate]).
  assert (H5 : is_line (B "5" ++ CRLF))
    by (apply (line_has_no_lf (B "5" ++ [CR])); [reflexivity | vm_compute; discriminate]).
  assert (H6 : is_line (B "6" ++ CRLF))
    by (apply (line_has_no_lf (B "6" ++ [CR])); [reflexivity | vm_compute; discriminate]).
  assert (H0 : is_line (B "0" ++ CRLF))
    by (apply (line_has_no_lf (B "0" ++ [CR])); [reflexivity | vm_compute; discriminate]).
  split; [repeat constructor|repeat split]; assumption || reflexivity.
Qed.

(** Scenario S6 with a second response behind the first on the same
    connection. *)
Lemma chunked_body_is_relayed_to_its_end_witness :
  let rest := B "HTTP/1.1 304 Not Modified" ++ CRLF ++ CRLF in
  let w := mkWorld [] (concat (map wire hello_chunks) ++ wire last_chunk ++ rest)
             [2; 0; 7]%nat [] true [] ∅ in
  exists writes w',
    @relay_body simple_py (S (S (length (input Server w)))) chunked_http w
      = (Ret (set_body_done true chunked_http), w')
    /\ trace w' = trace w ++ map (Write Client) writes
    /\ concat writes = concat (map wire hello_chunks) ++ wire last_chunk
    /\ input Server w' = rest
    /\ host_abs_url w' = host_abs_url w.
Proof.
  intros rest w.
  apply (@chunked_body_is_relayed_to_its_end simple_py Server Client
           chunked_http eq_refl eq_refl eq_refl eq_refl eq_refl
           hello_chunks last_chunk rest w).
  - exact (proj1 hello_chunks_well_formed).
  - repeat constructor; discriminate.
  - exact (proj2 hello_chunks_well_formed).
  - reflexivity.
  - reflexivity.
Defined.

(** ** The response task as a whole *)

Lemma tunnel_stream_to_client (w : World) :
  exists writes w',
    tunnel_stream Server Client (close Server) w = (Ret tt, w')
    /\ Forall (fun d => d <> [] /\ Z.of_nat (length d) <= 65536) writes
    /\ concat writes = server_in w
    /\ trace w' = trace w ++ map (Write Client) writes
                  ++ [Close Client; Close Server]
    /\ server_in w' = [] /\ client_in w' = client_in w
    /\ host_abs_url w' = host_abs_url w.
Proof.
  destruct (tunnel_stream_loop_copies Server Client (S (length (server_in w))) w)
    as (writes & wl & Hrun & Hall & Hcat & Htr & Hin & Hpol); [cbn; lia|].
  assert (Hcl : client_in wl = client_in w).
  { clear - Hrun. revert Hrun. generalize (S (length (server_in w))).
    intros fuel. revert w. induction fuel as [|fuel IH]; intros w H; cbn in H.
    - discriminate.
    - unfold bind, read in H. cbn in H.
      destruct (take _ (server_in w)); [now inversion H|].
      apply IH in H. exact H. }
  exists writes, (log (Close Server) (log (Close Client) wl)).
  split.
  { unfold tunnel_stream, finally. cbn [input]. rewrite Hrun. reflexivity. }
  split; [exact Hall|]. split; [exact Hcat|].
  split; [cbn [log trace]; rewrite Htr, <- !app_assoc; reflexivity|].
  auto.
Qed.

Section Responses.
Context {py : PyLib}.

(** A response that is forwarded takes at least its status line from the
    upstream. *)
Lemma handle_response_consumes (self : NagatoStream) (w w' : World) :
  handle_response self w = (Ret tt, w') ->
  (length (server_in w') < length (server_in w))%nat.
Proof.
  unfold handle_response. intros H.
  apply bind_ret_inv in H. destruct H as ([[version status] reason] & w1 & Hst & H).
  apply bind_ret_inv in H. destruct H as ([] & w2 & Hcls & H).
  pose proof (status_line_reads_only (HttpStream_init Server (Some Client)) w) as Hs.
  rewrite Hst in Hs. destruct Hs as (line & Hne & Hin & _). cbn in Hin.
  assert (Hw2 : server_in w2 = server_in w1).
  { destruct (is_success status).
    - unfold put_policy in Hcls. now inversion Hcls.
    - destruct (is_failure status).
      + unfold put_policy, bind, lift, write, close, emit, ret, raise in Hcls.
        destruct (parsed_url (last_url self)); discriminate.
      + now inversion Hcls. }
  pose proof (forward_response_relays (HttpStream_init Server (Some Client))
                version reason status w2 eq_refl eq_refl) as Hf.
  rewrite H in Hf. destruct Hf as [Hrel _].
  apply relayed_length in Hrel. cbn [input log server_in] in Hrel.
  rewrite Hin, length_app, <- Hw2.
  destruct line; [contradiction | simpl; lia].
Qed.

Lemma responses_loop_returns (self : NagatoStream) (fuel : nat) :
  forall w : World,
    (length (server_in w) < fuel)%nat ->
    fst (responses_loop fuel self w) <> OutOfFuel.
Proof.
  induction fuel as [|fuel IH]; intros w Hfuel; [lia|].
  cbn [responses_loop]. unfold bind at 1, get_policy.
  destruct (host_abs_url w !! origin_key self); [discriminate|].
  unfold bind. pose proof (handle_response_effect self w) as He.
  destruct (handle_response self w) as [[[]| |] w1] eqn:Hrun;
    [|discriminate|contradiction].
  apply IH. apply handle_response_consumes in Hrun. lia.
Qed.

(** X8.  Once the entry of the origin is set, [handle_responses] parses
    nothing: it copies everything the upstream still sends to the client,
    unchanged, then closes the client and the upstream and returns.  It
    writes nothing else, reads nothing from the client, and leaves the
    policy map alone. *)
Theorem decided_origin_is_pumped_unparsed (self : NagatoStream) (w : World)
    (v : bool) :
  host_abs_url w !! origin_key self = Some v ->
  exists writes w',
    handle_responses self w = (Ret tt, w')
    /\ Forall (fun d => d <> [] /\ Z.of_nat (length d) <= 65536) writes
    /\ concat writes = server_in w
    /\ trace w' = trace w ++ map (Write Client) writes
                  ++ [Close Client; Close Server]
    /\ server_in w' = [] /\ client_in w' = client_in w
    /\ host_abs_url w' = host_abs_url w.
Proof.
  intros Hv.
  destruct (tunnel_stream_to_client w) as (writes & w' & Hrun & Hrest).
  exists writes, w'. split; [|exact Hrest].
  unfold handle_responses, bind at 1, try_except, bind at 1.
  cbn [responses_loop]. unfold bind at 1, get_policy. rewrite Hv.
  cbn [ret negb]. exact Hrun.
Qed.

(** X9.  [handle_responses] always ends, and never with [EOFError], which
    it catches; and whenever it returns, the last two things it did were
    to close the client and then the upstream. *)
Theorem handle_responses_ends_closed (self : NagatoStream) (w : World) :
  fst (handle_responses self w) <> OutOfFuel
  /\ fst (handle_responses self w) <> Raise EOFError
  /\ (forall w', handle_responses self w = (Ret tt, w') ->
      exists t, trace w' = t ++ [Close Client; Close Server]).
Proof.
  assert (Hchar : exists r w',
             handle_responses self w = (r, w')
             /\ r <> OutOfFuel /\ r <> Raise EOFError
             /\ (r = Ret tt ->
                 exists t, trace w' = t ++ [Close Client; Close Server])).
  { unfold handle_responses, bind at 1, try_except, bind at 1.
    pose proof (responses_loop_returns self (S (length (server_in w))) w) as Hl.
    destruct (responses_loop _ self w) as [[[]|e|] w1].
    - cbn [ret negb].
      destruct (tunnel_stream_to_client w1)
        as (writes & w' & Hrun & _ & _ & Htr & _).
      rewrite Hrun. exists (Ret tt), w'. split; [reflexivity|].
      split; [discriminate|]. split; [discriminate|]. intros _.
      exists (trace w1 ++ map (Write Client) writes).
      rewrite Htr. now rewrite <- app_assoc.
    - destruct (decide (e = EOFError)) as [->|Hne].
      + rewrite bool_decide_eq_true_2 by reflexivity. cbn.
        eexists _, _. split; [reflexivity|].
        split; [discriminate|]. split; [discriminate|]. intros _.
        exists (trace w1). cbn. rewrite <- app_assoc. reflexivity.
      + rewrite bool_decide_eq_false_2 by exact Hne. cbn.
        eexists _, _. split; [reflexivity|].
        split; [discriminate|]. split; [congruence|]. discriminate.
    - exfalso. apply Hl; [lia | reflexivity]. }
  destruct Hchar as (r & w' & Hrun & H1 & H2 & H3). rewrite Hrun. cbn [fst].
  split; [exact H1|]. split; [exact H2|].
  intros w'' H. inversion H; subst. now apply H3.
Qed.

End Responses.

Lemma decided_origin_is_pumped_unparsed_witness :
  let w := mkWorld [] response_403 [6; 0]%nat [] true []
             {[ B "example.com:80" := true ]} in
  exists writes w',
    @handle_responses simple_py example_session w = (Ret tt, w')
    /\ Forall (fun d => d <> [] /\ Z.of_nat (length d) <= 65536) writes
    /\ concat writes = server_in w
    /\ trace w' = trace w ++ map (Write Client) writes
                  ++ [Close Client; Close Server]
    /\ server_in w' = [] /\ client_in w' = client_in w
    /\ host_abs_url w' = host_abs_url w.
Proof.
  intros w.
  apply (@decided_origin_is_pumped_unparsed simple_py example_session w true).
  reflexivity.
Defined.

(** ** The request task as a whole *)

Lemma nextline_eof (h : HttpStream) (w : World) :
  input (reader h) w = [] -> nextline h w = (Raise EOFError, w).
Proof.
  intros He. unfold nextline, bind, readline. rewrite He. simpl.
  unfold raise. f_equal. rewrite <- He. apply set_input_same.
Qed.

Section Requests.
Context {py : PyLib}.

(** X10.  [handle_requests] relays the first request of a connection.  If
    the client then closes, it returns.  If the client sends another
    request line, the loop passes its URL on as the string it read, on
    which [handle_request] fails: [AttributeError] is raised, uncaught,
    with nothing of the second request written to the upstream. *)
Theorem second_request_is_never_relayed (self self' : NagatoStream)
    (req : bytes * ParseResult * bytes) (w w1 : World) :
  handle_request self req w = (Ret self', w1) ->
  (client_in w1 = [] -> handle_requests self req w = (Ret tt, w1))
  /\ (forall method url version w2,
        request_line false (HttpStream_init Client None) w1
          = (Ret (method, url, version), w2) ->
        handle_requests self req w = (Raise AttributeError, w2)
        /\ trace w2 = trace w1).
Proof.
  destruct req as [[method0 url0] version0]. intros H.
  assert (Hloop : forall fuel,
            handle_requests_loop (S (S fuel)) self (method0, Parsed url0, version0) w
            = match request_line false (HttpStream_init Client None) w1 with
              | (Ret _, w2) => (Raise AttributeError, w2)
              | (Raise e, w2) => (Raise e, w2)
              | (OutOfFuel, w2) => (OutOfFuel, w2)
              end).
  { intros fuel. cbn [handle_requests_loop handle_request_any].
    unfold bind at 1. rewrite H. unfold bind at 1.
    destruct (request_line false _ w1) as [[[[m u] v]| |] w2]; reflexivity. }
  unfold handle_requests, try_except. rewrite Hloop. split.
  - intros Hempty.
    assert (Hrl : request_line false (HttpStream_init Client None) w1
                  = (Raise EOFError, w1)).
    { unfold request_line, bind.
      now rewrite (nextline_eof (HttpStream_init Client None) w1 Hempty). }
    rewrite Hrl. reflexivity.
  - intros method url version w2 Hrl. rewrite Hrl. split; [reflexivity|].
    pose proof (request_line_reads_only (HttpStream_init Client None) w1) as Hq.
    rewrite Hrl in Hq. rewrite Hq. apply trace_set_input.
Qed.

End Requests.

(** Two requests on one connection: the second is read and dropped. *)
Lemma second_request_is_never_relayed_witness :
  let w := world0 (crlf "Host: example.com

GET http://example.com/next HTTP/1.1
Host: example.com

") [] in
  exists w1 w2,
    @handle_request simple_py example_session example_request w
      = (Ret example_session, w1)
    /\ @handle_requests simple_py example_session example_request w
       = (Raise AttributeError, w2)
    /\ trace w2 = trace w1
    /\ client_in w2 = crlf "Host: example.com

".
Proof.
  intros w.
  destruct (@handle_request simple_py example_session example_request w)
    as [r w1] eqn:H.
  assert (Hr : r = Ret example_session)
    by (apply (f_equal fst) in H; vm_compute in H; now inversion H).
  subst r.
  destruct (request_line false (HttpStream_init Client None) w1)
    as [r2 w2] eqn:H2.
  assert (Hw1 : client_in w1 = crlf "GET http://example.com/next HTTP/1.1
Host: example.com

").
  { apply (f_equal (fun x => client_in (snd x))) in H. cbn [snd] in H.
    rewrite <- H. vm_compute. reflexivity. }
  assert (Hr2 : r2 = Ret (B "GET", B "http://example.com/next", B "HTTP/1.1")
                /\ client_in w2 = crlf "Host: example.com

").
  { unfold request_line, bind, nextline, bind, readline in H2.
    cbn [reader input HttpStream_init] in H2. rewrite Hw1 in H2.
    vm_compute in H2. inversion H2. split; reflexivity. }
  destruct Hr2 as [-> Hc2].
  exists w1, w2. split; [reflexivity|].
  destruct (proj2 (@second_request_is_never_relayed simple_py example_session
                     example_session example_request w w1 H) _ _ _ _ H2)
    as [Hrun Htr].
  auto.
Defined.

(** ** The keys of the policy map *)

Lemma digits_have_no_colon (d : Decimal.uint) :
  ~ In ":"%char (B (NilEmpty.string_of_uint d)).
Proof.
  induction d; cbn; [intros [] | intros [H|H]; [discriminate | auto] ..].
Qed.

Lemma str_of_Z_has_no_colon (n : Z) : ~ In ":"%char (str_of_Z n).
Proof.
  unfold str_of_Z, NilZero.string_of_int, NilZero.string_of_uint.
  assert (Hu : forall d, ~ In ":"%char
                          (B match d with
                             | Decimal.Nil => "0"%string
                             | _ => NilEmpty.string_of_uint d
                             end)).
  { intros d. destruct d; try apply digits_have_no_colon.
    cbn. intros [H|[]]. discriminate. }
  destruct (Z.to_int n) as [d|d]; [apply Hu|].
  change (B (String "-" ?s)) with ("-"%char :: B s).
  cbn [B list_ascii_of_string]. intros [H|H]; [discriminate|].
  revert H. apply Hu.
Qed.

Lemma B_inj (s1 s2 : string) : B s1 = B s2 -> s1 = s2.
Proof.
  unfold B. intros H. apply (f_equal string_of_list_ascii) in H.
  now rewrite !string_of_list_ascii_of_string in H.
Qed.

Lemma str_of_Z_inj (n1 n2 : Z) : str_of_Z n1 = str_of_Z n2 -> n1 = n2.
Proof.
  unfold str_of_Z. intros H. apply B_inj in H.
  assert (Hnn : forall n, Z.to_int n <> Decimal.Pos Decimal.Nil
                          /\ Z.to_int n <> Decimal.Neg Decimal.Nil).
  { intros [|p|p]; cbn; split; try discriminate;
      intros [= Hp]; now apply (DecimalPos.Unsigned.to_uint_nonnil p). }
  apply (f_equal NilZero.int_of_string) in H.
  rewrite !NilZero.isi in H by apply Hnn.
  injection H as H. apply (f_equal Z.of_int) in H.
  now rewrite !DecimalZ.of_to in H.
Qed.

Lemma split_at_last (x : ascii) (l1 l2 r1 r2 : bytes) :
  l1 ++ x :: r1 = l2 ++ x :: r2 -> ~ In x r1 -> ~ In x r2 ->
  l1 = l2 /\ r1 = r2.
Proof.
  revert l2. induction l1 as [|a l1 IH]; intros [|b l2] H H1 H2; cbn in H.
  - injection H as H. auto.
  - injection H as Ha H. exfalso. apply H1. rewrite H. apply in_or_app.
    right. now left.
  - injection H as Ha H. exfalso. apply H2. rewrite <- H. apply in_or_app.
    right. now left.
  - injection H as Ha H. destruct (IH _ H H1 H2) as [-> ->]. now subst.
Qed.

(** X11.  Sessions to different origins use different keys of the policy
    map: for sessions whose host and port are set, equal keys
    [host:port] mean equal hosts and equal ports, so that setting the
    entry of one origin never changes what is found for another. *)
Theorem origin_keys_do_not_collide (s1 s2 : NagatoStream) (h1 h2 : bytes)
    (p1 p2 : Z) :
  sess_host s1 = Some h1 -> sess_port s1 = Some p1 ->
  sess_host s2 = Some h2 -> sess_port s2 = Some p2 ->
  (origin_key s1 = origin_key s2 -> h1 = h2 /\ p1 = p2)
  /\ (h1 <> h2 \/ p1 <> p2 ->
      forall (m : gmap bytes bool) (v : bool),
        <[origin_key s1 := v]> m !! origin_key s2 = m !! origin_key s2).
Proof.
  intros Hh1 Hp1 Hh2 Hp2.
  assert (Hinj : origin_key s1 = origin_key s2 -> h1 = h2 /\ p1 = p2).
  { unfold origin_key. rewrite Hh1, Hp1, Hh2, Hp2. cbn [fmt_str fmt_int].
    change (B ":") with [":"%char]. cbn [app]. intros H.
    apply split_at_last in H; try apply str_of_Z_has_no_colon.
    destruct H as [-> H]. split; [reflexivity | now apply str_of_Z_inj]. }
  split; [exact Hinj|].
  intros Hne m v. apply lookup_insert_ne. intros Heq.
  destruct (Hinj Heq) as [-> ->]. destruct Hne; congruence.
Qed.

Lemma origin_keys_do_not_collide_witness :
  (origin_key example_session
   = origin_key (mkNagato (Some (B "example.com")) (Some 8080) None) ->
   B "example.com" = B "example.com" /\ 80 = 8080)
  /\ (B "example.com" <> B "example.com" \/ 80 <> 8080 ->
      forall (m : gmap bytes bool) (v : bool),
        <[origin_key example_session := v]> m
          !! origin_key (mkNagato (Some (B "example.com")) (Some 8080) None)
        = m !! origin_key (mkNagato (Some (B "example.com")) (Some 8080) None)).
Proof.
  apply (origin_keys_do_not_collide example_session
           (mkNagato (Some (B "example.com")) (Some 8080) None)
           (B "example.com") (B "example.com") 80 8080); reflexivity.
Defined.

(** ** The tunnel: failure to connect, and bytes that are not a long TLS record *)

Lemma read_log (p : peer) (n : Z) (e : event) (w : World) :
  read p n (log e w)
  = (fst (read p n w), log e (snd (read p n w))).
Proof. unfold read. cbn. now destruct p. Qed.

Lemma handle_tunnel_unreachable (host : option bytes) (port : option Z)
    (version : bytes) (w : World) :
  upstream_up w = false ->
  handle_tunnel host port version w
  = (Ret tt,
     log (Close Client)
       (log (Write Client (PROXY_RESP_504 version))
          (log (Connect host port) w))).
Proof.
  intros Hup. unfold handle_tunnel, bind at 1, try_except, bind at 1,
    open_connection, bind at 1, emit at 1.
  cbn [log upstream_up]. rewrite Hup. reflexivity.
Qed.

(** X12.  When what the first [read(5)] returns does not start with
    [16 03 01], or is a whole five-byte record header with a length of at
    most 85, [handle_tunnel] answers 200, forwards the bytes of that read
    as they are, and starts the pumps: no second read, no flush, and
    nothing else written.  (A first read that returns fewer than five
    bytes starting with [16 03 01] is the case of
    [handle_tunnel_short_first_read].) *)
Theorem tunnel_without_long_tls_record (host : option bytes)
    (port : option Z) (version : bytes) (w wr : World) (buf : bytes) :
  upstream_up w = true ->
  read Client 5 w = (Ret buf, wr) ->
  buf <> [] ->
  no_split buf ->
  handle_tunnel host port version w
  = (Ret tt,
     log Pumps
       (log (Write Server buf)
          (log (Write Client (PROXY_RESP_200 version))
             (log (Connect host port) wr)))).
Proof.
  intros Hup Hread Hne Hns.
  unfold handle_tunnel, bind at 1, try_except, bind at 1,
    open_connection, bind at 1, emit at 1.
  cbn [log upstream_up]. rewrite Hup. cbn [ret negb].
  unfold bind at 1, write at 1, emit at 1.
  unfold bind at 1, nagato_read, bind at 1.
  rewrite !read_log, Hread. cbn [fst snd].
  destruct buf as [|c buf]; [contradiction|]. unfold ret at 1.
  unfold bind at 1, write at 1, emit at 1.
  destruct Hns as [Hns|(hi & lo & Hbuf & Hlen)].
  - rewrite Hns. reflexivity.
  - rewrite Hbuf. cbn [startswith TLS_HELLO app]. rewrite !Ascii.eqb_refl.
    cbn [andb drop]. unfold bind at 1, bind at 1, unpack_H, ret at 1.
    destruct (Z.gtb_spec (256 * Z.of_nat (nat_of_ascii hi)
                          + Z.of_nat (nat_of_ascii lo)) 85) as [?|_]; [lia|].
    reflexivity.
Qed.

(** Scenario S5: a client that speaks plain HTTP through the tunnel. *)
Lemma tunnel_without_long_tls_record_witness :
  handle_tunnel (Some (B "example.com")) (Some 80) (B "HTTP/1.1")
    (world0 (B "GET /x HTTP/1.1") [])
  = (Ret tt,
     log Pumps
       (log (Write Server (B "GET /"))
          (log (Write Client (PROXY_RESP_200 (B "HTTP/1.1")))
             (log (Connect (Some (B "example.com")) (Some 80))
                (world0 (B "x HTTP/1.1") []))))).
Proof.
  apply (tunnel_without_long_tls_record (Some (B "example.com")) (Some 80)
           (B "HTTP/1.1") (world0 (B "GET /x HTTP/1.1") [])
           (world0 (B "x HTTP/1.1") []) (B "GET /")).
  - reflexivity.
  - reflexivity.
  - discriminate.
  - left. reflexivity.
Defined.

Section Unreachable.
Context {py : PyLib}.

(** X13.  When the upstream cannot be reached, whatever the request, a
    [handle_streams] that returns has written to the client the 504
    response, after one attempt to connect, and closed it; it has written
    nothing else and started no task. *)
Theorem unreachable_upstream_gets_504 (self : NagatoStream) (w w' : World)
    (r : option (NagatoStream * (bytes * ParseResult * bytes))) :
  upstream_up w = false ->
  handle_streams self w = (Ret r, w') ->
  r = None
  /\ exists host port version,
       trace w' = trace w
         ++ [Connect host port; Write Client (PROXY_RESP_504 version);
             Close Client].
Proof.
  intros Hup H. unfold handle_streams in H.
  apply bind_ret_inv in H. destruct H as ([[method url] version] & w1 & Hreq & H).
  pose proof (request_line_reads_only (HttpStream_init Client None) w) as Hq.
  rewrite Hreq in Hq.
  assert (Hw1 : trace w1 = trace w /\ upstream_up w1 = false).
  { rewrite Hq. rewrite trace_set_input. split; [reflexivity|].
    now destruct (reader (HttpStream_init Client None)). }
  destruct Hw1 as [Htr1 Hup1].
  destruct (bytes_eqb method (B "CONNECT")).
  - apply bind_ret_inv in H. destruct H as (u & wa & Hu & H).
    assert (wa = w1) as -> by (destruct (urlparse _); inversion Hu; reflexivity).
    apply bind_ret_inv in H. destruct H as (prt & wb & Hp & H).
    assert (wb = w1) as -> by (destruct (port u); inversion Hp; reflexivity).
    apply bind_ret_inv in H. destruct H as ([] & w2 & Hdrop & H).
    apply bind_ret_inv in H. destruct H as ([] & w3 & Htun & H).
    unfold ret in H. inversion H; subst. split; [reflexivity|].
    pose proof (drop_fields_reads_only _ _ _ _ _ Hdrop) as Hw2.
    assert (Hup2 : upstream_up w2 = false /\ trace w2 = trace w1).
    { rewrite Hw2. rewrite trace_set_input. split; [|reflexivity].
      now destruct (reader (HttpStream_init Client None)). }
    destruct Hup2 as [Hup2 Htr2].
    rewrite (handle_tunnel_unreachable _ _ _ _ Hup2) in Htun.
    inversion Htun. exists (hostname u), prt, version.
    cbn [log trace]. rewrite Htr2, Htr1, <- !app_assoc. reflexivity.
  - apply bind_ret_inv in H. destruct H as (u & wa & Hu & H).
    assert (wa = w1) as -> by (destruct (urlparse _); inversion Hu; reflexivity).
    apply bind_ret_inv in H. destruct H as (prt & wb & Hp & H).
    assert (wb = w1) as -> by (destruct (port u); inversion Hp; reflexivity).
    unfold bind, try_except, open_connection, bind, emit, write, close, ret in H.
    cbn [log upstream_up] in H. rewrite Hup1 in H. cbn in H.
    inversion H; subst. split; [reflexivity|].
    eexists _, _, version. cbn [log trace]. rewrite Htr1, <- !app_assoc.
    reflexivity.
Qed.

End Unreachable.

Lemma unreachable_upstream_gets_504_witness :
  @None (NagatoStream * (bytes * ParseResult * bytes)) = None
  /\ exists host port version,
       trace (mkWorld (crlf "Host: example.com

") [] [] [] false
                [Connect (Some (B "example.com")) (Some 80);
                 Write Client (PROXY_RESP_504 (B "HTTP/1.1")); Close Client] ∅)
       = trace (mkWorld (crlf "GET http://example.com/ HTTP/1.1
Host: example.com

") [] [] [] false [] ∅)
         ++ [Connect host port; Write Client (PROXY_RESP_504 version);
             Close Client].
Proof.
  apply (@unreachable_upstream_gets_504 simple_py NagatoStream_init
           (mkWorld (crlf "GET http://example.com/ HTTP/1.1
Host: example.com

") [] [] [] false [] ∅)).
  - reflexivity.
  - vm_compute. reflexivity.
Defined.

(** ** request_line and status_line *)

(** X14.  [request_line] returns only for a line with exactly two spaces:
    the line it took from the reader is method, space, URL, space,
    version, and then only CR and LF characters; none of the three parts
    contains a space, and nothing is written. *)
Theorem request_line_has_exactly_two_spaces (h : HttpStream) (w w' : World)
    (method url version : bytes) :
  request_line false h w = (Ret (method, url, version), w') ->
  exists ending,
    input (reader h) w
      = method ++ SP :: url ++ SP :: version ++ ending ++ input (reader h) w'
    /\ ~ In SP method /\ ~ In SP url /\ ~ In SP version
    /\ Forall (fun c => c = CR \/ c = LF) ending
    /\ w' = set_input (reader h) (input (reader h) w') w.
Proof.
  unfold request_line. intros H.
  apply bind_ret_inv in H. destruct H as (line & w1 & Hline & H).
  apply bind_ret_inv in H. destruct H as ([] & w2 & Htee & H).
  cbn [tee] in Htee. unfold ret in Htee. inversion Htee; subst w2.
  apply bind_ret_inv in H. destruct H as (s & w3 & Hdec & H).
  unfold decode in Hdec. destruct (utf8_valid line); [|discriminate].
  unfold ret in Hdec. inversion Hdec; subst s w3.
  destruct (split_all_join SP line) as (a & rest & Hsplit & Hjoin & Hall).
  rewrite Hsplit in H.
  destruct rest as [|u [|v [|x rest]]]; try discriminate.
  unfold ret in H.
  assert (Hm : a = method) by congruence.
  assert (Hurl : u = url) by congruence.
  assert (Hver : rstrip CRLF v = version) by congruence.
  assert (Hw : w1 = w') by congruence.
  clear H. rewrite Hw in Hline. clear Hw.
  pose proof (nextline_cases h w) as Hn. rewrite Hline in Hn.
  destruct Hn as (_ & Hin & Hw').
  apply Forall_cons_1 in Hall. destruct Hall as [Ha Hall].
  apply Forall_cons_1 in Hall. destruct Hall as [Hu Hall].
  apply Forall_cons_1 in Hall. destruct Hall as [Hv _].
  destruct (rstrip_suffix CRLF v) as (ending & Hv' & Hend).
  rewrite Hm in *. rewrite Hurl in *.
  exists ending. split.
  - rewrite Hin, Hjoin. cbn [join]. rewrite Hv' at 1. rewrite Hver.
    repeat (rewrite <- app_assoc; cbn [app]). reflexivity.
  - split; [exact Ha|]. split; [exact Hu|].
    split; [rewrite <- Hver; now apply rstrip_no_sep|]. split; [|exact Hw'].
    eapply Forall_impl; [exact Hend|]. intros c Hc. cbn in Hc.
    destruct (Ascii.eqb_spec c CR); [now left|].
    destruct (Ascii.eqb_spec c LF); [now right|discriminate].
Qed.

Lemma request_line_has_exactly_two_spaces_witness :
  exists ending,
    input Client (world0 (crlf "GET http://example.com/ HTTP/1.1
Host: example.com
") [])
      = B "GET" ++ SP :: B "http://example.com/" ++ SP :: B "HTTP/1.1"
        ++ ending ++ input Client (world0 (crlf "Host: example.com
") [])
    /\ ~ In SP (B "GET") /\ ~ In SP (B "http://example.com/")
    /\ ~ In SP (B "HTTP/1.1")
    /\ Forall (fun c => c = CR \/ c = LF) ending
    /\ world0 (crlf "Host: example.com
") []
       = set_input Client (input Client (world0 (crlf "Host: example.com
") [])) (world0 (crlf "GET http://example.com/ HTTP/1.1
Host: example.com
") []).
Proof.
  apply (request_line_has_exactly_two_spaces (HttpStream_init Client None)).
  reflexivity.
Defined.


Lemma digits_are_digits (d : Decimal.uint) (c : ascii) :
  In c (B (NilEmpty.string_of_uint d)) -> In c (B "-0123456789").
Proof.
  induction d; cbn [NilEmpty.string_of_uint B list_ascii_of_string];
    [intros [] | intros [<-|H]; [cbn; tauto | auto] ..].
Qed.

Lemma str_of_Z_chars (n : Z) (c : ascii) :
  In c (str_of_Z n) -> In c (B "-0123456789").
Proof.
  unfold str_of_Z, NilZero.string_of_int, NilZero.string_of_uint.
  assert (Hu : forall d, In c (B match d with
                                 | Decimal.Nil => "0"%string
                                 | _ => NilEmpty.string_of_uint d
                                 end) -> In c (B "-0123456789")).
  { intros d. destruct d; try apply digits_are_digits.
    cbn. intros [<-|[]]. tauto. }
  destruct (Z.to_int n) as [d|d]; [apply Hu|].
  change (B (String "-" ?s)) with ("-"%char :: B s).
  cbn [B list_ascii_of_string]. intros [<-|H]; [cbn; tauto|].
  revert H. apply Hu.
Qed.

Lemma status_line_canonical {py : PyLib} (h : HttpStream) (w : World)
    (version reason rest : bytes) (status : Z) :
  input (reader h) w
    = (version ++ [SP] ++ str_of_Z status ++ [SP] ++ reason ++ CRLF) ++ rest ->
  ~ In SP version -> ~ In LF version -> ~ In LF reason ->
  rstrip CRLF reason = reason ->
  Z.of_nat (length (version ++ [SP] ++ str_of_Z status ++ [SP] ++ reason))
    < limit ->
  utf8_valid (version ++ [SP] ++ str_of_Z status ++ [SP] ++ reason ++ CRLF)
    = true ->
  py_int (str_of_Z status) = Some status ->
  status_line false h w
    = (Ret (version, status, reason), set_input (reader h) rest w).
Proof.
  intros Hin Hsp Hlfv Hlfr Hstrip Hlen Hutf Hint.
  assert (Hd : forall c, In c (str_of_Z status) -> c <> SP /\ c <> LF).
  { intros c Hc. apply str_of_Z_chars in Hc. cbn in Hc.
    split; intros ->; repeat (destruct Hc as [Hc|Hc]; [discriminate|]);
      exact Hc. }
  assert (Hline : is_line
            (version ++ [SP] ++ str_of_Z status ++ [SP] ++ reason ++ CRLF)).
  { exists (version ++ [SP] ++ str_of_Z status ++ [SP] ++ reason ++ [CR]).
    split; [|split].
    - repeat (rewrite <- app_assoc; cbn [app]). reflexivity.
    - intros Hlf. apply list_elem_of_In in Hlf.
      repeat (apply in_app_or in Hlf; destruct Hlf as [Hlf|Hlf]).
      + now apply Hlfv.
      + destruct Hlf as [Hlf|[]]. discriminate.
      + now apply (Hd LF).
      + destruct Hlf as [Hlf|[]]. discriminate.
      + now apply Hlfr.
      + destruct Hlf as [Hlf|[]]. discriminate.
    - rewrite !length_app in *. cbn [length] in *. lia. }
  unfold status_line, bind.
  rewrite (nextline_takes_line h w _ rest Hin Hline).
  cbn [tee]. unfold ret at 1. unfold decode. rewrite Hutf. unfold ret at 1.
  cbn [app]. rewrite (split_max_first SP 1 version _ Hsp).
  rewrite (split_max_first SP 0 (str_of_Z status) _
             (fun H => proj1 (Hd SP H) eq_refl)).
  cbn [split_max]. rewrite Hint. cbn [lift]. unfold ret.
  now rewrite rstrip_crlf_app, Hstrip.
Qed.

(** X15.  A response whose status line is in canonical form (version
    without a space, the status in the decimal form [str] prints, one space
    each, a reason that does not end in CR or LF, then CRLF) and whose
    status is not a failure is parsed back to the same three parts, so the
    line written to the client is the line read from the server, byte for
    byte; the origin's entry is set to true exactly for a success status,
    and the rest of the response is relayed from the bytes after the
    line. *)
Theorem canonical_status_line_is_forwarded_verbatim {py : PyLib}
    (self : NagatoStream) (w : World) (version reason rest : bytes)
    (status : Z) :
  server_in w
    = (version ++ [SP] ++ str_of_Z status ++ [SP] ++ reason ++ CRLF) ++ rest ->
  ~ In SP version -> ~ In LF version -> ~ In LF reason ->
  rstrip CRLF reason = reason ->
  Z.of_nat (length (version ++ [SP] ++ str_of_Z status ++ [SP] ++ reason))
    < limit ->
  utf8_valid (version ++ [SP] ++ str_of_Z status ++ [SP] ++ reason ++ CRLF)
    = true ->
  py_int (str_of_Z status) = Some status ->
  is_failure status = false ->
  handle_response self w
    = (write Client
         (version ++ [SP] ++ str_of_Z status ++ [SP] ++ reason ++ CRLF) ;;
       relay_rest)
        (if is_success status
         then set_policy (<[origin_key self := true]> (host_abs_url w))
                (set_input Server rest w)
         else set_input Server rest w).
Proof.
  intros Hin Hsp Hlfv Hlfr Hstrip Hlen Hutf Hint Hfail.
  unfold handle_response. unfold bind at 1.
  rewrite (status_line_canonical (HttpStream_init Server (Some Client)) w
             version reason rest status Hin Hsp Hlfv Hlfr Hstrip Hlen Hutf
             Hint).
  unfold bind at 1. rewrite Hfail.
  destruct (is_success status); reflexivity.
Qed.

Lemma canonical_status_line_is_forwarded_verbatim_witness :
  @handle_response simple_py (mkNagato (Some (B "example.com")) (Some 80) None)
    (world0 [] (crlf "HTTP/1.1 200 OK
Content-Length: 2

hi"))
  = (write Client (B "HTTP/1.1" ++ [SP] ++ str_of_Z 200 ++ [SP] ++ B "OK"
                   ++ CRLF) ;;
     @relay_rest simple_py)
      (if is_success 200
       then set_policy
              (<[origin_key (mkNagato (Some (B "example.com")) (Some 80) None)
                 := true]>
                 (host_abs_url (world0 [] (crlf "HTTP/1.1 200 OK
Content-Length: 2

hi"))))
              (set_input Server (crlf "Content-Length: 2

hi") (world0 [] (crlf "HTTP/1.1 200 OK
Content-Length: 2

hi")))
       else set_input Server (crlf "Content-Length: 2

hi") (world0 [] (crlf "HTTP/1.1 200 OK
Content-Length: 2

hi"))).
Proof.
  apply (@canonical_status_line_is_forwarded_verbatim simple_py).
  - reflexivity.
  - cbn. intros H. repeat (destruct H as [H|H]; [discriminate|]). exact H.
  - cbn. intros H. repeat (destruct H as [H|H]; [discriminate|]). exact H.
  - cbn. intros H. repeat (destruct H as [H|H]; [discriminate|]). exact H.
  - reflexivity.
  - vm_compute. reflexivity.
  - reflexivity.
  - reflexivity.
  - reflexivity.
Defined.


Lemma handle_responses_ends_closed_witness :
  exists t,
    trace (snd (@handle_responses simple_py example_session
                  (world0 [] response_403)))
    = t ++ [Close Client; Close Server].
Proof.
  apply (proj2 (proj2 (@handle_responses_ends_closed simple_py
                         example_session (world0 [] response_403)))).
  vm_compute. reflexivity.
Defined.


(** ** Edge cases: malformed header line, small step, long TLS record *)

Lemma split_max_no_sep (sep : ascii) (m : nat) (s : bytes) :
  ~ In sep s -> split_max sep (S m) s = [s].
Proof.
  induction s as [|c s IH]; intros Hno; [reflexivity|].
  change (split_max sep (S m) (c :: s))
    with (if Ascii.eqb c sep then [] :: split_max sep m s
          else match split_max sep (S m) s with
               | cur :: r => (c :: cur) :: r
               | [] => [[c]]
               end).
  destruct (Ascii.eqb_spec c sep) as [->|_]; [exfalso; apply Hno; now left|].
  rewrite IH; [reflexivity|]. intros H. apply Hno. now right.
Qed.

(** X16.  A header line that is not the empty line and has no colon is
    taken from the reader, copied to the writer when the parser tunnels,
    and then rejected with [ValueError]; the parser never returns a field
    for it. *)
Theorem header_line_without_colon_is_rejected {py : PyLib} (tunnel : bool)
    (h : HttpStream) (w : World) (line rest : bytes) :
  field_done h = false ->
  input (reader h) w = line ++ rest ->
  is_line line ->
  line <> CRLF ->
  ~ In ":"%char line ->
  next_header_field tunnel h w
  = (tee tunnel h line ;; raise ValueError) (set_input (reader h) rest w).
Proof.
  intros Hfd Hin Hline Hne Hno.
  unfold next_header_field. rewrite Hfd. unfold bind.
  rewrite (nextline_takes_line h w line rest Hin Hline).
  destruct (tee tunnel h line (set_input (reader h) rest w))
    as [[[]|e|] w1]; try reflexivity.
  unfold bytes_eqb. rewrite bool_decide_eq_false_2 by exact Hne.
  unfold decode. destruct (utf8_valid line); [|reflexivity].
  unfold ret at 1. now rewrite (split_max_no_sep _ 0 line Hno).
Qed.

Lemma header_line_without_colon_is_rejected_witness :
  @next_header_field simple_py true (HttpStream_init Server (Some Client))
    (world0 [] (crlf "Content-Length 2

"))
  = (tee true (HttpStream_init Server (Some Client)) (crlf "Content-Length 2
") ;; raise ValueError)
      (set_input (reader (HttpStream_init Server (Some Client))) CRLF
         (world0 [] (crlf "Content-Length 2

"))).
Proof.
  apply (@header_line_without_colon_is_rejected simple_py).
  - reflexivity.
  - reflexivity.
  - exists (B "Content-Length 2" ++ [CR]). split; [reflexivity|].
    split; [|vm_compute; discriminate].
    intros H. apply list_elem_of_In in H. cbn in H.
    repeat (destruct H as [H|H]; [discriminate|]). exact H.
  - discriminate.
  - cbn. intros H. repeat (destruct H as [H|H]; [discriminate|]). exact H.
Defined.

(** X17.  With a step below 2 there is no slice length to draw:
    [random_split] yields nothing for the empty string and fails with
    [ValueError] (from [randrange]) for any other, leaving the random tape
    as it was. *)
Theorem random_split_needs_step_of_two (s : bytes) (step : Z) (w : World) :
  step < 2 ->
  random_split s step w
  = (match s with [] => Ret [] | _ :: _ => Raise ValueError end, w).
Proof.
  intros Hstep. unfold random_split. destruct s as [|c s]; [reflexivity|].
  cbn [length random_split_loop]. unfold bind, randrange.
  destruct (Z.leb_spec (step - 1) 0); [reflexivity|lia].
Qed.

Lemma random_split_needs_step_of_two_witness :
  random_split (B "St:example.com") 1 (world0 [] [])
  = (Raise ValueError, world0 [] []).
Proof.
  apply (random_split_needs_step_of_two (B "St:example.com") 1 (world0 [] [])).
  lia.
Defined.

(** X18.  When the first [read(5)] returns all five bytes of the header
    of a TLS record of more than 85 bytes, [handle_tunnel] forwards the
    header in a write of its own, then reads again (at most 85 bytes),
    forwards what it got in a second write and flushes before it starts
    the pumps; the bytes go out unchanged and in order. *)
Theorem long_tls_record_is_forwarded_in_two_writes (host : option bytes)
    (port : option Z) (version : bytes) (w w1 w2 : World) (hi lo : ascii)
    (buf : bytes) :
  upstream_up w = true ->
  read Client 5 w = (Ret (TLS_HELLO ++ [hi; lo]), w1) ->
  85 < 256 * Z.of_nat (nat_of_ascii hi) + Z.of_nat (nat_of_ascii lo) ->
  read Client 85 w1 = (Ret buf, w2) ->
  buf <> [] ->
  handle_tunnel host port version w
  = (Ret tt,
     log Pumps
       (log (Drain Server)
          (log (Write Server buf)
             (log (Write Server (TLS_HELLO ++ [hi; lo]))
                (log (Write Client (PROXY_RESP_200 version))
                   (log (Connect host port) w2)))))).
Proof.
  intros Hup Hread Hlen Hread2 Hne.
  unfold handle_tunnel, bind at 1, try_except, bind at 1,
    open_connection, bind at 1, emit at 1.
  cbn [log upstream_up]. rewrite Hup. cbn [ret negb].
  unfold bind at 1, write at 1, emit at 1.
  unfold bind at 1, nagato_read at 1, bind at 1.
  rewrite !read_log, Hread. cbn [fst snd].
  cbn [TLS_HELLO app]. unfold ret at 1.
  unfold bind at 1, write at 1, emit at 1.
  cbn [startswith TLS_HELLO]. rewrite !Ascii.eqb_refl.
  cbn [andb drop]. unfold bind at 1, bind at 1, unpack_H, ret at 1.
  destruct (Z.gtb_spec (256 * Z.of_nat (nat_of_ascii hi)
                        + Z.of_nat (nat_of_ascii lo)) 85) as [_|?]; [|lia].
  unfold bind at 1, nagato_read, bind at 1.
  rewrite !read_log, Hread2. cbn [fst snd].
  destruct buf as [|c buf]; [contradiction|]. reflexivity.
Qed.

(** Scenario S6: a TLS record of 256 bytes, of which ten have arrived. *)
Lemma long_tls_record_is_forwarded_in_two_writes_witness :
  handle_tunnel (Some (B "example.com")) (Some 443) (B "HTTP/1.1")
    (world0 (TLS_HELLO ++ ["001"; "000"]%char ++ B "0123456789") [])
  = (Ret tt,
     log Pumps
       (log (Drain Server)
          (log (Write Server (B "0123456789"))
             (log (Write Server (TLS_HELLO ++ ["001"; "000"]%char))
                (log (Write Client (PROXY_RESP_200 (B "HTTP/1.1")))
                   (log (Connect (Some (B "example.com")) (Some 443))
                      (world0 [] []))))))).
Proof.
  apply (long_tls_record_is_forwarded_in_two_writes
           (Some (B "example.com")) (Some 443) (B "HTTP/1.1")
           (world0 (TLS_HELLO ++ ["001"; "000"]%char ++ B "0123456789") [])
           (world0 (B "0123456789") []) (world0 [] [])
           "001"%char "000"%char (B "0123456789")).
  - reflexivity.
  - reflexivity.
  - vm_compute. reflexivity.
  - reflexivity.
  - discriminate.
Defined.
